(** * multimongo: the Document / Collection model of [models.py]

    A shallow embedding of the classes [Document] and [Collection] of
    [src/models.py], and of the registry of [Database] over an abstract
    storage, with the properties of the record-set algebra stated about
    them.

    Modelling conventions.
    - Python values stored in a document are [value]s: [None], [str],
      [int] and [bson.ObjectId].  A [str] is held as its UTF-8
      encoding, one [ascii] for each byte; its characters, which [len]
      counts and iteration yields, are the code points ([PyStr.chars]).
      [str.lower] is modelled on ASCII text, where it folds the letters
      [A-Z]; statements about letter case assume such text.
    - A Python [dict] is an insertion-ordered association list; all
      accesses go through [dict_get], [dict_set], [dict_pop], which act on
      the first binding of a key, as a dict with unique keys does.
    - Dicts are mutable objects that the code aliases freely
      ([self.content = document], [new_doc = doc.content]), so they live
      in a [heap] and are referred to by address.
    - A method is a computation in the monad [M]: it threads the [world]
      (heap, ObjectId generator, the diagnostics printed, the file
      [not_in.json]) and either returns or raises an exception; the
      world reached when an exception is raised keeps every effect
      performed before.
    - A [Collection] or a [Database] is a record held by value: a method
      that assigns or appends to an attribute returns the object after
      the call.  That two collections can hold one and the same list
      object ([self.documents = docs]) is outside the model; the dicts
      that their Documents share are inside it. *)

From Stdlib Require Import ZArith Ascii String DecimalString List Bool Lia.
From stdpp Require Import base decidable option list strings.

Local Open Scope string_scope.
Local Open Scope list_scope.

(** ** Strings *)

Module PyStr.

(** One character of [str.replace(" ", "_")]. *)
Definition underscore (c : ascii) : ascii :=
  if Ascii.eqb c " "%char then "_"%char else c.

Fixpoint map_chars (f : ascii -> ascii) (s : string) : string :=
  match s with
  | EmptyString => EmptyString
  | String c s' => String (f c) (map_chars f s')
  end.

(** [s.replace(" ", "_")] *)
Definition replace_space (s : string) : string := map_chars underscore s.

(** One character of [s.lower()] on ASCII text: the letters [A-Z] are
    folded, every other character is kept. *)
Definition lower_char (c : ascii) : ascii :=
  let n := nat_of_ascii c in
  if (65 <=? n)%nat && (n <=? 90)%nat then ascii_of_nat (n + 32) else c.

(** [s.lower()], for a [str] of ASCII characters.  (On other text
    Python follows the Unicode case tables, which are not part of this
    development; bytes outside ASCII are kept as they are.) *)
Definition lower (s : string) : string := map_chars lower_char s.

(** [str(n)] for an [int]. *)
Definition of_int (z : Z) : string := NilZero.string_of_int (Z.to_int z).

Definition newline : string := String "010"%char EmptyString.

(** A byte that continues a UTF-8 sequence: [10xxxxxx]. *)
Definition is_continuation (c : ascii) : bool :=
  let n := nat_of_ascii c in (128 <=? n)%nat && (n <? 192)%nat.

(** The characters of a string, as Python iterates over it: a [str]
    passed where a list of field names is expected behaves as the list
    of its one-character substrings ([len], [s[0]], [for c in s]).  A
    character is a code point: in the encoding, a byte together with
    the continuation bytes that follow it. *)
Fixpoint chars (s : string) : list string :=
  match s with
  | EmptyString => []
  | String c s' =>
      match s' with
      | String c' _ =>
          if is_continuation c'
          then match chars s' with
               | first :: rest => String c first :: rest
               | [] => [String c EmptyString]
               end
          else String c EmptyString :: chars s'
      | EmptyString => [String c EmptyString]
      end
  end.

Definition is_digit (c : ascii) : bool :=
  let n := nat_of_ascii c in (48 <=? n)%nat && (n <=? 57)%nat.
Definition is_af (c : ascii) : bool :=
  let n := nat_of_ascii c in (97 <=? n)%nat && (n <=? 102)%nat.
Definition is_AF (c : ascii) : bool :=
  let n := nat_of_ascii c in (65 <=? n)%nat && (n <=? 70)%nat.

(** The character class [[a-f0-9]]. *)
Definition in_class (c : ascii) : bool := is_af c || is_digit c.

(** [[a-f0-9]{n}] at the start of [s]: the rest of [s] when it matches. *)
Fixpoint class_run (n : nat) (s : string) : option string :=
  match n with
  | O => Some s
  | S n' =>
      match s with
      | String c s' => if in_class c then class_run n' s' else None
      | EmptyString => None
      end
  end.

(** [bool(re.match("^[a-f0-9]{24}$", s))].  Without [re.MULTILINE],
    [$] matches at the end of the string and also just before a newline
    that is the last character of the string. *)
Definition re_match_oid (s : string) : bool :=
  match class_run 24 s with
  | Some rest => String.eqb rest "" || String.eqb rest newline
  | None => false
  end.

Fixpoint all_chars (p : ascii -> bool) (s : string) : bool :=
  match s with
  | EmptyString => true
  | String c s' => p c && all_chars p s'
  end.

Definition hex_digit (n : N) : ascii :=
  ascii_of_N (if (n <? 10)%N then 48 + n else 87 + n).

(** The [k] low hexadecimal digits of [n], most significant first. *)
Fixpoint hex_digits (k : nat) (n : N) (acc : string) : string :=
  match k with
  | O => acc
  | S k' => hex_digits k' (n / 16)%N (String (hex_digit (n mod 16)%N) acc)
  end.

End PyStr.

(** ** Values and dicts *)

(** The values a document holds.  [VOid h] is a [bson.ObjectId] whose
    [str] is the 24-digit lower-case hexadecimal string [h]. *)
Inductive value : Type :=
| VNone
| VStr (s : string)
| VInt (z : Z)
| VOid (h : string).

Global Instance value_eq_dec : EqDecision value.
Proof. solve_decision. Defined.

(** [str(v)] *)
Definition py_str (v : value) : string :=
  match v with
  | VNone => "None"
  | VStr s => s
  | VInt z => PyStr.of_int z
  | VOid h => h
  end.

(** [isinstance(v, str)] *)
Definition is_str (v : value) : bool :=
  match v with VStr _ => true | _ => false end.

(** [v in values], for a container of skip values. *)
Definition value_in (v : value) (values : list value) : bool :=
  existsb (fun v' => bool_decide (v = v')) values.

Abbreviation dict := (list (string * value)).

(** [d.get(k)], [None] standing for Python's missing entry. *)
Fixpoint dict_get (k : string) (d : dict) : option value :=
  match d with
  | [] => None
  | (k', v) :: d' => if String.eqb k k' then Some v else dict_get k d'
  end.

(** [k in d] *)
Definition dict_has (k : string) (d : dict) : bool :=
  match dict_get k d with Some _ => true | None => false end.

(** [d[k] = v]: an existing key keeps its position, a new key is appended. *)
Fixpoint dict_set (k : string) (v : value) (d : dict) : dict :=
  match d with
  | [] => [(k, v)]
  | (k', v') :: d' =>
      if String.eqb k k' then (k', v) :: d' else (k', v') :: dict_set k v d'
  end.

(** [d.pop(k, None)], the popped value dropped. *)
Fixpoint dict_pop (k : string) (d : dict) : dict :=
  match d with
  | [] => []
  | (k', v') :: d' =>
      if String.eqb k k' then d' else (k', v') :: dict_pop k d'
  end.

(** [list(d)]: the keys in iteration order. *)
Definition dict_keys (d : dict) : list string := map fst d.

(** ** Exceptions, the world, and the monad of methods *)

(** The [ValueError]s of the code, one constructor for each [raise]. *)
Inductive value_error : Type :=
| BadElementType
    (* Invalid type '{type(docs[0])}' for 'docs' parameter. Must be
       'Document' or 'dict'. *)
| BadDocsType
    (* Invalid type '{type(docs)}' for 'docs' parameter. Must be
       'MongoCollection', 'Collection', 'List', or 'None'. *)
| FieldsNotList
    (* Fields should be provided as a list *)
| NotACollection
    (* Can only add instances of Collection together *)
| ConflictingIds (ids : list value).
    (* Conflicting _id values found: {conflicting_ids} ... *)

Inductive exn : Type :=
| IndexError
| TypeError
| AttributeError
| KeyError (k : string)
| InvalidId (s : string)             (* bson.errors.InvalidId *)
| ValueError (why : value_error).

(** The lines the code prints, each kept as the data its f-string
    formats. *)
Inductive diag : Type :=
| KeyNotIn (key other_id : string)
    (* WARNING: Key '{key}' not in '{other.id}' document. *)
| KeyDiffers (key self_id : string) (v : value) (other_id : string) (v' : value)
    (* WARNING: Key '{key}': '{self.id}': '{v}' != '{other.id}': '{v'}' documents. *)
| NotADocument
    (* Object '{other}' is not a Document. *)
| DocumentNotIn (doc_id coll_name : string)
    (* WARNING: Document '{doc.id}' not in '{item.name}' collection. *)
| ColumnNotFound (column doc_id : string).
    (* WARNING: Column '{column}' not found in document ID {doc.id}. *)

Inductive result (A : Type) : Type :=
| Ok (a : A)
| Raise (e : exn).
Arguments Ok {A} a.
Arguments Raise {A} e.

Abbreviation addr := nat.

Record world : Type := World {
  heap : list dict;                  (* the dict objects, by address *)
  oid_counter : N;                   (* state of the ObjectId generator *)
  stdout : list diag;                (* lines printed so far *)
  not_in_json : option (list dict)   (* contents of not_in.json, if written *)
}.

Definition M (A : Type) : Type := world -> result A * world.

Definition ret {A} (a : A) : M A := fun w => (Ok a, w).

Definition bind {A B} (m : M A) (f : A -> M B) : M B :=
  fun w =>
    match m w with
    | (Ok a, w') => f a w'
    | (Raise e, w') => (Raise e, w')
    end.

Definition raise {A} (e : exn) : M A := fun w => (Raise e, w).

Declare Scope py_scope.
Delimit Scope py_scope with py.
Notation "'let!' x := m 'in' k" := (bind m (fun x => k))
  (at level 10, x name, m at level 200, k at level 200,
   format "'[v' 'let!'  x  :=  m  'in' '/' k ']'") : py_scope.
Local Open Scope py_scope.

(** The dict at an address. *)
Definition deref (h : list dict) (a : addr) : dict :=
  match h !! a with Some d => d | None => [] end.

Definition read (a : addr) : M dict :=
  fun w => (Ok (deref (heap w) a), w).

Definition write (a : addr) (d : dict) : M unit :=
  fun w => (Ok tt, World (<[a := d]> (heap w)) (oid_counter w) (stdout w) (not_in_json w)).

(** A new dict object: [{...}], [d.copy()]. *)
Definition alloc (d : dict) : M addr :=
  fun w => (Ok (length (heap w)),
            World (heap w ++ [d]) (oid_counter w) (stdout w) (not_in_json w)).

(** [print(line)] *)
Definition print (line : diag) : M unit :=
  fun w => (Ok tt, World (heap w) (oid_counter w) (stdout w ++ [line]) (not_in_json w)).

(** [json.dump(objs, f)] on a freshly truncated [not_in.json]. *)
Definition dump_not_in (objs : list dict) : M unit :=
  fun w => (Ok tt, World (heap w) (oid_counter w) (stdout w) (Some objs)).

(** [ObjectId()]: a fresh identifier. *)
Definition mint : M value :=
  fun w => (Ok (VOid (PyStr.hex_digits 24 (oid_counter w) "")),
            World (heap w) (oid_counter w + 1)%N (stdout w) (not_in_json w)).

(** [ObjectId(s)] for a string [s]: bson accepts exactly the strings of
    24 hexadecimal digits and raises [InvalidId] on any other string. *)
Definition ObjectId_of_str (s : string) : result value :=
  if (String.length s =? 24)%nat
     && PyStr.all_chars (fun c => PyStr.is_digit c || PyStr.is_af c || PyStr.is_AF c) s
  then Ok (VOid (PyStr.lower s))
  else Raise (InvalidId s).

Definition lift {A} (r : result A) : M A := fun w => (r, w).

(** A list comprehension whose body has effects. *)
Fixpoint mapM {A B} (f : A -> M B) (l : list A) : M (list B) :=
  match l with
  | [] => ret []
  | x :: l' => let! y := f x in let! ys := mapM f l' in ret (y :: ys)
  end.

(** A [for] loop run for its effects. *)
Fixpoint forM {A} (f : A -> M unit) (l : list A) : M unit :=
  match l with
  | [] => ret tt
  | x :: l' => let! _ := f x in forM f l'
  end.

(** ** Document *)

Record Document : Type := mkDocument {
  content : addr;   (* self.content: a reference to the dict, not a copy *)
  id : string       (* self.id *)
}.

(** What a variable meant to hold a document can hold at run time: a
    [Document], a raw [dict], or an object of some other type. *)
Inductive pyobj : Type :=
| ODoc (d : Document)
| ODict (a : addr)
| OOther.

(** The reserved identity field. *)
Definition rid : string := "_id".

(** [[self.content[id] for id in ids if id in self.content]] *)
Fixpoint present (ids : list string) (c : dict) : list value :=
  match ids with
  | [] => []
  | k :: ids' =>
      match dict_get k c with
      | Some v => v :: present ids' c
      | None => present ids' c
      end
  end.

(** ["".join(vs)]: every item must be a [str]. *)
Fixpoint str_join (vs : list value) : result string :=
  match vs with
  | [] => Ok ""
  | VStr s :: vs' =>
      match str_join vs' with
      | Ok r => Ok (s ++ r)%string
      | Raise e => Raise e
      end
  | _ :: _ => Raise TypeError
  end.

(** Lines 15-25 of [Document.__init__]: the identity. *)
Definition derive_id (a : addr) (ids : list string) : M string :=
  match ids with
  | [k] =>
      let! c := read a in
      match dict_get k c with
      | Some (VStr s) => ret (PyStr.replace_space s)
      | Some v => ret (py_str v)
      | None =>
          let! new_id := mint in
          let! _ := write a (dict_set rid new_id c) in
          ret (py_str new_id)
      end
  | _ =>
      let! c := read a in
      let! s := lift (str_join (present ids c)) in
      ret (PyStr.replace_space s)
  end.

(** The body of the loop of lines 27-30 for one key. *)
Definition normalize_key (a : addr) (key : string) : M unit :=
  let! c := read a in
  match dict_get key c with
  | Some (VStr s) =>
      if PyStr.re_match_oid s
      then let! o := lift (ObjectId_of_str s) in write a (dict_set key o c)
      else ret tt
  | _ => ret tt
  end.

(** Lines 27-30: [for key in self.content: ...]. *)
Definition normalize (a : addr) : M unit :=
  let! c := read a in forM (normalize_key a) (dict_keys c).

(** [Document(document, ids)].  On an object that is not a dict, the
    membership test or the iteration over [self.content] raises
    [TypeError]. *)
Definition Document_init (document : pyobj) (ids : list string) : M Document :=
  match document with
  | ODict a =>
      let! i := derive_id a ids in
      let! _ := normalize a in
      ret (mkDocument a i)
  | _ => raise TypeError
  end.

Definition excluded_keys : list string :=
  ["created_at"; "updated_at"; "createdAt"; "updatedAt"; "_id"].

Definition key_excluded (key : string) : bool :=
  existsb (String.eqb key) excluded_keys.

(** [str(a).lower() != str(b).lower()], negated; for values whose
    string forms are ASCII text (see [PyStr.lower]). *)
Definition same_text (a b : value) : bool :=
  String.eqb (PyStr.lower (py_str a)) (PyStr.lower (py_str b)).

(** The loop of [Document.__eq__] over the keys of [self.content]. *)
Fixpoint eq_loop (self_id other_id : string) (cs co : dict)
    (keys : list string) : M bool :=
  match keys with
  | [] => ret true
  | key :: keys' =>
      if key_excluded key then eq_loop self_id other_id cs co keys'
      else
        match dict_get key co with
        | None =>
            let! _ := print (KeyNotIn key other_id) in
            eq_loop self_id other_id cs co keys'
        | Some vo =>
            match dict_get key cs with
            | Some vs =>
                if same_text vs vo then eq_loop self_id other_id cs co keys'
                else
                  let! _ := print (KeyDiffers key self_id vs other_id vo) in
                  ret false
            | None => raise (KeyError key)
            end
        end
  end.

(** [Document.__eq__(self, other)] *)
Definition Document_eq (self : Document) (other : pyobj) : M bool :=
  match other with
  | ODoc o =>
      let! cs := read (content self) in
      let! co := read (content o) in
      eq_loop (id self) (id o) cs co (dict_keys cs)
  | _ => let! _ := print NotADocument in ret false
  end.

(** ** Collection *)

Record Collection : Type := mkCollection {
  name : string;
  documents : list pyobj;                    (* self.documents *)
  skip_values : list (string * list value)   (* self.skip_values, as .items() *)
}.

(** The shapes of the [docs] argument that [Collection.__init__] tells
    apart; [SrcMongo rows] is a [MongoCollection] whose [find()] yields
    the dicts [rows]. *)
Inductive source : Type :=
| SrcNone
| SrcMongo (rows : list dict)
| SrcCollection (c : Collection)
| SrcList (l : list pyobj)
| SrcOther.

(** The default [ids=['_id']]. *)
Definition default_ids : list string := [rid].

(** [Collection(collection, docs, ids, skip_values)] *)
Definition Collection_init (collection : string) (docs : source)
    (ids : list string) (skip : list (string * list value)) : M Collection :=
  match docs with
  | SrcNone => ret (mkCollection collection [] skip)
  | SrcMongo rows =>
      let! ds := mapM (fun row => let! a := alloc row in
                                  Document_init (ODict a) ids) rows in
      ret (mkCollection collection (map ODoc ds) skip)
  | SrcCollection c => ret (mkCollection collection (documents c) skip)
  | SrcList l =>
      match l with
      | [] => raise IndexError                       (* docs[0] *)
      | ODoc _ :: _ => ret (mkCollection collection l skip)
      | ODict _ :: _ =>
          let! ds := mapM (fun doc => Document_init doc ids) l in
          ret (mkCollection collection (map ODoc ds) skip)
      | OOther :: _ =>
          raise (ValueError BadElementType)
      end
  | SrcOther =>
      raise (ValueError BadDocsType)
  end.

(** [doc.content] and [doc.id]: only a [Document] has these attributes. *)
Definition attr_content (doc : pyobj) : M addr :=
  match doc with ODoc d => ret (content d) | _ => raise AttributeError end.

Definition attr_id (doc : pyobj) : M string :=
  match doc with ODoc d => ret (id d) | _ => raise AttributeError end.

(** [set_ids]: always in place; the result is [self] after the call. *)
Definition set_ids (self : Collection) (ids : list string) : M Collection :=
  let! ds := mapM (fun doc => let! a := attr_content doc in
                              Document_init (ODict a) ids) (documents self) in
  ret (mkCollection (name self) (map ODoc ds) (skip_values self)).

(** *** [__contains__] *)

(** Lines 97-101: does a skip rule exclude [doc]? *)
Fixpoint skip_loop (doc : pyobj) (items : list (string * list value)) : M bool :=
  match items with
  | [] => ret false
  | (key, values) :: rest =>
      let! a := attr_content doc in
      let! c := read a in
      match dict_get key c with
      | Some v => if value_in v values then ret true else skip_loop doc rest
      | None => skip_loop doc rest
      end
  end.

(** [[doc2 for doc2 in self.documents if doc.id == doc2.id]] *)
Fixpoint same_id (doc : pyobj) (docs : list pyobj) : M (list pyobj) :=
  match docs with
  | [] => ret []
  | doc2 :: docs' =>
      let! i := attr_id doc in
      let! i2 := attr_id doc2 in
      let! r := same_id doc docs' in
      ret (if String.eqb i i2 then doc2 :: r else r)
  end.

(** [[doc] == matches]: lists of different lengths are unequal without
    any element being compared; with one element on each side the
    elements are compared with [==], which is [Document.__eq__].  (When
    [matches] is not empty [doc.id] has been read, so [doc] is a
    Document.  Python skips [__eq__] when both elements are the same
    object; [Document_eq_same] shows that the call would return [True]
    and print nothing, so the shortcut is not observable.) *)
Definition singleton_eq (doc : pyobj) (matches : list pyobj) : M bool :=
  match doc, matches with
  | ODoc d, [doc2] => Document_eq d doc2
  | _, _ => ret false
  end.

(** Lines 95-109, [not_in] holding references to the failing contents. *)
Fixpoint contains_loop (self item : Collection) (docs : list pyobj)
    (not_in : list addr) : M (list addr) :=
  match docs with
  | [] => ret not_in
  | doc :: docs' =>
      let! skip := skip_loop doc (skip_values item) in
      if skip then contains_loop self item docs' not_in
      else
        let! matches := same_id doc (documents self) in
        let! found := singleton_eq doc matches in
        if found then contains_loop self item docs' not_in
        else
          let! i := attr_id doc in
          let! _ := print (DocumentNotIn i (name item)) in
          let! a := attr_content doc in
          contains_loop self item docs' (not_in ++ [a])
  end.

(** [dicts[keys] = str(dicts[keys])] *)
Definition stringify_key (a : addr) (key : string) : M unit :=
  let! c := read a in
  match dict_get key c with
  | Some v => write a (dict_set key (VStr (py_str v)) c)
  | None => raise (KeyError key)
  end.

(** [for keys in dicts: ...] *)
Definition stringify (a : addr) : M unit :=
  let! c := read a in forM (stringify_key a) (dict_keys c).

(** [self.__contains__(item)], that is [item in self]. *)
Definition Collection_contains (self item : Collection) : M bool :=
  let! not_in := contains_loop self item (documents item) [] in
  match not_in with
  | [] => ret true
  | _ =>
      let! _ := forM stringify not_in in
      let! objs := mapM read not_in in
      let! _ := dump_not_in objs in
      ret false
  end.

(** *** [__getitem__] *)

(** The [fields] argument: a list, or an object of another type. *)
Inductive fields_arg : Type :=
| FList (fields : list string)
| FNotList.

(** [{field: doc.content[field] for field in fields if field in doc.content}],
    the entries inserted into [acc] one field at a time. *)
Fixpoint slice_loop (doc : pyobj) (fields : list string) (acc : dict) : M dict :=
  match fields with
  | [] => ret acc
  | field :: fields' =>
      let! a := attr_content doc in
      let! c := read a in
      match dict_get field c with
      | Some v => slice_loop doc fields' (dict_set field v acc)
      | None => slice_loop doc fields' acc
      end
  end.

Definition slice_doc (fields : list string) (doc : pyobj) : M pyobj :=
  let! d := slice_loop doc fields [] in
  let! a := alloc d in
  ret (ODict a).

(** [self[fields]] *)
Definition Collection_getitem (self : Collection) (fields : fields_arg)
  : M Collection :=
  match fields with
  | FNotList => raise (ValueError FieldsNotList)
  | FList fs =>
      let! sliced_docs := mapM (slice_doc fs) (documents self) in
      Collection_init (name self) (SrcList sliced_docs) default_ids []
  end.

(** *** [__add__] *)

Inductive operand : Type :=
| IsCollection (c : Collection)
| NotCollection.

(** [doc.content.get('_id')] *)
Definition get_rid (doc : pyobj) : M value :=
  let! a := attr_content doc in
  let! c := read a in
  ret (default VNone (dict_get rid c)).

(** [set(xs).intersection(ys)], listed without repetition. *)
Definition set_intersection (xs ys : list value) : list value :=
  filter (fun x => x ∈ ys) (remove_dups xs).

(** [self + other] *)
Definition Collection_add (self : Collection) (other : operand) : M Collection :=
  match other with
  | NotCollection =>
      raise (ValueError NotACollection)
  | IsCollection other =>
      let combined_name := (name self ++ "_and_" ++ name other)%string in
      let! self_ids := mapM get_rid (documents self) in
      let! other_ids := mapM get_rid (documents other) in
      let conflicting_ids := set_intersection self_ids other_ids in
      match conflicting_ids with
      | _ :: _ => raise (ValueError (ConflictingIds conflicting_ids))
      | [] =>
          let combined_documents := documents self ++ documents other in
          Collection_init combined_name (SrcList combined_documents) default_ids []
      end
  end.

(** *** [remove_ids] *)

(** Lines 161-164.  [new_doc = doc.content] binds the document's own
    dict, so [pop] acts on it; the new list holds that same dict. *)
Definition remove_id (doc : pyobj) : M pyobj :=
  let! new_doc := attr_content doc in
  let! c := read new_doc in
  let! _ := write new_doc (dict_pop rid c) in
  ret (ODict new_doc).

(** [self.remove_ids(in_place)]: the pair of [self] after the call and
    the value returned ([None] when in place). *)
Definition remove_ids (self : Collection) (in_place : bool)
  : M (Collection * option Collection) :=
  let! new_documents := mapM remove_id (documents self) in
  if in_place
  then ret (mkCollection (name self) new_documents (skip_values self), None)
  else
    let! c := Collection_init (name self) (SrcList new_documents) default_ids [] in
    ret (self, Some c).

(** *** [transform] *)

(** One iteration of lines 176-186.  The second argument of [Document]
    is [doc.id], a string, which the constructor reads as a sequence of
    field names. *)
Definition transform_doc (new_name column : string) (func : value -> value)
    (doc : pyobj) : M pyobj :=
  let! a := attr_content doc in
  let! c := read a in
  let! new_doc_content := alloc c in                 (* doc.content.copy() *)
  let! nc := read new_doc_content in
  let! _ :=
    match dict_get column nc with
    | Some v => write new_doc_content (dict_set new_name (func v) nc)
    | None =>
        let! i := attr_id doc in
        let! _ := print (ColumnNotFound column i) in
        write new_doc_content (dict_set new_name (VStr "UNAVAILABLE") nc)
    end in
  let! i := attr_id doc in
  let! d := Document_init (ODict new_doc_content) (PyStr.chars i) in
  ret (ODoc d).

Definition transform (self : Collection) (new_name column : string)
    (func : value -> value) (in_place : bool)
  : M (Collection * option Collection) :=
  let! new_documents := mapM (transform_doc new_name column func) (documents self) in
  if in_place
  then ret (mkCollection (name self) new_documents (skip_values self), None)
  else
    let! c := Collection_init (name self) (SrcList new_documents) default_ids [] in
    ret (self, Some c).

(** [add_document]: appends to [self.documents]. *)
Definition add_document (self : Collection) (doc : pyobj) : M Collection :=
  let! d := Document_init doc default_ids in
  ret (mkCollection (name self) (documents self ++ [ODoc d]) (skip_values self)).

(** *** [resolve] *)

(** [lookup[k] = a] on a dict keyed by values. *)
Fixpoint lookup_set (k : value) (a : addr) (l : list (value * addr))
  : list (value * addr) :=
  match l with
  | [] => [(k, a)]
  | (k', a') :: l' =>
      if bool_decide (k = k') then (k', a) :: l' else (k', a') :: lookup_set k a l'
  end.

Fixpoint lookup_get (k : value) (l : list (value * addr)) : option addr :=
  match l with
  | [] => None
  | (k', a) :: l' => if bool_decide (k = k') then Some a else lookup_get k l'
  end.

(** [{doc.content["_id"]: doc.content for doc in other.documents}] *)
Fixpoint build_lookup (docs : list pyobj) (acc : list (value * addr))
  : M (list (value * addr)) :=
  match docs with
  | [] => ret acc
  | doc :: docs' =>
      let! a := attr_content doc in
      let! c := read a in
      match dict_get rid c with
      | Some v => build_lookup docs' (lookup_set v a acc)
      | None => raise (KeyError rid)
      end
  end.

(** Lines 210-217 on the copy at [n]. *)
Fixpoint resolve_keys (lookup : list (value * addr)) (n : addr)
    (mapping : list (string * string)) : M unit :=
  match mapping with
  | [] => ret tt
  | (key_self, key_other) :: rest =>
      let! nc := read n in
      let! _ :=
        match dict_get key_self nc with
        | Some lookup_id =>
            match lookup_get lookup_id lookup with
            | Some oa =>
                let! oc := read oa in
                write n (dict_set key_self (default VNone (dict_get key_other oc)) nc)
            | None => ret tt
            end
        | None => ret tt
        end in
      resolve_keys lookup n rest
  end.

Definition resolve_doc (lookup : list (value * addr))
    (mapping : list (string * string)) (doc : pyobj) : M pyobj :=
  let! a := attr_content doc in
  let! c := read a in
  let! new_doc_content := alloc c in                 (* doc.content.copy() *)
  let! _ := resolve_keys lookup new_doc_content mapping in
  let! i := attr_id doc in
  let! d := Document_init (ODict new_doc_content) (PyStr.chars i) in
  ret (ODoc d).

Definition resolve (self other : Collection) (mapping : list (string * string))
    (in_place : bool) : M (Collection * option Collection) :=
  let! lookup := build_lookup (documents other) [] in
  let! new_documents := mapM (resolve_doc lookup mapping) (documents self) in
  if in_place
  then ret (mkCollection (name self) new_documents (skip_values self), None)
  else
    let! c := Collection_init (name self) (SrcList new_documents) default_ids [] in
    ret (self, Some c).

(** *** [__getattr__] *)

(** [{doc.id: doc for doc in self.documents if doc.id == key}]: the map
    has at most the one key [key], and a later record replaces an
    earlier one. *)
Fixpoint document_map (key : string) (docs : list pyobj) (found : option pyobj)
  : M (option pyobj) :=
  match docs with
  | [] => ret found
  | doc :: docs' =>
      let! i := attr_id doc in
      if String.eqb i key
      then document_map key docs' (Some doc)
      else document_map key docs' found
  end.

(** [self.<key>], reached when [key] is not an attribute of the object. *)
Definition Collection_getattr (self : Collection) (key : string) : M pyobj :=
  let! m := document_map key (documents self) None in
  match m with
  | Some doc => ret doc
  | None => raise AttributeError
  end.

(** *** [filter_by] *)

(** The value of a condition: a literal, or a callable (taken to return
    a boolean and to have no effect). *)
Inductive condition : Type :=
| CLiteral (value : value)
| CCallable (value : value -> bool).

(** [matches_conditions(document)], over [conditions.items()]: the
    entries of the dict [conditions], in which no key occurs twice (a
    list that repeats a key is the [items()] of no dict). *)
Fixpoint matches_conditions (conditions : list (string * condition))
    (document : pyobj) : M bool :=
  match conditions with
  | [] => ret true
  | (key, cond) :: rest =>
      let! a := attr_content document in
      let! c := read a in
      match dict_get key c with
      | None => ret false
      | Some v =>
          match cond with
          | CCallable p =>
              if p v then matches_conditions rest document else ret false
          | CLiteral value =>
              if bool_decide (v = value) then matches_conditions rest document
              else ret false
          end
      end
  end.

(** [[doc for doc in self.documents if matches_conditions(doc)]] *)
Fixpoint filtered_documents (conditions : list (string * condition))
    (docs : list pyobj) : M (list pyobj) :=
  match docs with
  | [] => ret []
  | doc :: docs' =>
      let! m := matches_conditions conditions doc in
      let! rest := filtered_documents conditions docs' in
      ret (if m then doc :: rest else rest)
  end.

Definition filter_by (self : Collection) (conditions : list (string * condition))
    (in_place : bool) : M (Collection * option Collection) :=
  let! filtered := filtered_documents conditions (documents self) in
  if in_place
  then ret (mkCollection (name self) filtered (skip_values self), None)
  else
    let! c := Collection_init (name self) (SrcList filtered) default_ids [] in
    ret (self, Some c).

(** ** Database: the registry of collections and [make_live] *)

(** What a [Database] method raises: its own [ValueError]s and
    [AttributeError], an exception of the collection code it runs, or an
    error of the storage. *)
Inductive db_error : Type :=
| NoDocuments
    (* ValueError: Collection '{name}' has no documents. Cannot make live. *)
| AlreadyLive
    (* ValueError: Collection '{name}' already exists in the live database. ... *)
| NameTaken
    (* ValueError: A collection named {name} already exists in the database *)
| NoSuchCollection
    (* AttributeError: No document with ID '{key}' in the collection. *)
| Raised (e : exn)
| StorageError.

Inductive outcome (A : Type) : Type :=
| Done (a : A)
| Failed (e : db_error).
Arguments Done {A} a.
Arguments Failed {A} e.

(** The part of a pymongo database that [Database] uses.  What the
    operations do is left open.  Listing the names is a query on the
    state of the database, which may fail; the other operations return
    the database they leave and may fail as well; [insert_many]
    receives the dicts by reference and may write to them. *)
Class Storage (db : Type) : Type := {
  list_collection_names : db -> outcome (list string);
  drop_collection : string -> db -> outcome unit * db;
  create_collection : string -> db -> outcome unit * db;
  insert_many : string -> list addr -> db -> world -> outcome unit * db * world
}.

Record Database (db : Type) : Type := mkDatabase {
  live : db;                        (* self.db *)
  collections : list Collection     (* self.collections *)
}.
Arguments mkDatabase {db} live collections.
Arguments live {db} d.
Arguments collections {db} d.

(** [key in names] *)
Definition name_in (key : string) (names : list string) : bool :=
  existsb (String.eqb key) names.

Section DatabaseMethods.
Context {db : Type} `{Storage db}.

(** [self.<key>]: the map built by the comprehension has the one key
    [key]; a later collection of that name replaces an earlier one. *)
Fixpoint collection_map (key : string) (cs : list Collection)
    (found : option Collection) : option Collection :=
  match cs with
  | [] => found
  | collection :: cs' =>
      if String.eqb (name collection) key
      then collection_map key cs' (Some collection)
      else collection_map key cs' found
  end.

Definition Database_getattr (self : Database db) (key : string)
  : outcome Collection :=
  match collection_map key (collections self) None with
  | Some collection => Done collection
  | None => Failed NoSuchCollection
  end.

(** [self.make_live(collection, overwrite)]: the outcome, [self] after
    the call, and the world.  The names are listed up to three times
    with no operation in between; the three answers are that of the
    state of the database. *)
Definition make_live (self : Database db) (collection : Collection)
    (overwrite : bool) (w : world) : outcome unit * Database db * world :=
  match documents collection with
  | [] => (Failed NoDocuments, self, w)
  | _ :: _ =>
      match list_collection_names (live self) with
      | Failed e => (Failed e, self, w)
      | Done names =>
          if name_in (name collection) names && negb overwrite
          then (Failed AlreadyLive, self, w)
          else
            match (if name_in (name collection) names && overwrite
                   then drop_collection (name collection) (live self)
                   else (Done tt, live self)) with
            | (Failed e, live1) =>
                (Failed e, mkDatabase live1 (collections self), w)
            | (Done _, live1) =>
                match create_collection (name collection) live1 with
                | (Failed e, live2) =>
                    (Failed e, mkDatabase live2 (collections self), w)
                | (Done _, live2) =>
                    match mapM attr_content (documents collection) w with
                    | (Raise e, w') =>
                        (Failed (Raised e), mkDatabase live2 (collections self), w')
                    | (Ok contents, w') =>
                        match insert_many (name collection) contents live2 w' with
                        | (r, live3, w'') =>
                            (r, mkDatabase live3 (collections self), w'')
                        end
                    end
                end
            end
      end
  end.

(** [self.add_collection(collection, make_live)] *)
Definition add_collection (self : Database db) (collection : Collection)
    (and_make_live : bool) (w : world) : outcome unit * Database db * world :=
  if name_in (name collection) (map name (collections self))
  then (Failed NameTaken, self, w)
  else
    let self1 := mkDatabase (live self) (collections self ++ [collection]) in
    if and_make_live then make_live self1 collection false w
    else (Done tt, self1, w).

(** [self.new_collection(name)] *)
Definition new_collection (self : Database db) (new_name : string) (w : world)
  : outcome Collection * Database db * world :=
  if name_in new_name (map name (collections self))
  then (Failed NameTaken, self, w)
  else
    match Collection_init new_name SrcNone default_ids [] w with
    | (Raise e, w') => (Failed (Raised e), self, w')
    | (Ok collection, w') =>
        (Done collection,
         mkDatabase (live self) (collections self ++ [collection]), w')
    end.

End DatabaseMethods.

(** ** Traces: what a run prints and returns, as pure functions *)

(** The world after the lines [out] have been printed. *)
Definition emit (out : list diag) (w : world) : world :=
  World (heap w) (oid_counter w) (stdout w ++ out) (not_in_json w).

(** The world with another heap. *)
Definition with_heap (h : list dict) (w : world) : world :=
  World h (oid_counter w) (stdout w) (not_in_json w).

(** Result and output of [eq_loop]. *)
Fixpoint eq_trace (self_id other_id : string) (cs co : dict)
    (keys : list string) : result bool * list diag :=
  match keys with
  | [] => (Ok true, [])
  | key :: keys' =>
      if key_excluded key then eq_trace self_id other_id cs co keys'
      else
        match dict_get key co with
        | None =>
            let t := eq_trace self_id other_id cs co keys' in
            (t.1, KeyNotIn key other_id :: t.2)
        | Some vo =>
            match dict_get key cs with
            | Some vs =>
                if same_text vs vo then eq_trace self_id other_id cs co keys'
                else (Ok false, [KeyDiffers key self_id vs other_id vo])
            | None => (Raise (KeyError key), [])
            end
        end
  end.

(** Result and output of [Document.__eq__] between two documents, on
    the heap [h]. *)
Definition doc_eq_trace (h : list dict) (L R : Document) : result bool * list diag :=
  eq_trace (id L) (id R) (deref h (content L)) (deref h (content R))
    (dict_keys (deref h (content L))).



(** ** The contract of [==], stated without the functions of the code *)


(** Text of ASCII characters, on which [str.lower] folds [A-Z] and
    nothing else. *)
Definition ascii_char (c : ascii) : bool := (nat_of_ascii c <? 128)%nat.

Definition ascii_text (s : string) : bool := PyStr.all_chars ascii_char s.


Definition upper_case (c : ascii) : bool :=
  (65 <=? nat_of_ascii c)%nat && (nat_of_ascii c <=? 90)%nat.

(** The same character, or the same letter of [A-Z], once in upper and
    once in lower case (which comes 32 places later). *)
Definition same_letter (c1 c2 : ascii) : bool :=
  Ascii.eqb c1 c2
  || (upper_case c1 && (nat_of_ascii c2 =? nat_of_ascii c1 + 32)%nat)
  || (upper_case c2 && (nat_of_ascii c1 =? nat_of_ascii c2 + 32)%nat).

(** Two texts of the same length whose characters are, place by place,
    the same up to the case of letters. *)
Fixpoint equal_ignoring_case (a b : string) : bool :=
  match a, b with
  | EmptyString, EmptyString => true
  | String c1 a', String c2 b' => same_letter c1 c2 && equal_ignoring_case a' b'
  | _, _ => false
  end.



(** ** The containment audit, in the words of its contract *)

Definition as_doc (o : pyobj) : option Document :=
  match o with ODoc d => Some d | _ => None end.

Definition is_doc (o : pyobj) : bool :=
  match o with ODoc _ => true | _ => false end.

(** The Documents among the elements of a collection. *)
Definition docs_of (c : Collection) : list Document := omap as_doc (documents c).

(** The sequence of the collection holds Documents only. *)
Definition only_documents (c : Collection) : Prop :=
  forallb is_doc (documents c) = true.

(** A record is excluded when one of its fields has a value in that
    field's skip-value set. *)
Definition excluded (h : list dict) (skip : list (string * list value))
    (d : Document) : bool :=
  existsb (fun rule =>
             match dict_get rule.1 (deref h (content d)) with
             | Some v => value_in v rule.2
             | None => false
             end) skip.

(** The records of [A] that have the identity of [d]. *)
Definition identity_equal (A : Collection) (d : Document) : list Document :=
  List.filter (fun d2 => String.eqb (id d) (id d2)) (docs_of A).

(** Result and output of [[d] == [d2 for d2 in A.documents if ...]]. *)
Definition found_trace (h : list dict) (A : Collection) (d : Document)
  : result bool * list diag :=
  match identity_equal A d with
  | [d2] => doc_eq_trace h d d2
  | _ => (Ok false, [])
  end.

Definition found (h : list dict) (A : Collection) (d : Document) : bool :=
  match (found_trace h A d).1 with Ok b => b | Raise _ => false end.

(** [d] fails the audit of [B] against [A]. *)
Definition fails (h : list dict) (A B : Collection) (d : Document) : bool :=
  negb (excluded h (skip_values B) d) && negb (found h A d).

(** The failing records and the lines printed by the loop of
    [__contains__]. *)
Fixpoint audit_trace (h : list dict) (A B : Collection) (docs : list Document)
  : list Document * list diag :=
  match docs with
  | [] => ([], [])
  | d :: docs' =>
      let t := audit_trace h A B docs' in
      if excluded h (skip_values B) d then t
      else if found h A d then (t.1, (found_trace h A d).2 ++ t.2)
      else (d :: t.1,
            (found_trace h A d).2 ++ DocumentNotIn (id d) (name B) :: t.2)
  end.

(** The effect of the loop [for keys in dicts: dicts[keys] = str(...)]
    on a dict. *)
Fixpoint stringify_keys (keys : list string) (c : dict) : dict :=
  match keys with
  | [] => c
  | k :: keys' =>
      match dict_get k c with
      | Some v => stringify_keys keys' (dict_set k (VStr (py_str v)) c)
      | None => c
      end
  end.

Definition stringified (c : dict) : dict := stringify_keys (dict_keys c) c.

Definition stringify_heap (l : list addr) (h : list dict) : list dict :=
  fold_left (fun h a => <[a := stringified (deref h a)]> h) l h.

(** [obj] is [c] with every value replaced by its [str]. *)
Definition is_stringified (c obj : dict) : Prop :=
  dict_keys obj = dict_keys c
  /\ forall k, dict_get k obj = (fun v => VStr (py_str v)) <$> dict_get k c.

(** [d] is matched in [A]: exactly one record of [A] has the identity of
    [d], and [d == ] that record. *)
Definition matched (w : world) (A : Collection) (d : Document) : Prop :=
  exists d2, identity_equal A d = [d2]
             /\ (Document_eq d (ODoc d2) w).1 = Ok true.

(** The reading of the audit under which one identity-equal record that
    compares equal is enough. *)
Definition has_equal (w : world) (A : Collection) (d : Document) : Prop :=
  exists d2, In d2 (docs_of A) /\ id d2 = id d
             /\ (Document_eq d (ODoc d2) w).1 = Ok true.

(** ** Identifier normalization, as a function on dicts *)

(** Result of the loop of lines 27-30 and the dict it leaves. *)
Fixpoint normalize_keys (keys : list string) (c : dict) : result unit * dict :=
  match keys with
  | [] => (Ok tt, c)
  | k :: keys' =>
      match dict_get k c with
      | Some (VStr s) =>
          if PyStr.re_match_oid s
          then match ObjectId_of_str s with
               | Ok o => normalize_keys keys' (dict_set k o c)
               | Raise e => (Raise e, c)
               end
          else normalize_keys keys' c
      | _ => normalize_keys keys' c
      end
  end.

(** A value after normalization: a string that the pattern accepts
    becomes the identifier it spells. *)
Definition normal_value (v : value) : value :=
  match v with
  | VStr s => if PyStr.re_match_oid s then VOid s else v
  | _ => v
  end.

(** No string of the dict is accepted by the pattern only thanks to a
    trailing newline. *)
Definition exact_ids (c : dict) : bool :=
  forallb (fun kv => match kv.2 with
                     | VStr s => negb (PyStr.re_match_oid s)
                                 || (String.length s =? 24)%nat
                     | _ => true
                     end) c.

(** The strings of the dict that the pattern accepts are valid
    ObjectIds, equal to their own [str]. *)
Definition converts (c : dict) : Prop :=
  forall k s, dict_get k c = Some (VStr s) -> PyStr.re_match_oid s = true ->
              ObjectId_of_str s = Ok (VOid s).

(** [doc.content.get('_id')] for the records of a collection. *)
Definition rid_values (h : list dict) (c : Collection) : list value :=
  map (fun d => default VNone (dict_get rid (deref h (content d)))) (docs_of c).

(** The concatenation of the [str] of the values [vs]. *)
Fixpoint concat_strs (vs : list value) : string :=
  match vs with
  | [] => ""
  | v :: vs' => (py_str v ++ concat_strs vs')%string
  end.

(** ** Projection, as a function on dicts *)

(** The dict built by the comprehension of [__getitem__] from the
    record [c], starting from [acc]. *)
Fixpoint slice (fields : list string) (c acc : dict) : dict :=
  match fields with
  | [] => acc
  | field :: fields' =>
      match dict_get field c with
      | Some v => slice fields' c (dict_set field v acc)
      | None => slice fields' c acc
      end
  end.

(** Every record of the collection refers to an allocated dict. *)
Definition allocated (h : list dict) (c : Collection) : Prop :=
  Forall (fun d => content d < length h) (docs_of c).

(** ** Concrete inputs *)

(** A collection of one record [{_id: "abc", name: "x"}] built with the
    default key field, so that its identity is ["abc"]. *)
Definition one_world : world :=
  World [[("_id", VStr "abc"); ("name", VStr "x")]] 0 [] None.

Definition one_record : Collection :=
  mkCollection "c" [ODoc (mkDocument 0 "abc")] [].

(** The same with the one-character identity ["7"]. *)
Definition seven_world : world :=
  World [[("_id", VStr "7"); ("name", VStr "x")]] 0 [] None.

Definition seven_record : Collection :=
  mkCollection "c" [ODoc (mkDocument 0 "7")] [].

(** A raw record whose key fields [a] and [b] are both present, [a]
    holding an [int]. *)
Definition int_key_world : world :=
  World [[("a", VInt 1); ("b", VStr "x")]] 0 [] None.

(** 24 characters of [[a-f0-9]] followed by a newline. *)
Definition hex_newline : string :=
  ("0123456789abcdef01234567" ++ PyStr.newline)%string.

Definition hex_newline_world : world :=
  World [[("k", VStr hex_newline)]] 0 [] None.

(** A world in which two records of [audit_A] carry the identity ["1"],
    and the one record of [audit_B] has the same identity and content. *)
Definition audit_world : world :=
  World [[("_id", VStr "1")]; [("_id", VStr "1")]; [("_id", VStr "1")]] 0 [] None.

Definition audit_A : Collection :=
  mkCollection "a" [ODoc (mkDocument 0 "1"); ODoc (mkDocument 1 "1")] [].

Definition audit_B : Collection :=
  mkCollection "b" [ODoc (mkDocument 2 "1")] [].

(** Two collections keyed by [name], whose records have no [_id]. *)
Definition named_world : world :=
  World [[("name", VStr "x")]; [("name", VStr "y")]] 0 [] None.

Definition named_x : Collection := mkCollection "a" [ODoc (mkDocument 0 "x")] [].
Definition named_y : Collection := mkCollection "b" [ODoc (mkDocument 1 "y")] [].

(** The records [{_id: "1", name: "x", status: "active"}] and
    [{_id: "2", name: "y", status: "done"}] in a collection, and a second
    collection holding a copy of the first record with [name] in upper
    case. *)
Definition status_world : world :=
  World [[("_id", VStr "1"); ("name", VStr "x"); ("status", VStr "active")];
         [("_id", VStr "2"); ("name", VStr "y"); ("status", VStr "done")];
         [("_id", VStr "1"); ("name", VStr "X"); ("status", VStr "active")]]
        0 [] None.

(** ** Construction of a document, as a function on dicts *)

(** The identity that a single key field with value [v] gives. *)
Definition ident_of (v : value) : string :=
  match v with
  | VStr s => PyStr.replace_space s
  | _ => py_str v
  end.

(** The identifier that [ObjectId()] returns when the generator is in
    state [n]. *)
Definition minted (n : N) : value := VOid (PyStr.hex_digits 24 n "").

(** Lines 15-25 on the dict [c] with the generator in state [n]: the
    identity or the exception, the dict and the generator afterwards. *)
Definition derive_pure (ids : list string) (c : dict) (n : N)
  : result string * dict * N :=
  match ids with
  | [k] =>
      match dict_get k c with
      | Some v => (Ok (ident_of v), c, n)
      | None => (Ok (py_str (minted n)), dict_set rid (minted n) c, (n + 1)%N)
      end
  | _ =>
      (match str_join (present ids c) with
       | Ok s => Ok (PyStr.replace_space s)
       | Raise e => Raise e
       end, c, n)
  end.

(** The whole constructor on the dict [c]. *)
Definition init_pure (ids : list string) (c : dict) (n : N)
  : result string * dict * N :=
  match derive_pure ids c n with
  | (Ok i, c1, n1) =>
      match normalize_keys (dict_keys c1) c1 with
      | (Ok _, c2) => (Ok i, c2, n1)
      | (Raise e, c2) => (Raise e, c2, n1)
      end
  | (Raise e, c1, n1) => (Raise e, c1, n1)
  end.

(** No value of the dict is a string that the pattern accepts: the
    state in which normalization leaves a dict. *)
Definition settled (c : dict) : bool :=
  forallb (fun kv => match kv.2 with
                     | VStr s => negb (PyStr.re_match_oid s)
                     | _ => true
                     end) c.

(** ** [filter_by], in the words of its contract *)

(** The value [v] meets the condition. *)
Definition holds (cond : condition) (v : value) : bool :=
  match cond with
  | CLiteral value => bool_decide (v = value)
  | CCallable p => p v
  end.

(** The record [c] meets every condition: each field is present and its
    value meets the condition on it. *)
Definition meets (conditions : list (string * condition)) (c : dict) : bool :=
  forallb (fun kc => match dict_get kc.1 c with
                     | Some v => holds kc.2 v
                     | None => false
                     end) conditions.

(** The records of a collection that meet the conditions, in order. *)
Definition kept (h : list dict) (conditions : list (string * condition))
    (c : Collection) : list Document :=
  List.filter (fun d => meets conditions (deref h (content d))) (docs_of c).

(** ** Lookup by identity *)

(** The record that the map of [__getattr__] holds after the records
    [ds], starting from [found]. *)
Fixpoint last_with (key : string) (ds : list Document) (found : option Document)
  : option Document :=
  match ds with
  | [] => found
  | d :: ds' =>
      if String.eqb (id d) key then last_with key ds' (Some d)
      else last_with key ds' found
  end.

(** ** Re-keying *)

(** The identity that the key field [k] gives the record [c]. *)
Definition key_identity (k : string) (c : dict) : string :=
  match dict_get k c with
  | Some v => ident_of v
  | None => ""
  end.

(** The record is normalized and has the field [k]. *)
Definition keyed (k : string) (c : dict) : bool := settled c && dict_has k c.

(** ** Frames *)

(** From [w] to [w'] no dict below address [n] changed, no dict
    disappeared, and [not_in.json] was not written. *)
Definition unchanged_below (n : nat) (w w' : world) : Prop :=
  length (heap w) <= length (heap w')
  /\ (forall a, a < n -> heap w' !! a = heap w !! a)
  /\ not_in_json w' = not_in_json w.

(** Run in a world whose dicts below [n] are allocated, the computation
    [m] leaves them as they are, and what it returns satisfies [Q]. *)
Definition keeps {A} (n : nat) (Q : A -> Prop) (m : M A) : Prop :=
  forall w, n <= length (heap w) ->
            unchanged_below n w (m w).2
            /\ forall a, (m w).1 = Ok a -> Q a.

Definition anything {A} : A -> Prop := fun _ => True.

(** A new dict, allocated at or above [n]. *)
Definition new_dict (n : nat) (o : pyobj) : Prop :=
  exists a, o = ODict a /\ n <= a.

(** ** Equality *)

(** The record without the fields that [__eq__] skips. *)
Definition strip (c : dict) : dict :=
  List.filter (fun kv => negb (key_excluded kv.1)) c.

(** ** [resolve] *)

(** The dict [lookup] after the records [ds], or nothing when a record
    has no [_id]. *)
Fixpoint lookup_of (h : list dict) (ds : list Document)
    (acc : list (value * addr)) : option (list (value * addr)) :=
  match ds with
  | [] => Some acc
  | d :: ds' =>
      match dict_get rid (deref h (content d)) with
      | Some v => lookup_of h ds' (lookup_set v (content d) acc)
      | None => None
      end
  end.

(** ** Records fresh from the constructor *)

(** What [Document(record, ['_id'])] makes of the record [c]: the record
    [c'] has an [_id] from which the identity [i] is derived, the fields
    of [c] and [_id], and every value in normal form; apart from [_id],
    each value is the normal form of the one in [c]. *)
Definition built (c : dict) (i : string) (c' : dict) : Prop :=
  (exists v, dict_get rid c' = Some v /\ i = ident_of v)
  /\ (forall key, In key (dict_keys c') <-> In key (dict_keys c) \/ key = rid)
  /\ (forall key v, dict_get key c' = Some v -> normal_value v = v)
  /\ (forall key, key <> rid -> dict_get key c' = normal_value <$> dict_get key c).

(** ** [transform], on dicts *)

(** The value is not a string that the pattern accepts only thanks to a
    trailing newline. *)
Definition exact_value (v : value) : bool :=
  match v with
  | VStr s => negb (PyStr.re_match_oid s) || (String.length s =? 24)%nat
  | _ => true
  end.

(** The value that [transform] stores under [new_name] in the copy of
    the record [c]. *)
Definition transformed_value (column : string) (func : value -> value)
    (c : dict) : value :=
  match dict_get column c with
  | Some v => func v
  | None => VStr "UNAVAILABLE"
  end.

(** The copy with the new field, as it is handed to the constructor. *)
Definition with_field (new_name column : string) (func : value -> value)
    (c : dict) : dict :=
  dict_set new_name (transformed_value column func c) c.

(** The lines printed for the records that lack the column. *)
Definition missing_columns (h : list dict) (column : string)
    (ds : list Document) : list diag :=
  flat_map (fun d => match dict_get column (deref h (content d)) with
                     | Some _ => []
                     | None => [ColumnNotFound column (id d)]
                     end) ds.

(** The identity [i], read as a sequence of one-character field names,
    is not a single name and names no field of [c]. *)
Definition names_no_field (i : string) (c : dict) : bool :=
  negb (length (PyStr.chars i) =? 1)%nat
  && forallb (fun ch => negb (dict_has ch c)) (PyStr.chars i).

(** Documents with the empty identity on the [k] dicts allocated from
    address [n] on. *)
Definition rebuilt_at (n k : nat) : list pyobj :=
  map (fun a => ODoc (mkDocument a "")) (seq n k).

(** ** [resolve], on dicts *)

(** The dict that [lookup] holds under the value [v] after the records
    [ds]: that of the last record whose [_id] is [v], or [found] when
    there is none. *)
Fixpoint source_of (h : list dict) (ds : list Document) (v : value)
    (found : option addr) : option addr :=
  match ds with
  | [] => found
  | d :: ds' =>
      if bool_decide (dict_get rid (deref h (content d)) = Some v)
      then source_of h ds' v (Some (content d))
      else source_of h ds' v found
  end.

(** The value that replaces [v] in a field mapped to [key_other]: the
    value of [key_other] in the record of [others] whose [_id] is [v],
    [None] when that record lacks the field, and [v] itself when there
    is no such record. *)
Definition resolved_value (h : list dict) (others : list Document)
    (key_other : string) (v : value) : value :=
  match source_of h others v None with
  | Some oa => default VNone (dict_get key_other (deref h oa))
  | None => v
  end.

(** The field of the other collection that [mapping] gives for [key]. *)
Definition mapped (mapping : list (string * string)) (key : string)
  : option string :=
  snd <$> List.find (fun kv => String.eqb kv.1 key) mapping.

(** The value of [key] in the resolved copy of the record [c], before
    the constructor runs. *)
Definition resolved_field (h : list dict) (others : list Document)
    (mapping : list (string * string)) (c : dict) (key : string)
  : option value :=
  match mapped mapping key with
  | Some key_other => resolved_value h others key_other <$> dict_get key c
  | None => dict_get key c
  end.

(** Lines 210-217 on the copy [nc], the dicts of the other collection
    being those of the heap [h]. *)
Fixpoint resolve_pure (h : list dict) (lookup : list (value * addr))
    (mapping : list (string * string)) (nc : dict) : dict :=
  match mapping with
  | [] => nc
  | (key_self, key_other) :: rest =>
      resolve_pure h lookup rest
        (match dict_get key_self nc with
         | Some lookup_id =>
             match lookup_get lookup_id lookup with
             | Some oa =>
                 dict_set key_self (default VNone (dict_get key_other (deref h oa))) nc
             | None => nc
             end
         | None => nc
         end)
  end.

(** ** Further concrete inputs *)

(** The first two records of [status_world] as a collection. *)
Definition status_records : Collection :=
  mkCollection "tasks" [ODoc (mkDocument 0 "1"); ODoc (mkDocument 1 "2")] [].

(** Two records that differ only in fields that [==] skips, under the
    same identity. *)
Definition stamped_world : world :=
  World [[("_id", VStr "1"); ("name", VStr "x"); ("created_at", VStr "monday")];
         [("name", VStr "x"); ("_id", VStr "9")]] 0 [] None.

Definition stamped : Document := mkDocument 0 "1".
Definition unstamped : Document := mkDocument 1 "1".

(** A storage for examples: the live collections in order of creation,
    each with the references of the records inserted. *)
Definition shelf : Type := list (string * list addr).

#[export] Instance shelf_storage : Storage shelf := {|
  list_collection_names s := Done (map fst s);
  drop_collection n s :=
    (Done tt, List.filter (fun e => negb (String.eqb e.1 n)) s);
  create_collection n s := (Done tt, s ++ [(n, [])]);
  insert_many n contents s w :=
    (Done tt,
     map (fun e => if String.eqb e.1 n then (e.1, e.2 ++ contents) else e) s, w)
|}.

(** A database whose registry holds [one_record] and in which the
    collection ["tasks"] is live. *)
Definition small_db : Database shelf :=
  mkDatabase [("tasks", [7])] [one_record].

(** An order that refers to a customer by its [_id]. *)
Definition orders_world : world :=
  World [[("_id", VStr "o-1"); ("customer", VStr "c-1")];
         [("_id", VStr "c-1"); ("city", VStr "Oslo")]] 0 [] None.

Definition orders : Collection :=
  mkCollection "orders" [ODoc (mkDocument 0 "o-1")] [].

Definition customers : Collection :=
  mkCollection "customers" [ODoc (mkDocument 1 "c-1")] [].

(** A collection named like the live one, whose sequence holds a raw
    dict. *)
Definition raw_tasks : Collection := mkCollection "tasks" [ODict 0] [].

(** A record whose [_id] is still the string of 24 hexadecimal digits
    that spells its identifier. *)
Definition hex24 : string := "0123456789abcdef01234567".

Definition hex_world : world :=
  World [[("_id", VStr hex24); ("name", VStr "x")]] 0 [] None.

(** The one-character string [U+00E9], two bytes in the encoding, as
    the identity of a record. *)
Definition e_acute : string :=
  String (ascii_of_nat 195) (String (ascii_of_nat 169) EmptyString).

Definition accent_world : world :=
  World [[("_id", VStr e_acute); ("name", VStr "x")]] 0 [] None.

Definition accent_record : Collection :=
  mkCollection "c" [ODoc (mkDocument 0 e_acute)] [].

(** * Properties *)

(** ** The monad and the heap *)

Lemma emit_nil w : emit [] w = w.
Proof. destruct w; unfold emit; simpl. by rewrite app_nil_r. Qed.

Lemma emit_app out1 out2 w : emit out2 (emit out1 w) = emit (out1 ++ out2) w.
Proof. unfold emit; simpl. by rewrite app_assoc. Qed.

Lemma heap_emit out w : heap (emit out w) = heap w.
Proof. reflexivity. Qed.

Lemma bind_Ok {A B} (m : M A) (f : A -> M B) w a w' :
  m w = (Ok a, w') -> bind m f w = f a w'.
Proof. intros H. unfold bind. by rewrite H. Qed.

Lemma bind_Raise {A B} (m : M A) (f : A -> M B) w e w' :
  m w = (Raise e, w') -> bind m f w = (Raise e, w').
Proof. intros H. unfold bind. by rewrite H. Qed.

(** ** Dicts *)

Lemma dict_get_keys k d : In k (dict_keys d) <-> dict_get k d <> None.
Proof.
  induction d as [|[k' v] d IH]; simpl.
  - tauto.
  - destruct (String.eqb_spec k k') as [->|Hne].
    + split; [discriminate | auto].
    + rewrite <- IH. split; [intros [?|?]; [congruence | done] | auto].
Qed.

Lemma dict_get_In k d : In k (dict_keys d) -> exists v, dict_get k d = Some v.
Proof.
  intros H%dict_get_keys. destruct (dict_get k d); [eauto | done].
Qed.

(** ** [Document.__eq__] *)

Lemma eq_loop_trace si oi cs co keys w :
  eq_loop si oi cs co keys w
  = ((eq_trace si oi cs co keys).1, emit (eq_trace si oi cs co keys).2 w).
Proof.
  revert w. induction keys as [|key keys IH]; intros w; simpl.
  - by rewrite emit_nil.
  - destruct (key_excluded key); [apply IH |].
    destruct (dict_get key co) as [vo|].
    + destruct (dict_get key cs) as [vs|]; [| by rewrite emit_nil].
      destruct (same_text vs vo); [apply IH |]. reflexivity.
    + unfold bind, print; simpl. rewrite IH. simpl.
      f_equal. unfold emit; simpl. by rewrite <- app_assoc.
Qed.

Lemma Document_eq_trace L R w :
  Document_eq L (ODoc R) w
  = ((doc_eq_trace (heap w) L R).1, emit (doc_eq_trace (heap w) L R).2 w).
Proof. unfold Document_eq, bind, read; simpl. apply eq_loop_trace. Qed.

Lemma same_text_spec a b :
  same_text a b = true <-> PyStr.lower (py_str a) = PyStr.lower (py_str b).
Proof. unfold same_text. apply String.eqb_eq. Qed.

Lemma same_text_refl a : same_text a a = true.
Proof. by apply same_text_spec. Qed.

Section EqTrace.
Variables (si oi : string) (cs co : dict).

Lemma eq_trace_Ok keys :
  incl keys (dict_keys cs) ->
  exists b, (eq_trace si oi cs co keys).1 = Ok b.
Proof.
  induction keys as [|key keys IH]; intros Hin; simpl; [eauto |].
  assert (Hk : In key (dict_keys cs)) by (apply Hin; by left).
  assert (Hks : incl keys (dict_keys cs)) by (intros k ?; apply Hin; by right).
  destruct (key_excluded key); [auto |].
  destruct (dict_get key co) as [vo|]; simpl; [| auto].
  destruct (dict_get_In _ _ Hk) as [vs ->].
  destruct (same_text vs vo); simpl; eauto.
Qed.



End EqTrace.


Lemma eq_trace_same si oi cs keys :
  incl keys (dict_keys cs) ->
  eq_trace si oi cs cs keys = (Ok true, []).
Proof.
  induction keys as [|k keys IH]; intros Hin; simpl; [done |].
  assert (Hk : In k (dict_keys cs)) by (apply Hin; by left).
  rewrite IH by (intros ? ?; apply Hin; by right).
  destruct (dict_get_In _ _ Hk) as [v ->].
  rewrite same_text_refl. by destruct (key_excluded k).
Qed.


(** *** The contract in its own words *)











(** The strings ["Active"] and ["aCTIVE"] are equal up to case; ["a"]
    and ["b"], ["a"] and ["A "] are not.  A record against a copy that
    differs in case compares equal; against one that differs in a
    letter it does not. *)
Example equal_ignoring_case_runs :
  equal_ignoring_case "Active" "aCTIVE" = true
  /\ equal_ignoring_case "a" "b" = false
  /\ equal_ignoring_case "a" "A " = false
  /\ Document_eq (mkDocument 0 "1") (ODoc (mkDocument 2 "1")) status_world
     = (Ok true, status_world)
  /\ Document_eq (mkDocument 0 "1") (ODoc (mkDocument 1 "2")) status_world
     = (Ok false,
        emit [KeyDiffers "name" "1" (VStr "x") "2" (VStr "y")] status_world).
Proof. repeat split; reflexivity. Qed.

(** X4.  Comparing a document with itself returns [True] and prints nothing. *)
Lemma Document_eq_same (w : world) (d : Document) :
  Document_eq d (ODoc d) w = (Ok true, w).
Proof.
  rewrite Document_eq_trace. unfold doc_eq_trace.
  rewrite eq_trace_same by apply incl_refl. simpl. by rewrite emit_nil.
Qed.

(** ** [__contains__] *)

Lemma only_documents_map c :
  only_documents c -> documents c = map ODoc (docs_of c).
Proof.
  unfold only_documents, docs_of.
  induction (documents c) as [|o l IH]; [done |].
  destruct o; try discriminate. intros H.
  change (ODoc d :: l = ODoc d :: map ODoc (omap as_doc l)).
  f_equal. apply IH. exact H.
Qed.

Lemma skip_loop_trace d items w :
  skip_loop (ODoc d) items w = (Ok (excluded (heap w) items d), w).
Proof.
  unfold excluded. induction items as [|[key values] items IH]; simpl; [done |].
  unfold bind, ret, read; simpl.
  destruct (dict_get key (deref (heap w) (content d))) as [v|]; simpl; [| apply IH].
  destruct (value_in v values); simpl; [done | apply IH].
Qed.

Lemma same_id_trace d (l : list Document) w :
  same_id (ODoc d) (map ODoc l) w
  = (Ok (map ODoc (List.filter (fun d2 => String.eqb (id d) (id d2)) l)), w).
Proof.
  induction l as [|d2 l IH]; simpl; [done |].
  unfold bind, ret; simpl. unfold bind in IH. rewrite IH.
  by destruct (String.eqb (id d) (id d2)).
Qed.

Lemma doc_eq_trace_Ok h L R : exists b, (doc_eq_trace h L R).1 = Ok b.
Proof. apply eq_trace_Ok, incl_refl. Qed.

Lemma found_trace_Ok h A d : (found_trace h A d).1 = Ok (found h A d).
Proof.
  unfold found, found_trace.
  destruct (identity_equal A d) as [|d2 [|? ?]]; try done.
  by destruct (doc_eq_trace_Ok h d d2) as [b ->].
Qed.

Lemma singleton_eq_trace A d w :
  singleton_eq (ODoc d) (map ODoc (identity_equal A d)) w
  = (Ok (found (heap w) A d), emit (found_trace (heap w) A d).2 w).
Proof.
  rewrite <- found_trace_Ok. unfold found_trace.
  destruct (identity_equal A d) as [|d2 [|? ?]]; simpl;
    rewrite ?emit_nil; try done.
  apply Document_eq_trace.
Qed.

Lemma contains_loop_trace A B docs not_in w :
  only_documents A ->
  contains_loop A B (map ODoc docs) not_in w
  = (Ok (not_in ++ map content (audit_trace (heap w) A B docs).1),
     emit (audit_trace (heap w) A B docs).2 w).
Proof.
  intros HA%only_documents_map.
  revert not_in w. induction docs as [|d docs IH]; intros not_in w; simpl.
  - by rewrite app_nil_r, emit_nil.
  - rewrite (bind_Ok _ _ _ _ _ (skip_loop_trace d (skip_values B) w)).
    destruct (excluded (heap w) (skip_values B) d); [apply IH |].
    rewrite HA.
    rewrite (bind_Ok _ _ _ _ _ (same_id_trace d (docs_of A) w)).
    rewrite (bind_Ok _ _ _ _ _ (singleton_eq_trace A d w)).
    destruct (found (heap w) A d).
    + rewrite IH. simpl. by rewrite emit_app.
    + unfold bind at 1 2 3; simpl. rewrite IH. simpl.
      f_equal; [by rewrite <- app_assoc |].
      unfold emit; simpl. f_equal. by rewrite <- !app_assoc.
Qed.

(** *** Stringification of the failing records *)

Lemma dict_get_set k k' v c :
  dict_get k (dict_set k' v c) = if String.eqb k k' then Some v else dict_get k c.
Proof.
  induction c as [|[k0 v0] c IH]; simpl.
  - by destruct (String.eqb k k').
  - destruct (String.eqb_spec k' k0) as [->|Hne]; simpl.
    + by destruct (String.eqb k k0).
    + rewrite IH. destruct (String.eqb_spec k k0) as [->|]; [| done].
      destruct (String.eqb_spec k0 k'); congruence.
Qed.

Lemma dict_keys_set k v c :
  dict_get k c <> None -> dict_keys (dict_set k v c) = dict_keys c.
Proof.
  induction c as [|[k0 v0] c IH]; simpl; [done |].
  destruct (String.eqb k k0); simpl; [done |]. intros H. by rewrite IH.
Qed.

Lemma dict_set_same k v c : dict_get k c = Some v -> dict_set k v c = c.
Proof.
  induction c as [|[k0 v0] c IH]; simpl; [done |].
  destruct (String.eqb_spec k k0) as [->|]; [congruence |].
  intros H. by rewrite IH.
Qed.

Lemma stringify_keys_keys keys c :
  dict_keys (stringify_keys keys c) = dict_keys c.
Proof.
  revert c. induction keys as [|k keys IH]; intros c; simpl; [done |].
  destruct (dict_get k c) eqn:Hk; [| done].
  rewrite IH. apply dict_keys_set. congruence.
Qed.

Lemma stringify_keys_get keys c k :
  incl keys (dict_keys c) ->
  dict_get k (stringify_keys keys c)
  = if bool_decide (k ∈ keys)
    then (fun v => VStr (py_str v)) <$> dict_get k c
    else dict_get k c.
Proof.
  revert c. induction keys as [|k0 keys IH]; intros c Hin; simpl; [done |].
  assert (Hk0 : In k0 (dict_keys c)) by (apply Hin; by left).
  destruct (dict_get_In _ _ Hk0) as [v0 Hv0]. rewrite Hv0.
  rewrite IH.
  2:{ rewrite dict_keys_set by congruence. intros ? ?. apply Hin. by right. }
  rewrite dict_get_set.
  destruct (String.eqb_spec k k0) as [->|Hne].
  - rewrite Hv0. simpl.
    rewrite (bool_decide_eq_true_2 (k0 ∈ k0 :: keys)) by (apply elem_of_cons; auto).
    by destruct (bool_decide (k0 ∈ keys)).
  - destruct (bool_decide_reflect (k ∈ keys)) as [Hi|Hi].
    + by rewrite bool_decide_eq_true_2 by (apply elem_of_cons; auto).
    + rewrite bool_decide_eq_false_2; [done |].
      rewrite elem_of_cons. intros [?|?]; congruence.
Qed.

Lemma stringified_is_stringified c : is_stringified c (stringified c).
Proof.
  split; [apply stringify_keys_keys |].
  intros k. unfold stringified. rewrite stringify_keys_get by apply incl_refl.
  destruct (bool_decide_reflect (k ∈ dict_keys c)) as [Hi|Hi]; [done |].
  rewrite list_elem_of_In, dict_get_keys in Hi.
  destruct (dict_get k c); [by destruct Hi | done].
Qed.

Lemma stringify_keys_fixed keys c :
  (forall k, In k keys -> exists s, dict_get k c = Some (VStr s)) ->
  stringify_keys keys c = c.
Proof.
  induction keys as [|k keys IH]; intros H; simpl; [done |].
  destruct (H k (or_introl eq_refl)) as [s Hs]. rewrite Hs. simpl.
  rewrite (dict_set_same _ _ _ Hs). apply IH. intros; apply H; by right.
Qed.

Lemma stringified_idem c : stringified (stringified c) = stringified c.
Proof.
  unfold stringified at 1. apply stringify_keys_fixed. intros k Hk.
  destruct (stringified_is_stringified c) as [Hkeys Hget].
  rewrite Hkeys in Hk. rewrite Hget.
  destruct (dict_get_In _ _ Hk) as [v ->]. simpl. eauto.
Qed.

Lemma stringified_nil : stringified [] = [].
Proof. reflexivity. Qed.

Lemma with_heap_id w : with_heap (heap w) w = w.
Proof. by destruct w. Qed.

Lemma insert_deref (h : list dict) a : <[a := deref h a]> h = h.
Proof.
  unfold deref. destruct (h !! a) as [d|] eqn:Ha; simpl.
  - by apply list_insert_id.
  - apply list_insert_ge. by apply lookup_ge_None.
Qed.

Lemma deref_insert_eq (h : list dict) a d :
  deref (<[a := d]> h) a = if decide (a < length h) then d else [].
Proof.
  unfold deref. destruct (decide (a < length h)) as [Hlt|Hge].
  - by rewrite list_lookup_insert_eq.
  - rewrite list_insert_ge by lia.
    assert (Hn : h !! a = None) by (apply lookup_ge_None; lia).
    by rewrite Hn.
Qed.

Lemma deref_insert_ne (h : list dict) a b d :
  a <> b -> deref (<[a := d]> h) b = deref h b.
Proof. intros. unfold deref. by rewrite list_lookup_insert_ne. Qed.

Lemma deref_dangling (h : list dict) a : ~ a < length h -> deref h a = [].
Proof.
  intros. unfold deref.
  assert (Hn : h !! a = None) by (apply lookup_ge_None; lia).
  by rewrite Hn.
Qed.

Lemma stringify_key_loop a keys w :
  incl keys (dict_keys (deref (heap w) a)) ->
  forM (stringify_key a) keys w
  = (Ok tt, with_heap (<[a := stringify_keys keys (deref (heap w) a)]> (heap w)) w).
Proof.
  revert w. induction keys as [|k keys IH]; intros w Hin; simpl.
  - by rewrite insert_deref, with_heap_id.
  - assert (Hk : In k (dict_keys (deref (heap w) a))) by (apply Hin; by left).
    destruct (dict_get_In _ _ Hk) as [v Hv].
    assert (Hlt : a < length (heap w)).
    { destruct (decide (a < length (heap w))); [done |].
      rewrite deref_dangling in Hk by done. destruct Hk. }
    unfold bind at 1. unfold stringify_key at 1. unfold bind, read, write; simpl.
    rewrite Hv. simpl. rewrite IH; simpl.
    + rewrite deref_insert_eq, decide_True by done.
      by rewrite list_insert_insert_eq.
    + rewrite deref_insert_eq, decide_True by done.
      rewrite dict_keys_set by congruence. intros ? ?. apply Hin. by right.
Qed.

Lemma stringify_trace a w :
  stringify a w
  = (Ok tt, with_heap (<[a := stringified (deref (heap w) a)]> (heap w)) w).
Proof.
  unfold stringify, bind, read; simpl. apply stringify_key_loop, incl_refl.
Qed.

Lemma stringify_all_trace l w :
  forM stringify l w = (Ok tt, with_heap (stringify_heap l (heap w)) w).
Proof.
  revert w. induction l as [|a l IH]; intros w; simpl.
  - by rewrite with_heap_id.
  - unfold bind. rewrite stringify_trace, IH. reflexivity.
Qed.

Lemma stringify_heap_deref l h a :
  deref (stringify_heap l h) a
  = if bool_decide (a ∈ l) then stringified (deref h a) else deref h a.
Proof.
  revert h. induction l as [|x l IH]; intros h; simpl; [done |].
  unfold stringify_heap in *. rewrite IH.
  assert (Hx : deref (<[x := stringified (deref h x)]> h) x = stringified (deref h x)).
  { rewrite deref_insert_eq. destruct (decide (x < length h)); [done |].
    by rewrite deref_dangling. }
  destruct (decide (x = a)) as [->|Hne].
  - rewrite Hx, stringified_idem.
    rewrite (bool_decide_eq_true_2 (a ∈ a :: l)) by (apply elem_of_cons; auto).
    by destruct (bool_decide (a ∈ l)).
  - rewrite deref_insert_ne by done.
    destruct (bool_decide_reflect (a ∈ l)) as [Hi|Hi].
    + by rewrite bool_decide_eq_true_2 by (apply elem_of_cons; auto).
    + rewrite bool_decide_eq_false_2; [done |].
      rewrite elem_of_cons. intros [?|?]; congruence.
Qed.

Lemma read_all_trace l w : mapM read l w = (Ok (map (deref (heap w)) l), w).
Proof.
  induction l as [|a l IH]; simpl; [done |].
  unfold bind, read, ret in *; simpl. by rewrite IH.
Qed.

(** *** The audit *)

Lemma audit_trace_failing h A B docs :
  (audit_trace h A B docs).1 = List.filter (fails h A B) docs.
Proof.
  induction docs as [|d docs IH]; simpl; [done |].
  unfold fails at 1.
  destruct (excluded h (skip_values B) d); simpl; [done |].
  destruct (found h A d); simpl; [done | by rewrite IH].
Qed.

Lemma audit_trace_reports h A B docs d :
  In d docs -> fails h A B d = true ->
  In (DocumentNotIn (id d) (name B)) (audit_trace h A B docs).2.
Proof.
  induction docs as [|d0 docs IH]; simpl; [done |].
  intros Hin Hf.
  assert (Hrest : In d docs ->
                  In (DocumentNotIn (id d) (name B)) (audit_trace h A B docs).2)
    by auto.
  destruct (excluded h (skip_values B) d0) eqn:Hex.
  { destruct Hin as [->|Hin]; [| auto].
    unfold fails in Hf. by rewrite Hex in Hf. }
  destruct (found h A d0) eqn:Hfo; simpl.
  - destruct Hin as [->|Hin].
    + unfold fails in Hf. rewrite Hfo, andb_false_r in Hf. discriminate.
    + apply in_or_app. right. auto.
  - apply in_or_app. right. destruct Hin as [->|Hin]; [by left | right; auto].
Qed.

Lemma found_matched w A d : found (heap w) A d = true <-> matched w A d.
Proof.
  unfold found, found_trace, matched.
  destruct (identity_equal A d) as [|d2 [|d3 l]]; cbn [fst].
  - split; [discriminate | intros (? & ? & _); discriminate].
  - split.
    + intros H. exists d2. split; [done |].
      rewrite Document_eq_trace. simpl.
      destruct (doc_eq_trace (heap w) d d2).1 as [b|]; [by subst | done].
    + intros (d2' & [= <-] & H). rewrite Document_eq_trace in H. simpl in H.
      by rewrite H.
  - split; [discriminate | intros (? & ? & _); discriminate].
Qed.

Lemma fails_spec w A B d :
  fails (heap w) A B d = true
  <-> excluded (heap w) (skip_values B) d = false /\ ~ matched w A d.
Proof.
  unfold fails. rewrite andb_true_iff, !negb_true_iff, <- found_matched.
  by rewrite not_true_iff_false.
Qed.

Lemma artifact_stringified h (ds : list Document) :
  Forall2 (fun d obj => is_stringified (deref h (content d)) obj)
          ds (map (deref (stringify_heap (map content ds) h)) (map content ds)).
Proof.
  rewrite map_map.
  change (map (fun d => deref (stringify_heap (map content ds) h) (content d)) ds)
    with ((fun d => deref (stringify_heap (map content ds) h) (content d)) <$> ds).
  rewrite Forall2_fmap_r. apply Forall_Forall2_diag, Forall_forall.
  intros d Hd. unfold compose. rewrite stringify_heap_deref, bool_decide_eq_true_2.
  - apply stringified_is_stringified.
  - apply list_elem_of_In, in_map. by apply list_elem_of_In.
Qed.

(** C1, as the code has it.  For collections [A] (self) and [B] (item)
    whose sequences hold Documents, [B in A] returns a boolean [b]:
    - [b] is true exactly when every record of [B] that the skip rules
      of [B] do not exclude is matched in [A], that is, exactly one
      record of [A] has its identity and the record of [B] [==] it;
    - for every failing record a line [DocumentNotIn] is printed;
    - when [b] is true neither the heap nor [not_in.json] changes;
    - when [b] is false, [not_in.json] holds, in order, the contents of
      the failing records with every value replaced by its [str]; the
      dicts of the failing records are themselves overwritten with
      these contents, and no other dict changes. *)
Theorem contains_audit (w : world) (A B : Collection) :
  only_documents A -> only_documents B ->
  exists (b : bool) (w' : world),
    Collection_contains A B w = (Ok b, w')
    /\ (b = true <->
        forall d, In d (docs_of B) ->
                  excluded (heap w) (skip_values B) d = false -> matched w A d)
    /\ (forall d, In d (docs_of B) ->
                  excluded (heap w) (skip_values B) d = false ->
                  ~ matched w A d ->
                  In (DocumentNotIn (id d) (name B)) (stdout w'))
    /\ (b = true -> heap w' = heap w /\ not_in_json w' = not_in_json w)
    /\ (b = false ->
        exists objs,
          not_in_json w' = Some objs
          /\ Forall2 (fun d obj => is_stringified (deref (heap w) (content d)) obj)
                     (List.filter (fails (heap w) A B) (docs_of B)) objs
          /\ forall a,
               deref (heap w') a
               = if bool_decide
                      (a ∈ map content (List.filter (fails (heap w) A B) (docs_of B)))
                 then stringified (deref (heap w) a)
                 else deref (heap w) a).
Proof.
  intros HA HB.
  pose proof (only_documents_map _ HB) as HBm.
  unfold Collection_contains. rewrite HBm.
  rewrite (bind_Ok _ _ _ _ _ (contains_loop_trace A B (docs_of B) [] w HA)).
  cbn [app]. rewrite audit_trace_failing.
  set (out := (audit_trace (heap w) A B (docs_of B)).2).
  assert (Hrep : forall d, In d (docs_of B) ->
                   excluded (heap w) (skip_values B) d = false ->
                   ~ matched w A d -> In (DocumentNotIn (id d) (name B)) out).
  { intros d Hin Hex Hm. apply audit_trace_reports; [done |].
    by apply fails_spec. }
  assert (Hall : List.filter (fails (heap w) A B) (docs_of B) = [] <->
                 forall d, In d (docs_of B) ->
                           excluded (heap w) (skip_values B) d = false ->
                           matched w A d).
  { split.
    - intros Hnil d Hin Hex.
      destruct (found (heap w) A d) eqn:Hfo; [by apply found_matched |].
      assert (Hd : In d (List.filter (fails (heap w) A B) (docs_of B))).
      { apply filter_In. split; [done |]. unfold fails. by rewrite Hex, Hfo. }
      rewrite Hnil in Hd. destruct Hd.
    - intros H.
      destruct (List.filter (fails (heap w) A B) (docs_of B)) as [|d l] eqn:Hf;
        [done |].
      assert (Hd : In d (List.filter (fails (heap w) A B) (docs_of B)))
        by (rewrite Hf; by left).
      apply filter_In in Hd as [Hin Hfail].
      apply fails_spec in Hfail as [Hex Hm]. destruct Hm. by apply H. }
  revert Hall.
  generalize (artifact_stringified (heap w)
                (List.filter (fails (heap w) A B) (docs_of B))).
  generalize (List.filter (fails (heap w) A B) (docs_of B)) as failing.
  intros [|d0 rest] Hart Hall.
  - exists true, (emit out w). cbn [map]. repeat split; try done.
    + intros _. by apply Hall.
    + intros d Hin Hex Hm. apply in_or_app. right. by apply Hrep.
  - exists false. eexists. split.
    { cbn [map].
      rewrite (bind_Ok _ _ _ _ _ (stringify_all_trace _ (emit out w))).
      rewrite (bind_Ok _ _ _ _ _ (read_all_trace _ _)).
      unfold bind, dump_not_in, ret. reflexivity. }
    cbn [heap with_heap emit not_in_json stdout].
    split; [| split; [| split]].
    + split; [discriminate |]. intros H. apply Hall in H. discriminate.
    + intros d Hin Hex Hm. apply in_or_app. right. by apply Hrep.
    + discriminate.
    + intros _. eexists. split; [reflexivity |]. split; [exact Hart |].
      intros a. apply (stringify_heap_deref (map content (d0 :: rest))).
Qed.

(** C1, witness: the audit theorem at [audit_A], [audit_B]. *)
Lemma contains_audit_witness :
  only_documents audit_A /\ only_documents audit_B
  /\ exists (b : bool) (w' : world),
       Collection_contains audit_A audit_B audit_world = (Ok b, w')
       /\ (b = true <->
           forall d, In d (docs_of audit_B) ->
                     excluded (heap audit_world) (skip_values audit_B) d = false ->
                     matched audit_world audit_A d).
Proof.
  split; [reflexivity |]. split; [reflexivity |].
  destruct (contains_audit audit_world audit_A audit_B eq_refl eq_refl)
    as (b & w' & Hrun & Hiff & _).
  exists b, w'. split; [exact Hrun | exact Hiff].
Defined.

(** [audit_A] and [audit_B] are what the constructor builds from raw
    records with the default key field. *)
Example audit_input_constructed :
  (let! a := Collection_init "a" (SrcList [ODict 0; ODict 1]) default_ids [] in
   let! b := Collection_init "b" (SrcList [ODict 2]) default_ids [] in
   ret (a, b)) audit_world
  = (Ok (audit_A, audit_B), audit_world).
Proof. reflexivity. Qed.

(** C1, counterexample.  The statement "[B in A] is true if and only if
    every record of [B] that is not excluded has an identity-equal
    record in [A] that compares equal" fails at [audit_A], [audit_B]:
    the one record of [B] has two such records in [A], and the audit
    returns [False]. *)
Lemma contains_not_existence :
  ~ ((Collection_contains audit_A audit_B audit_world).1 = Ok true
     <-> forall d, In d (docs_of audit_B) ->
                   excluded (heap audit_world) (skip_values audit_B) d = false ->
                   has_equal audit_world audit_A d).
Proof.
  intros [_ H].
  assert (Hrun : (Collection_contains audit_A audit_B audit_world).1 = Ok false)
    by reflexivity.
  rewrite Hrun in H. enough (Ok false = Ok true) by discriminate.
  apply H. intros d [<-|[]] _.
  exists (mkDocument 0 "1"). split; [by left |]. split; reflexivity.
Qed.

(** ** The constructor on a list *)

(** C3.  [Collection(name, [], ...)] raises [IndexError]: the type test
    reads [docs[0]] whatever the length of [docs].  The methods that
    wrap their result with this constructor inherit the failure on a
    collection without records: [self[fields]] and
    [self.remove_ids()]. *)
Theorem Collection_init_empty_list (collection : string) (ids : list string)
    (skip : list (string * list value)) (w : world) :
  Collection_init collection (SrcList []) ids skip w = (Raise IndexError, w)
  /\ (forall fields,
        Collection_getitem (mkCollection collection [] skip) (FList fields) w
        = (Raise IndexError, w))
  /\ remove_ids (mkCollection collection [] skip) false w = (Raise IndexError, w).
Proof.
  split; [reflexivity |]. split; [intros fields |]; reflexivity.
Qed.

(** With [None] the same call returns the empty collection. *)
Lemma Collection_init_None collection ids skip w :
  Collection_init collection SrcNone ids skip w
  = (Ok (mkCollection collection [] skip), w).
Proof. reflexivity. Qed.

(** ** Identity derivation *)

(** C4.  With the two key fields [a] and [b] both present and [a]
    holding the [int] 1, [Document(record, ["a", "b"])] raises
    [TypeError] (from [str.join]) and derives no identity; with the
    single key field [a] the same record gets the identity ["1"]. *)
Theorem Document_init_multi_key_int :
  Document_init (ODict 0) ["a"; "b"] int_key_world = (Raise TypeError, int_key_world)
  /\ Document_init (ODict 0) ["a"] int_key_world
     = (Ok (mkDocument 0 "1"), int_key_world).
Proof. split; reflexivity. Qed.

(** ** Identifier normalization *)

(** C9.  The string of 24 hexadecimal digits followed by a newline is
    accepted by the pattern [^[a-f0-9]{24}$], is not a valid ObjectId,
    and makes the normalization loop, hence the constructor, raise
    [InvalidId]; the field is left as it was. *)
Theorem normalize_trailing_newline :
  PyStr.re_match_oid hex_newline = true
  /\ ObjectId_of_str hex_newline = Raise (InvalidId hex_newline)
  /\ normalize 0 hex_newline_world = (Raise (InvalidId hex_newline), hex_newline_world)
  /\ Document_init (ODict 0) ["k"] hex_newline_world
     = (Raise (InvalidId hex_newline), hex_newline_world).
Proof. repeat split; reflexivity. Qed.

(** ** Operations that rebuild records *)

(** C2.  [transform] and [resolve] pass [doc.id] as the key-field list
    of the rebuilt record, and the constructor derives a new identity
    from it: the record with identity ["abc"] is rebuilt with identity
    [""] (no field is named [a], [b] or [c]); the record with the
    one-character identity ["7"] is rebuilt with a freshly minted
    identifier, which also replaces its [_id]. *)
Theorem rebuild_rederives_identity :
  (exists c' w',
      transform one_record "copy" "name" (fun v => v) false one_world
      = (Ok (one_record, Some c'), w')
      /\ map id (docs_of one_record) = ["abc"]
      /\ map id (docs_of c') = [""])
  /\ (exists c' w',
      resolve one_record one_record [("name", "name")] false one_world
      = (Ok (one_record, Some c'), w')
      /\ map id (docs_of c') = [""])
  /\ (exists c' w',
      transform seven_record "copy" "name" (fun v => v) false seven_world
      = (Ok (seven_record, Some c'), w')
      /\ map id (docs_of seven_record) = ["7"]
      /\ map id (docs_of c') = ["000000000000000000000000"]
      /\ map (fun d => dict_get rid (deref (heap w') (content d))) (docs_of c')
         = [Some (VOid "000000000000000000000000")]).
Proof.
  split; [| split].
  - eexists _, _. split; [reflexivity |]. split; reflexivity.
  - eexists _, _. split; [reflexivity |]. reflexivity.
  - eexists _, _. split; [reflexivity |]. repeat split; reflexivity.
Qed.

(** C6.  Adding two collections without records raises [IndexError]
    instead of returning the empty collection named
    [a.name + "_and_" + b.name]: no identifier is shared (neither side
    has any), and the constructor is called on the empty list. *)
Theorem Collection_add_empty (n1 n2 : string)
    (s1 s2 : list (string * list value)) (w : world) :
  rid_values (heap w) (mkCollection n1 [] s1) = []
  /\ rid_values (heap w) (mkCollection n2 [] s2) = []
  /\ Collection_add (mkCollection n1 [] s1) (IsCollection (mkCollection n2 [] s2)) w
     = (Raise IndexError, w).
Proof. repeat split; reflexivity. Qed.

(** C7.  [self[fields]] raises the [ValueError] for a [fields] that is
    not a list.  Projecting the record [{_id: "abc", name: "x"}] on
    [["name"]] gives a record with the fields [name] and [_id]: the
    constructor finds no [_id] in the sliced dict and stores a minted
    one, so a field outside [fields] appears in the result. *)
Theorem Collection_getitem_adds_id :
  (forall self w,
      Collection_getitem self FNotList w = (Raise (ValueError FieldsNotList), w))
  /\ exists c' w',
      Collection_getitem one_record (FList ["name"]) one_world = (Ok c', w')
      /\ map (fun d => deref (heap w') (content d)) (docs_of c')
         = [[("name", VStr "x"); ("_id", VOid "000000000000000000000000")]]
      /\ ~ In "_id" ["name"].
Proof.
  split; [reflexivity |].
  eexists _, _. split; [reflexivity |]. split; [reflexivity |].
  intros [H|[]]. discriminate.
Qed.

(** C8.  [remove_ids(in_place=False)] on the collection of the record
    [{_id: "abc", name: "x"}] returns a new collection and changes the
    original record: its content, which was [{_id: "abc", name: "x"}],
    is [{name: "x", _id: ObjectId(...)}] afterwards, the popped [_id]
    replaced by the identifier minted for the new record, which shares
    the dict. *)
Theorem remove_ids_copy_mutates_original :
  exists c' w',
    remove_ids one_record false one_world = (Ok (one_record, Some c'), w')
    /\ map (fun d => deref (heap one_world) (content d)) (docs_of one_record)
       = [[("_id", VStr "abc"); ("name", VStr "x")]]
    /\ map (fun d => deref (heap w') (content d)) (docs_of one_record)
       = [[("name", VStr "x"); ("_id", VOid "000000000000000000000000")]]
    /\ map content (docs_of c') = map content (docs_of one_record).
Proof.
  eexists _, _. split; [reflexivity |]. repeat split; reflexivity.
Qed.

(** C10.  After [remove_ids(in_place=True)] the sequence of the
    collection holds the raw dict of the record, not a Document, and
    the next operation that reads an element's [content] or [id]
    raises [AttributeError]. *)
Theorem remove_ids_in_place_leaves_dicts :
  exists self' w',
    remove_ids one_record true one_world = (Ok (self', None), w')
    /\ only_documents one_record
    /\ documents self' = [ODict 0]
    /\ ~ only_documents self'
    /\ (Collection_contains self' self' w').1 = Raise AttributeError
    /\ (Collection_getitem self' (FList ["name"]) w').1 = Raise AttributeError
    /\ (Collection_add self' (IsCollection self') w').1 = Raise AttributeError.
Proof.
  eexists _, _. split; [reflexivity |].
  split; [reflexivity |]. split; [reflexivity |].
  split; [discriminate |]. repeat split; reflexivity.
Qed.

(** ** Runs on small inputs *)

(** The audit of a one-record collection against a collection that holds
    a record with the same identity and the same content up to case:
    true, nothing printed, nothing written. *)
Example contains_subset :
  (let! a := Collection_init "A" (SrcList [ODict 0; ODict 1]) default_ids [] in
   let! b := Collection_init "B" (SrcList [ODict 2]) default_ids [] in
   Collection_contains a b) status_world
  = (Ok true, status_world).
Proof. reflexivity. Qed.

(** The other way round the second record has no counterpart: false, one
    line printed, and the record written out with its values as strings. *)
Example contains_missing :
  (let! a := Collection_init "A" (SrcList [ODict 0; ODict 1]) default_ids [] in
   let! b := Collection_init "B" (SrcList [ODict 2]) default_ids [] in
   Collection_contains b a) status_world
  = (Ok false,
     World (heap status_world) 0 [DocumentNotIn "2" "A"]
           (Some [[("_id", VStr "2"); ("name", VStr "y"); ("status", VStr "done")]])).
Proof. reflexivity. Qed.

(** A skip rule on [status] excludes that record, and the audit passes. *)
Example contains_skipped :
  (let! a := Collection_init "A" (SrcList [ODict 0; ODict 1]) default_ids
                             [("status", [VStr "done"])] in
   let! b := Collection_init "B" (SrcList [ODict 2]) default_ids [] in
   Collection_contains b a) status_world
  = (Ok true, status_world).
Proof. reflexivity. Qed.

(** Identity from one key field: spaces become underscores in a string,
    another value is rendered with [str]; an absent key field gets a
    minted identifier, stored under [_id]. *)
Example Document_init_single_key :
  Document_init (ODict 0) ["name"]
    (World [[("name", VStr "a b c"); ("n", VInt (-12))]] 0 [] None)
  = (Ok (mkDocument 0 "a_b_c"),
     World [[("name", VStr "a b c"); ("n", VInt (-12))]] 0 [] None)
  /\ Document_init (ODict 0) ["n"]
       (World [[("name", VStr "a b c"); ("n", VInt (-12))]] 0 [] None)
     = (Ok (mkDocument 0 "-12"),
        World [[("name", VStr "a b c"); ("n", VInt (-12))]] 0 [] None)
  /\ Document_init (ODict 0) ["_id"]
       (World [[("name", VStr "a b c")]] 10 [] None)
     = (Ok (mkDocument 0 "00000000000000000000000a"),
        World [[("name", VStr "a b c"); ("_id", VOid "00000000000000000000000a")]]
              11 [] None).
Proof. repeat split; reflexivity. Qed.

(** ** Identifier normalization on well-formed strings *)

Lemma class_run_length n s rest :
  PyStr.class_run n s = Some rest -> String.length s = n + String.length rest.
Proof.
  revert s. induction n as [|n IH]; intros s; simpl.
  - by intros [= ->].
  - destruct s as [|c s]; [done |].
    destruct (PyStr.in_class c); [| done]. intros H%IH. simpl. lia.
Qed.

Lemma class_run_all n s :
  PyStr.class_run n s = Some "" -> PyStr.all_chars PyStr.in_class s = true.
Proof.
  revert s. induction n as [|n IH]; intros s; simpl.
  - by intros [= ->].
  - destruct s as [|c s]; [done |].
    destruct (PyStr.in_class c) eqn:Hc; [| done]. intros H%IH. simpl.
    by rewrite Hc, H.
Qed.

Lemma lower_char_in_class c : PyStr.in_class c = true -> PyStr.lower_char c = c.
Proof.
  unfold PyStr.in_class, PyStr.is_af, PyStr.is_digit, PyStr.lower_char.
  intros H.
  destruct ((65 <=? nat_of_ascii c)%nat && (nat_of_ascii c <=? 90)%nat) eqn:Hup;
    [| done].
  apply andb_true_iff in Hup as [H1 H2]. apply Nat.leb_le in H1, H2.
  apply orb_true_iff in H as [H|H]; apply andb_true_iff in H as [H3 H4];
    apply Nat.leb_le in H3, H4; lia.
Qed.

Lemma lower_all_in_class s :
  PyStr.all_chars PyStr.in_class s = true -> PyStr.lower s = s.
Proof.
  induction s as [|c s IH]; simpl; [done |].
  intros [Hc Hs]%andb_true_iff. unfold PyStr.lower in *. simpl.
  by rewrite lower_char_in_class, IH.
Qed.

Lemma all_chars_impl (p q : ascii -> bool) s :
  (forall c, p c = true -> q c = true) ->
  PyStr.all_chars p s = true -> PyStr.all_chars q s = true.
Proof.
  intros Hpq. induction s as [|c s IH]; simpl; [done |].
  intros [Hc Hs]%andb_true_iff. by rewrite (Hpq _ Hc), IH.
Qed.

(** A string of exactly 24 characters that the pattern accepts is a
    valid ObjectId, and is its own [str]. *)
Lemma ObjectId_of_match s :
  PyStr.re_match_oid s = true -> String.length s = 24 ->
  ObjectId_of_str s = Ok (VOid s).
Proof.
  unfold PyStr.re_match_oid, ObjectId_of_str. intros Hm Hlen.
  destruct (PyStr.class_run 24 s) as [rest|] eqn:Hrun; [| done].
  pose proof (class_run_length _ _ _ Hrun) as Hl.
  assert (rest = "") as -> by (destruct rest; [done | simpl in Hl; lia]).
  pose proof (class_run_all _ _ Hrun) as Hall.
  rewrite Hlen. simpl.
  rewrite (all_chars_impl PyStr.in_class _ s); [| | done].
  - by rewrite lower_all_in_class.
  - intros c. unfold PyStr.in_class.
    intros [->| ->]%orb_true_iff; by rewrite ?orb_true_r.
Qed.

Lemma normalize_key_loop a keys w :
  incl keys (dict_keys (deref (heap w) a)) ->
  forM (normalize_key a) keys w
  = ((normalize_keys keys (deref (heap w) a)).1,
     with_heap (<[a := (normalize_keys keys (deref (heap w) a)).2]> (heap w)) w).
Proof.
  revert w. induction keys as [|k keys IH]; intros w Hin; simpl.
  - by rewrite insert_deref, with_heap_id.
  - assert (Hk : In k (dict_keys (deref (heap w) a))) by (apply Hin; by left).
    assert (Hks : incl keys (dict_keys (deref (heap w) a)))
      by (intros ? ?; apply Hin; by right).
    assert (Hlt : a < length (heap w)).
    { destruct (decide (a < length (heap w))); [done |].
      rewrite deref_dangling in Hk by done. destruct Hk. }
    destruct (dict_get_In _ _ Hk) as [v Hv].
    unfold bind at 1. unfold normalize_key at 1. unfold bind at 1. unfold read at 1.
    cbn [fst snd]. rewrite Hv.
    destruct v as [|s|z|o]; try (unfold ret at 1; by apply IH).
    destruct (PyStr.re_match_oid s); [| unfold ret at 1; by apply IH].
    unfold bind, lift, write. destruct (ObjectId_of_str s) as [o|e]; cbn [fst snd].
    + rewrite IH; cbn [heap].
      * rewrite deref_insert_eq, decide_True by done.
        by rewrite list_insert_insert_eq.
      * rewrite deref_insert_eq, decide_True by done.
        by rewrite dict_keys_set by congruence.
    + by rewrite insert_deref, with_heap_id.
Qed.

Lemma normalize_trace a w :
  normalize a w
  = ((normalize_keys (dict_keys (deref (heap w) a)) (deref (heap w) a)).1,
     with_heap (<[a := (normalize_keys (dict_keys (deref (heap w) a))
                                       (deref (heap w) a)).2]> (heap w)) w).
Proof.
  unfold normalize, bind, read; cbn [fst snd]. apply normalize_key_loop, incl_refl.
Qed.

Lemma normal_value_idem v : normal_value (normal_value v) = normal_value v.
Proof.
  destruct v as [|s|z|o]; simpl; try done.
  destruct (PyStr.re_match_oid s) eqn:Hm; simpl; [done | by rewrite Hm].
Qed.

Lemma exact_ids_get c k s :
  exact_ids c = true -> dict_get k c = Some (VStr s) ->
  PyStr.re_match_oid s = true -> ObjectId_of_str s = Ok (VOid s).
Proof.
  unfold exact_ids. induction c as [|[k0 v0] c IH]; simpl; [done |].
  intros [H0 Hc]%andb_true_iff.
  destruct (String.eqb k k0); [| by apply IH].
  intros [= ->] Hm. rewrite Hm in H0. simpl in H0.
  apply ObjectId_of_match; [done | by apply Nat.eqb_eq].
Qed.

Lemma exact_ids_converts c : exact_ids c = true -> converts c.
Proof. intros H k s. by apply exact_ids_get. Qed.

Lemma converts_set c k o :
  converts c -> converts (dict_set k (VOid o) c).
Proof.
  intros Hc k' s. rewrite dict_get_set.
  destruct (String.eqb k' k); [done | apply Hc].
Qed.

Lemma normalize_keys_spec keys c :
  converts c -> incl keys (dict_keys c) ->
  exists c',
    normalize_keys keys c = (Ok tt, c')
    /\ dict_keys c' = dict_keys c
    /\ forall k, dict_get k c'
                 = if bool_decide (k ∈ keys)
                   then normal_value <$> dict_get k c
                   else dict_get k c.
Proof.
  revert c. induction keys as [|k0 keys IH]; intros c Hc Hin; simpl.
  { by exists c. }
  assert (Hk0 : In k0 (dict_keys c)) by (apply Hin; by left).
  assert (Hks : incl keys (dict_keys c)) by (intros ? ?; apply Hin; by right).
  destruct (dict_get_In _ _ Hk0) as [v0 Hv0]. rewrite Hv0.
  assert (Hsame : normal_value v0 = v0 ->
    exists c', normalize_keys keys c = (Ok tt, c')
      /\ dict_keys c' = dict_keys c
      /\ forall k, dict_get k c'
                   = if bool_decide (k ∈ k0 :: keys)
                     then normal_value <$> dict_get k c
                     else dict_get k c).
  { intros Hnv. destruct (IH c Hc Hks) as (c' & Hrun & Hkeys & Hget).
    exists c'. split; [done |]. split; [done |]. intros k. rewrite Hget.
    destruct (decide (k = k0)) as [->|Hne].
    - rewrite (bool_decide_eq_true_2 (k0 ∈ k0 :: keys)) by (apply elem_of_cons; auto).
      rewrite Hv0. simpl. rewrite Hnv. by destruct (bool_decide (k0 ∈ keys)).
    - destruct (bool_decide_reflect (k ∈ keys)) as [Hi|Hi].
      + by rewrite bool_decide_eq_true_2 by (apply elem_of_cons; auto).
      + rewrite bool_decide_eq_false_2; [done |].
        rewrite elem_of_cons. intros [?|?]; congruence. }
  destruct v0 as [|s|z|o]; try (by apply Hsame).
  destruct (PyStr.re_match_oid s) eqn:Hm; [| apply Hsame; simpl; by rewrite Hm].
  rewrite (Hc _ _ Hv0 Hm).
  destruct (IH (dict_set k0 (VOid s) c)) as (c' & Hrun & Hkeys & Hget).
  { by apply converts_set. }
  { by rewrite dict_keys_set by congruence. }
  exists c'. split; [done |]. split.
  { rewrite Hkeys. apply dict_keys_set. congruence. }
  intros k. rewrite Hget, dict_get_set.
  destruct (String.eqb_spec k k0) as [->|Hne].
  - rewrite (bool_decide_eq_true_2 (k0 ∈ k0 :: keys)) by (apply elem_of_cons; auto).
    rewrite Hv0. simpl. rewrite Hm. by destruct (bool_decide (k0 ∈ keys)).
  - destruct (bool_decide_reflect (k ∈ keys)) as [Hi|Hi].
    + by rewrite bool_decide_eq_true_2 by (apply elem_of_cons; auto).
    + rewrite bool_decide_eq_false_2; [done |].
      rewrite elem_of_cons. intros [?|?]; congruence.
Qed.

Lemma normalize_keys_fixed keys c :
  (forall k v, In k keys -> dict_get k c = Some v -> normal_value v = v) ->
  normalize_keys keys c = (Ok tt, c).
Proof.
  induction keys as [|k keys IH]; intros H; simpl; [done |].
  assert (IH' : normalize_keys keys c = (Ok tt, c))
    by (apply IH; intros; eapply H; [by right | done]).
  destruct (dict_get k c) as [v|] eqn:Hv; [| done].
  specialize (H k v (or_introl eq_refl) Hv).
  destruct v as [|s|z|o]; try done.
  simpl in H. destruct (PyStr.re_match_oid s); [done | done].
Qed.

(** X2.  Normalization on the strings that the pattern accepts exactly.  When
    no string of the record is accepted only thanks to a trailing newline,
    normalization completes; it keeps the keys and their order, replaces
    the value of every field by its normal form (an accepted string by
    the identifier it spells, any other value by itself), and running it
    again changes nothing. *)
Theorem normalize_replaces_and_idempotent (w : world) (a : addr) :
  exact_ids (deref (heap w) a) = true ->
  exists c',
    normalize a w = (Ok tt, with_heap (<[a := c']> (heap w)) w)
    /\ dict_keys c' = dict_keys (deref (heap w) a)
    /\ (forall k, dict_get k c' = normal_value <$> dict_get k (deref (heap w) a))
    /\ normalize a (with_heap (<[a := c']> (heap w)) w)
       = (Ok tt, with_heap (<[a := c']> (heap w)) w).
Proof.
  intros Hex%exact_ids_converts.
  destruct (normalize_keys_spec (dict_keys (deref (heap w) a)) _ Hex (incl_refl _))
    as (c' & Hrun & Hkeys & Hget).
  assert (Hget' : forall k, dict_get k c' = normal_value <$> dict_get k (deref (heap w) a)).
  { intros k. rewrite Hget.
    destruct (bool_decide_reflect (k ∈ dict_keys (deref (heap w) a))) as [Hi|Hi]; [done |].
    rewrite list_elem_of_In, dict_get_keys in Hi.
    destruct (dict_get k (deref (heap w) a)); [by destruct Hi | done]. }
  exists c'. split; [| split; [done | split; [done |]]].
  - rewrite normalize_trace. by rewrite Hrun.
  - rewrite normalize_trace. cbn [heap with_heap].
    destruct (decide (a < length (heap w))) as [Hlt|Hge].
    + rewrite deref_insert_eq, decide_True by done.
      rewrite normalize_keys_fixed.
      * cbn [fst snd]. by rewrite list_insert_insert_eq.
      * intros k v _. rewrite Hget'.
        destruct (dict_get k (deref (heap w) a)); [| done].
        intros [= <-]. apply normal_value_idem.
    + rewrite deref_insert_eq, decide_False by done. simpl.
      rewrite (list_insert_ge (heap w) a c') by lia.
      by rewrite (list_insert_ge (heap w) a []) by lia.
Qed.

(** ** Identity from several key fields *)

Lemma str_join_spec vs :
  str_join vs = if forallb is_str vs then Ok (concat_strs vs) else Raise TypeError.
Proof.
  induction vs as [|v vs IH]; simpl; [done |].
  destruct v as [|s|z|o]; simpl; try done.
  rewrite IH. by destruct (forallb is_str vs).
Qed.

(** X3.  With a key-field list that is not a singleton, the identity is the
    concatenation of the present key fields when all of them hold
    strings, and the constructor raises [TypeError] otherwise. *)
Lemma derive_id_multi_key (w : world) (a : addr) (ids : list string) :
  length ids <> 1 ->
  derive_id a ids w
  = (if forallb is_str (present ids (deref (heap w) a))
     then Ok (PyStr.replace_space (concat_strs (present ids (deref (heap w) a))))
     else Raise TypeError, w).
Proof.
  intros Hlen. unfold derive_id.
  destruct ids as [|k [|k' ids]]; [| done |];
    unfold bind, read, lift, ret; cbn [fst snd]; rewrite str_join_spec;
    by destruct (forallb is_str _).
Qed.

(** ** [__add__] on collections of Documents *)

Lemma get_rid_all (ds : list Document) w :
  mapM get_rid (map ODoc ds) w
  = (Ok (map (fun d => default VNone (dict_get rid (deref (heap w) (content d)))) ds), w).
Proof.
  induction ds as [|d ds IH]; simpl; [done |].
  unfold bind, get_rid, attr_content, read, ret in *; simpl. by rewrite IH.
Qed.

Lemma set_intersection_spec xs ys v :
  In v (set_intersection xs ys) <-> In v xs /\ In v ys.
Proof.
  unfold set_intersection.
  rewrite <- !list_elem_of_In, list_elem_of_filter, elem_of_remove_dups. tauto.
Qed.

Lemma Collection_init_documents collection (l : list pyobj) ids skip w :
  forallb is_doc l = true -> l <> [] ->
  Collection_init collection (SrcList l) ids skip w
  = (Ok (mkCollection collection l skip), w).
Proof.
  destruct l as [|[d| |] l]; simpl; try done.
Qed.

(** X12.  Provided one of the two collections has a record, [A + B] raises the
    conflict error exactly when some value of [content.get('_id')]
    ([None] for a record without the field) occurs in both, and
    otherwise returns the collection named [A.name + "_and_" + B.name]
    whose records are those of [A] followed by those of [B]. *)
Theorem Collection_add_spec (w : world) (A B : Collection) :
  only_documents A -> only_documents B ->
  documents A ++ documents B <> [] ->
  exists conflicting,
    (forall v, In v conflicting
               <-> In v (rid_values (heap w) A) /\ In v (rid_values (heap w) B))
    /\ Collection_add A (IsCollection B) w
       = match conflicting with
         | [] => (Ok (mkCollection (name A ++ "_and_" ++ name B)%string
                                   (documents A ++ documents B) []), w)
         | _ :: _ => (Raise (ValueError (ConflictingIds conflicting)), w)
         end.
Proof.
  intros HA HB Hne.
  exists (set_intersection (rid_values (heap w) A) (rid_values (heap w) B)).
  split; [intros v; apply set_intersection_spec |].
  unfold Collection_add.
  rewrite (only_documents_map _ HA) at 1.
  rewrite (bind_Ok _ _ _ _ _ (get_rid_all (docs_of A) w)).
  rewrite (only_documents_map _ HB) at 1.
  rewrite (bind_Ok _ _ _ _ _ (get_rid_all (docs_of B) w)).
  fold (rid_values (heap w) A). fold (rid_values (heap w) B).
  destruct (set_intersection _ _); [| done].
  apply Collection_init_documents; [| done].
  rewrite forallb_app. unfold only_documents in *. by rewrite HA, HB.
Qed.

(** Two records without [_id] conflict on [None]. *)
Example Collection_add_without_ids :
  (let! a := Collection_init "a" (SrcList [ODict 0]) ["name"] [] in
   let! b := Collection_init "b" (SrcList [ODict 1]) ["name"] [] in
   ret (a, b)) named_world = (Ok (named_x, named_y), named_world)
  /\ Collection_add named_x (IsCollection named_y) named_world
     = (Raise (ValueError (ConflictingIds [VNone])), named_world).
Proof. split; reflexivity. Qed.

(** ** [remove_ids] in place, on any collection of Documents *)

Lemma remove_id_all (ds : list Document) w :
  exists w',
    mapM remove_id (map ODoc ds) w = (Ok (map (fun d => ODict (content d)) ds), w').
Proof.
  revert w. induction ds as [|d ds IH]; intros w; simpl; [by eexists |].
  unfold bind at 1. unfold remove_id at 1.
  unfold bind, attr_content, read, write, ret; cbn [fst snd].
  match goal with |- context [mapM remove_id (map ODoc ds) ?w1] =>
    destruct (IH w1) as [w' ->] end.
  by eexists.
Qed.

(** Whatever the collection of Documents, the call with
    [in_place=True] returns [None] and leaves in the sequence the raw
    dict of each record, in order: none of its elements is a Document. *)
Lemma remove_ids_in_place_all (w : world) (self : Collection) :
  only_documents self ->
  exists w',
    remove_ids self true w
    = (Ok (mkCollection (name self)
                        (map (fun d => ODict (content d)) (docs_of self))
                        (skip_values self), None), w').
Proof.
  intros H. destruct (remove_id_all (docs_of self) w) as [w' Hrun].
  exists w'. unfold remove_ids. rewrite (only_documents_map _ H) at 1.
  by rewrite (bind_Ok _ _ _ _ _ Hrun).
Qed.

(** ** [__getitem__] on collections of Documents *)

Lemma dict_keys_set_In k k' v c :
  In k' (dict_keys (dict_set k v c)) <-> k' = k \/ In k' (dict_keys c).
Proof.
  rewrite !dict_get_keys, dict_get_set.
  destruct (String.eqb_spec k' k) as [->|Hne].
  - split; [auto | done].
  - split; [auto | intros [?|?]; done].
Qed.

Lemma slice_keys fields c acc k :
  In k (dict_keys (slice fields c acc))
  <-> In k (dict_keys acc) \/ (In k fields /\ In k (dict_keys c)).
Proof.
  revert acc. induction fields as [|f fields IH]; intros acc; simpl.
  - tauto.
  - destruct (dict_get f c) as [v|] eqn:Hf; rewrite IH.
    + rewrite dict_keys_set_In. split.
      * intros [[->|?]|[? ?]]; auto.
        right. split; [by left |]. apply dict_get_keys. congruence.
      * intros [?|[[<-|?] ?]]; auto.
    + split; [intros [?|[? ?]]; auto |].
      intros [?|[[<-|?] Hk]]; auto.
      apply dict_get_keys in Hk. congruence.
Qed.

Lemma slice_get fields c acc :
  (forall k v, dict_get k acc = Some v -> dict_get k c = Some v) ->
  forall k v, dict_get k (slice fields c acc) = Some v -> dict_get k c = Some v.
Proof.
  revert acc. induction fields as [|f fields IH]; intros acc Hacc; simpl; [done |].
  destruct (dict_get f c) as [vf|] eqn:Hf; apply IH; [| done].
  intros k v. rewrite dict_get_set.
  destruct (String.eqb_spec k f) as [->|]; [congruence | apply Hacc].
Qed.

Lemma slice_loop_trace d fields acc w :
  slice_loop (ODoc d) fields acc w
  = (Ok (slice fields (deref (heap w) (content d)) acc), w).
Proof.
  revert acc. induction fields as [|f fields IH]; intros acc; simpl; [done |].
  unfold bind, attr_content, read, ret; cbn [fst snd].
  destruct (dict_get f (deref (heap w) (content d))); apply IH.
Qed.

Lemma deref_app_l (h extra : list dict) a :
  a < length h -> deref (h ++ extra) a = deref h a.
Proof. intros H. unfold deref. by rewrite lookup_app_l. Qed.

Lemma deref_app_r (h extra : list dict) i :
  deref (h ++ extra) (length h + i) = deref extra i.
Proof.
  unfold deref. rewrite lookup_app_r by lia.
  by replace (length h + i - length h) with i by lia.
Qed.

Lemma slice_all_trace fields (ds : list Document) w :
  Forall (fun d => content d < length (heap w)) ds ->
  mapM (slice_doc fields) (map ODoc ds) w
  = (Ok (map ODict (seq (length (heap w)) (length ds))),
     with_heap (heap w ++ map (fun d => slice fields (deref (heap w) (content d)) []) ds) w).
Proof.
  revert w. induction ds as [|d ds IH]; intros w Hv; simpl.
  - by rewrite app_nil_r, with_heap_id.
  - apply Forall_cons in Hv as [Hd Hds].
    unfold bind at 1. unfold slice_doc at 1.
    rewrite (bind_Ok _ _ _ _ _ (slice_loop_trace d fields [] w)).
    unfold bind at 1. unfold alloc at 1. unfold ret at 1.
    unfold bind at 1. rewrite IH; cbn [heap].
    + unfold ret. rewrite length_app. simpl. rewrite Nat.add_1_r.
      f_equal. unfold with_heap; simpl. f_equal.
      rewrite <- app_assoc. simpl. do 2 f_equal.
      apply map_ext_in. intros d' Hd'.
      rewrite deref_app_l; [done |].
      rewrite Forall_forall in Hds. apply Hds. by apply list_elem_of_In.
    + apply Forall_impl with (P := fun d => content d < length (heap w)); [done |].
      intros ? ?. rewrite length_app. simpl. lia.
Qed.

(** The constructor on a dict, with the default key field: it succeeds
    when the accepted strings convert, touches no other dict, and leaves
    the keys of the dict plus [_id]. *)
Lemma Document_init_default a w :
  a < length (heap w) -> converts (deref (heap w) a) ->
  exists i c' n',
    Document_init (ODict a) default_ids w
    = (Ok (mkDocument a i),
       World (<[a := c']> (heap w)) n' (stdout w) (not_in_json w))
    /\ (forall k, In k (dict_keys c')
                  <-> In k (dict_keys (deref (heap w) a)) \/ k = rid).
Proof.
  intros Hlt Hconv. unfold Document_init, default_ids, derive_id.
  unfold bind at 1. unfold bind at 1. unfold read at 1. cbn beta iota.
  destruct (dict_get rid (deref (heap w) a)) as [v|] eqn:Hrid.
  - destruct (normalize_keys_spec (dict_keys (deref (heap w) a)) _ Hconv (incl_refl _))
      as (c' & Hrun & Hkeys & _).
    assert (Hnorm : normalize a w = (Ok tt, with_heap (<[a := c']> (heap w)) w))
      by (rewrite normalize_trace; by rewrite Hrun).
    assert (Hk : forall k, In k (dict_keys c')
                           <-> In k (dict_keys (deref (heap w) a)) \/ k = rid).
    { intros k. rewrite Hkeys. split; [auto |]. intros [?| ->]; [done |].
      apply dict_get_keys. congruence. }
    destruct v as [|s|z|o]; unfold ret at 1; cbn beta iota;
      rewrite (bind_Ok _ _ _ _ _ Hnorm);
      eexists _, c', _; (split; [reflexivity | exact Hk]).
  - set (new_id := VOid (PyStr.hex_digits 24 (oid_counter w) "")).
    set (c1 := dict_set rid new_id (deref (heap w) a)).
    set (w1 := World (<[a := c1]> (heap w)) (oid_counter w + 1)%N
                     (stdout w) (not_in_json w)).
    assert (Hd1 : deref (heap w1) a = c1).
    { unfold w1; cbn [heap]. by rewrite deref_insert_eq, decide_True. }
    assert (Hconv1 : converts (deref (heap w1) a)).
    { rewrite Hd1. by apply converts_set. }
    destruct (normalize_keys_spec (dict_keys (deref (heap w1) a)) _ Hconv1 (incl_refl _))
      as (c' & Hrun & Hkeys & _).
    assert (Hnorm : normalize a w1 = (Ok tt, with_heap (<[a := c']> (heap w1)) w1))
      by (rewrite normalize_trace; by rewrite Hrun).
    unfold bind at 1. unfold mint at 1. cbn beta iota.
    unfold bind at 1. unfold write at 1.
    cbn [heap oid_counter stdout not_in_json]. cbn beta iota.
    fold new_id. fold c1. fold w1. unfold ret at 1. cbn beta iota.
    rewrite (bind_Ok _ _ _ _ _ Hnorm). unfold ret.
    exists (py_str new_id), c', (oid_counter w + 1)%N. split.
    + unfold with_heap, w1; cbn [heap oid_counter stdout not_in_json].
      by rewrite list_insert_insert_eq.
    + intros k. rewrite Hkeys, Hd1. unfold c1. rewrite dict_keys_set_In. tauto.
Qed.

Lemma docs_of_ODoc n (ds : list Document) s :
  docs_of (mkCollection n (map ODoc ds) s) = ds.
Proof.
  unfold docs_of; cbn [documents]. induction ds as [|d ds IH]; [done |].
  change (d :: omap as_doc (map ODoc ds) = d :: ds). by rewrite IH.
Qed.

Lemma Document_init_all (addrs : list addr) w :
  NoDup addrs ->
  Forall (fun a => a < length (heap w) /\ converts (deref (heap w) a)) addrs ->
  exists ds' w',
    mapM (fun doc => Document_init doc default_ids) (map ODict addrs) w = (Ok ds', w')
    /\ map content ds' = addrs
    /\ length (heap w') = length (heap w)
    /\ (forall a, ~ In a addrs -> deref (heap w') a = deref (heap w) a)
    /\ (forall a, In a addrs ->
                  forall k, In k (dict_keys (deref (heap w') a))
                            <-> In k (dict_keys (deref (heap w) a)) \/ k = rid).
Proof.
  revert w. induction addrs as [|a0 addrs IH]; intros w Hnd Hall.
  - exists [], w. simpl. split; [done |]. split; [done |]. split; [done |].
    split; [done |]. intros a [].
  - apply NoDup_cons in Hnd as [Hnotin Hnd].
    apply Forall_cons in Hall as [[Hlt Hconv] Hall].
    destruct (Document_init_default a0 w Hlt Hconv) as (i & c0 & n' & Hrun & Hkeys).
    set (w1 := World (<[a0 := c0]> (heap w)) n' (stdout w) (not_in_json w)) in *.
    assert (Hother : forall a, a <> a0 -> deref (heap w1) a = deref (heap w) a).
    { intros a Hne. unfold w1; cbn [heap]. by apply deref_insert_ne. }
    destruct (IH w1 Hnd) as (ds' & w' & Hrest & Hcont & Hlen & Hout & Hin).
    { rewrite Forall_forall in Hall |- *. intros a Ha.
      destruct (Hall a Ha) as [Hlta Hconva].
      assert (a <> a0) by (intros ->; done).
      unfold w1 at 1; cbn [heap]. rewrite length_insert.
      split; [done |]. by rewrite Hother. }
    exists (mkDocument a0 i :: ds'), w'.
    split; [| split; [| split; [| split]]].
    + cbn [map mapM]. rewrite (bind_Ok _ _ _ _ _ Hrun).
      by rewrite (bind_Ok _ _ _ _ _ Hrest).
    + simpl. by rewrite Hcont.
    + rewrite Hlen. unfold w1; cbn [heap]. apply length_insert.
    + intros a Ha. rewrite Hout by (intros ?; apply Ha; by right).
      apply Hother. intros ->. apply Ha. by left.
    + intros a [<-|Ha] k.
      * rewrite Hout by (by rewrite <- list_elem_of_In).
        unfold w1; cbn [heap]. rewrite deref_insert_eq, decide_True by done.
        apply Hkeys.
      * rewrite (Hin a Ha k). rewrite Hother; [done |].
        intros ->. by apply Hnotin, list_elem_of_In.
Qed.

Lemma exact_ids_slice fields c :
  converts c -> converts (slice fields c []).
Proof.
  intros Hc k s Hget. apply (Hc k).
  by apply (slice_get fields c []).
Qed.

(** X10.  On a collection of at least one Document, all allocated and none
    holding a string that the pattern accepts only thanks to a trailing
    newline, [self[fields]] returns a collection of Documents with the
    same name, one for each record and in the same order, and the fields
    of each are those of [fields] that the original record has, and
    [_id]. *)
Theorem Collection_getitem_fields (w : world) (self : Collection)
    (fields : list string) :
  only_documents self -> documents self <> [] -> allocated (heap w) self ->
  Forall (fun d => exact_ids (deref (heap w) (content d)) = true) (docs_of self) ->
  exists c' w',
    Collection_getitem self (FList fields) w = (Ok c', w')
    /\ name c' = name self /\ only_documents c'
    /\ Forall2 (fun d d' =>
                  forall k, In k (dict_keys (deref (heap w') (content d')))
                            <-> (In k fields
                                 /\ In k (dict_keys (deref (heap w) (content d))))
                                \/ k = rid)
               (docs_of self) (docs_of c').
Proof.
  intros Hdocs Hne Halloc Hexact.
  pose proof (only_documents_map _ Hdocs) as Hmap.
  set (ds := docs_of self) in *.
  set (slices := map (fun d => slice fields (deref (heap w) (content d)) []) ds).
  set (w1 := with_heap (heap w ++ slices) w).
  set (n := length (heap w)).
  assert (Hlen : length slices = length ds) by apply length_map.
  destruct (Document_init_all (seq n (length ds)) w1)
    as (ds' & w' & Hrun & Hcont & Hlen' & _ & Hin).
  { apply NoDup_ListNoDup, List.seq_NoDup. }
  { apply Forall_forall. intros a Ha%list_elem_of_In%in_seq.
    unfold w1; cbn [heap with_heap]. rewrite length_app, Hlen. fold n.
    split; [lia |].
    replace a with (n + (a - n)) by lia. unfold n. rewrite deref_app_r.
    unfold deref, slices. rewrite list_lookup_fmap.
    destruct (ds !! (a - length (heap w))) as [d|] eqn:Hd; simpl; [| done].
    apply exact_ids_slice, exact_ids_converts.
    rewrite Forall_forall in Hexact. apply Hexact.
    by apply list_elem_of_lookup_2 in Hd. }
  exists (mkCollection (name self) (map ODoc ds') []), w'.
  split; [| split; [done | split]].
  - unfold Collection_getitem. rewrite Hmap.
    rewrite (bind_Ok _ _ _ _ _ (slice_all_trace fields ds w Halloc)).
    fold slices. fold w1. fold n.
    destruct ds as [|d0 ds0] eqn:Hds; [by rewrite Hmap in Hne |].
    cbn [length seq map Collection_init]. cbn [length seq map] in Hrun.
    by rewrite (bind_Ok _ _ _ _ _ Hrun).
  - unfold only_documents; cbn [documents].
    clear. induction ds' as [|d l IH]; [done | exact IH].
  - rewrite docs_of_ODoc. apply Forall2_same_length_lookup. split.
    + rewrite <- (length_map content ds'), Hcont. by rewrite length_seq.
    + intros i d d' Hd Hd' k.
      assert (Hi : i < length ds) by (by apply lookup_lt_Some in Hd).
      assert (Hc : content d' = n + i).
      { assert (H : map content ds' !! i = Some (content d'))
          by (change (map content ds') with (content <$> ds');
              by rewrite list_lookup_fmap, Hd').
        rewrite Hcont, lookup_seq_lt in H by done. congruence. }
      rewrite Hc, Hin by (apply in_seq; lia).
      unfold w1; cbn [heap with_heap]. unfold n. rewrite deref_app_r.
      unfold deref at 1, slices. rewrite list_lookup_fmap, Hd. simpl.
      rewrite slice_keys. simpl. tauto.
Qed.

(** * Further properties of the code *)

(** ** The constructor of [Document] as a function on dicts *)

Lemma derive_id_trace a ids w :
  a < length (heap w) ->
  derive_id a ids w
  = ((derive_pure ids (deref (heap w) a) (oid_counter w)).1.1,
     World (<[a := (derive_pure ids (deref (heap w) a) (oid_counter w)).1.2]> (heap w))
           (derive_pure ids (deref (heap w) a) (oid_counter w)).2
           (stdout w) (not_in_json w)).
Proof.
  intros Hlt. unfold derive_id, derive_pure.
  assert (Hid : World (<[a := deref (heap w) a]> (heap w)) (oid_counter w)
                      (stdout w) (not_in_json w) = w).
  { rewrite insert_deref. by destruct w. }
  destruct ids as [|k [|k' ids]].
  - unfold bind, read, lift, ret; cbn [fst snd].
    destruct (str_join _); cbn [fst snd]; by rewrite Hid.
  - unfold bind at 1. unfold read at 1. cbn beta iota.
    destruct (dict_get k (deref (heap w) a)) as [v|] eqn:Hk; cbn [fst snd].
    + rewrite Hid. by destruct v.
    + reflexivity.
  - unfold bind, read, lift, ret; cbn [fst snd].
    destruct (str_join _); cbn [fst snd]; by rewrite Hid.
Qed.

Lemma derive_pure_Raise ids c n e :
  (derive_pure ids c n).1.1 = Raise e ->
  (derive_pure ids c n).1.2 = c /\ (derive_pure ids c n).2 = n.
Proof.
  unfold derive_pure. destruct ids as [|k [|k' ids]]; cbn [fst snd]; try done.
  destruct (dict_get k c); cbn [fst snd]; done.
Qed.

(** The constructor on an allocated dict: what it returns and the one
    dict it writes. *)
Lemma Document_init_trace a ids w :
  a < length (heap w) ->
  Document_init (ODict a) ids w
  = (match (init_pure ids (deref (heap w) a) (oid_counter w)).1.1 with
     | Ok i => Ok (mkDocument a i)
     | Raise e => Raise e
     end,
     World (<[a := (init_pure ids (deref (heap w) a) (oid_counter w)).1.2]> (heap w))
           (init_pure ids (deref (heap w) a) (oid_counter w)).2
           (stdout w) (not_in_json w)).
Proof.
  intros Hlt. unfold Document_init, init_pure.
  unfold bind at 1. rewrite derive_id_trace by done.
  destruct (derive_pure ids (deref (heap w) a) (oid_counter w)) as [[r c1] n1] eqn:Hd.
  cbn [fst snd]. destruct r as [i|e].
  - unfold bind at 1. rewrite normalize_trace. cbn [heap].
    rewrite deref_insert_eq, decide_True by done.
    destruct (normalize_keys (dict_keys c1) c1) as [[[]|e] c2]; cbn [fst snd];
      unfold with_heap; cbn [heap oid_counter stdout not_in_json];
      by rewrite list_insert_insert_eq.
  - cbn [fst snd]. reflexivity.
Qed.

(** ** [filter_by] *)

Lemma matches_conditions_trace conditions d w :
  matches_conditions conditions (ODoc d) w
  = (Ok (meets conditions (deref (heap w) (content d))), w).
Proof.
  induction conditions as [|[key cond] rest IH]; simpl; [done |].
  unfold bind, attr_content, read, ret; cbn [fst snd].
  destruct (dict_get key (deref (heap w) (content d))) as [v|]; [| done].
  destruct cond as [value|p]; simpl.
  - destruct (bool_decide (v = value)); [apply IH | done].
  - destruct (p v); [apply IH | done].
Qed.

Lemma filtered_documents_trace conditions (ds : list Document) w :
  filtered_documents conditions (map ODoc ds) w
  = (Ok (map ODoc (List.filter
                     (fun d => meets conditions (deref (heap w) (content d))) ds)), w).
Proof.
  induction ds as [|d ds IH]; simpl; [done |].
  rewrite (bind_Ok _ _ _ _ _ (matches_conditions_trace conditions d w)).
  rewrite (bind_Ok _ _ _ _ _ IH). unfold ret.
  by destruct (meets conditions (deref (heap w) (content d))).
Qed.

Lemma forallb_is_doc_map (ds : list Document) : forallb is_doc (map ODoc ds) = true.
Proof. induction ds as [|d ds IH]; [done | exact IH]. Qed.

Lemma filter_by_in_place w self conditions :
  only_documents self ->
  filter_by self conditions true w
  = (Ok (mkCollection (name self) (map ODoc (kept (heap w) conditions self))
                      (skip_values self), None), w).
Proof.
  intros Hdocs. pose proof (only_documents_map _ Hdocs) as Hmap.
  unfold filter_by. rewrite Hmap at 1.
  by rewrite (bind_Ok _ _ _ _ _ (filtered_documents_trace conditions (docs_of self) w)).
Qed.

Lemma filter_by_copy w self conditions :
  only_documents self ->
  filter_by self conditions false w
  = (match kept (heap w) conditions self with
     | [] => Raise IndexError
     | _ :: _ =>
         Ok (self, Some (mkCollection (name self)
                                      (map ODoc (kept (heap w) conditions self)) []))
     end, w).
Proof.
  intros Hdocs. pose proof (only_documents_map _ Hdocs) as Hmap.
  unfold filter_by. rewrite Hmap at 1.
  rewrite (bind_Ok _ _ _ _ _ (filtered_documents_trace conditions (docs_of self) w)).
  fold (kept (heap w) conditions self).
  destruct (kept (heap w) conditions self) as [|d l] eqn:Hk; [reflexivity |].
  assert (Hne : map ODoc (d :: l) <> []) by done.
  rewrite (bind_Ok _ _ _ _ _
             (Collection_init_documents (name self) _ default_ids [] w
                (forallb_is_doc_map (d :: l)) Hne)).
  reflexivity.
Qed.

(** X20.  [filter_by] on a collection of Documents.  It reads the records and
    changes nothing: no dict is written, nothing is printed.  A record
    is kept exactly when every condition names a field that the record
    has and whose value meets the condition; the records kept stay in
    their order and are the same objects.  In place, the collection
    keeps its name and skip rules.  Otherwise the result is a new
    collection of that name without skip rules, and when no record is
    kept the call raises [IndexError]. *)
Theorem filter_by_kept (w : world) (self : Collection)
    (conditions : list (string * condition)) :
  only_documents self ->
  filter_by self conditions true w
  = (Ok (mkCollection (name self) (map ODoc (kept (heap w) conditions self))
                      (skip_values self), None), w)
  /\ filter_by self conditions false w
     = (match kept (heap w) conditions self with
        | [] => Raise IndexError
        | _ :: _ =>
            Ok (self, Some (mkCollection (name self)
                                         (map ODoc (kept (heap w) conditions self)) []))
        end, w).
Proof.
  intros Hdocs. split; [by apply filter_by_in_place | by apply filter_by_copy].
Qed.

Lemma filter_filter {A} (f g : A -> bool) (l : list A) :
  List.filter f (List.filter g l) = List.filter (fun x => g x && f x) l.
Proof.
  induction l as [|x l IH]; simpl; [done |].
  destruct (g x); simpl; [| exact IH]. destruct (f x); by rewrite IH.
Qed.

Lemma meets_app c1 c2 c : meets (c1 ++ c2) c = meets c1 c && meets c2 c.
Proof. unfold meets. apply forallb_app. Qed.

Lemma kept_kept h c1 c2 self :
  kept h c2 (mkCollection (name self) (map ODoc (kept h c1 self)) (skip_values self))
  = kept h (c1 ++ c2) self.
Proof.
  unfold kept at 1. rewrite docs_of_ODoc. unfold kept. rewrite filter_filter.
  apply filter_ext. intros d. by rewrite meets_app.
Qed.

(** X21.  Filtering in place twice, by two condition dicts.  The
    second call leaves exactly the records that meet the conditions of
    both dicts, in their order, and the order of the two calls does not
    matter.  When the two dicts have no key in common, the two calls
    amount to one call with the dict that holds the entries of both. *)
Theorem filter_by_twice (w : world) (self : Collection)
    (c1 c2 : list (string * condition)) :
  only_documents self -> NoDup (map fst c1) -> NoDup (map fst c2) ->
  exists s1 s2,
    filter_by self c1 true w = (Ok (s1, None), w)
    /\ filter_by self c2 true w = (Ok (s2, None), w)
    /\ filter_by s1 c2 true w
       = (Ok (mkCollection (name self)
                (map ODoc
                   (List.filter
                      (fun d => meets c1 (deref (heap w) (content d))
                                && meets c2 (deref (heap w) (content d)))
                      (docs_of self)))
                (skip_values self), None), w)
    /\ filter_by s2 c1 true w = filter_by s1 c2 true w
    /\ (NoDup (map fst (c1 ++ c2)) ->
        filter_by s1 c2 true w = filter_by self (c1 ++ c2) true w).
Proof.
  intros Hdocs _ _.
  eexists _, _. split; [by apply filter_by_in_place |].
  split; [by apply filter_by_in_place |].
  rewrite !filter_by_in_place
    by (done || (unfold only_documents; cbn [documents]; apply forallb_is_doc_map)).
  cbn [name skip_values]. rewrite !kept_kept.
  split; [| split; [| done]].
  - do 5 f_equal. unfold kept. apply filter_ext. intros d. apply meets_app.
  - do 5 f_equal. unfold kept. apply filter_ext. intros d.
    rewrite !meets_app. apply andb_comm.
Qed.

(** ** [__getattr__] and [add_document] *)

Lemma document_map_trace key (ds : list Document) found w :
  document_map key (map ODoc ds) (ODoc <$> found) w
  = (Ok (ODoc <$> last_with key ds found), w).
Proof.
  revert found. induction ds as [|d ds IH]; intros found; simpl; [done |].
  unfold bind, attr_id, ret; cbn [fst snd].
  destruct (String.eqb (id d) key); [apply (IH (Some d)) | apply IH].
Qed.

Lemma last_with_absent key ds found :
  ~ In key (map id ds) -> last_with key ds found = found.
Proof.
  revert found. induction ds as [|d ds IH]; intros found Hn; simpl; [done |].
  destruct (String.eqb_spec (id d) key) as [He|_].
  - destruct Hn. by left.
  - apply IH. intros ?. apply Hn. by right.
Qed.

Lemma last_with_present key ds found :
  In key (map id ds) ->
  exists pre d post,
    ds = pre ++ d :: post /\ id d = key /\ ~ In key (map id post)
    /\ last_with key ds found = Some d.
Proof.
  revert found. induction ds as [|d ds IH]; intros found Hin; simpl; [destruct Hin |].
  destruct (in_dec string_dec key (map id ds)) as [Hrest|Hrest].
  - destruct (IH (if String.eqb (id d) key then Some d else found) Hrest)
      as (pre & d' & post & -> & Hid & Hpost & Hlast).
    exists (d :: pre), d', post. repeat split; try done.
    by destruct (String.eqb (id d) key).
  - destruct Hin as [Hd|Hin]; [| done].
    exists [], d, ds. rewrite Hd, String.eqb_refl.
    repeat split; try done. by apply last_with_absent.
Qed.

Lemma Collection_getattr_trace self key w :
  only_documents self ->
  Collection_getattr self key w
  = (match last_with key (docs_of self) None with
     | Some d => Ok (ODoc d)
     | None => Raise AttributeError
     end, w).
Proof.
  intros Hmap%only_documents_map. unfold Collection_getattr. rewrite Hmap at 1.
  rewrite (bind_Ok _ _ _ _ _ (document_map_trace key (docs_of self) None w)).
  by destruct (last_with key (docs_of self) None).
Qed.

(** X8.  Lookup by identity in a collection of Documents changes nothing.  It
    raises [AttributeError] exactly when no record has the identity
    [key]; otherwise it returns the last record that has it. *)
Theorem Collection_getattr_last (w : world) (self : Collection) (key : string) :
  only_documents self ->
  (~ In key (map id (docs_of self)) ->
   Collection_getattr self key w = (Raise AttributeError, w))
  /\ (In key (map id (docs_of self)) ->
      exists pre d post,
        docs_of self = pre ++ d :: post /\ id d = key
        /\ ~ In key (map id post)
        /\ Collection_getattr self key w = (Ok (ODoc d), w)).
Proof.
  intros Hdocs. rewrite Collection_getattr_trace by done. split.
  - intros Hn. by rewrite last_with_absent.
  - intros Hin.
    destruct (last_with_present key (docs_of self) None Hin)
      as (pre & d & post & Hds & Hid & Hpost & ->).
    by exists pre, d, post.
Qed.

(** ** One key field *)

Lemma normalize_all c :
  converts c ->
  exists c',
    normalize_keys (dict_keys c) c = (Ok tt, c')
    /\ dict_keys c' = dict_keys c
    /\ forall k, dict_get k c' = normal_value <$> dict_get k c.
Proof.
  intros Hc.
  destruct (normalize_keys_spec (dict_keys c) c Hc (incl_refl _))
    as (c' & Hrun & Hkeys & Hget).
  exists c'. split; [done |]. split; [done |]. intros k. rewrite Hget.
  destruct (bool_decide_reflect (k ∈ dict_keys c)) as [Hi|Hi]; [done |].
  rewrite list_elem_of_In, dict_get_keys in Hi.
  destruct (dict_get k c); [by destruct Hi | done].
Qed.

Lemma underscore_hex c :
  PyStr.is_digit c || PyStr.is_af c || PyStr.is_AF c = true -> PyStr.underscore c = c.
Proof.
  unfold PyStr.underscore. destruct (Ascii.eqb_spec c " "%char) as [->|]; [| done].
  vm_compute. discriminate.
Qed.

Lemma replace_space_hex s :
  PyStr.all_chars (fun c => PyStr.is_digit c || PyStr.is_af c || PyStr.is_AF c) s = true ->
  PyStr.replace_space s = s.
Proof.
  induction s as [|c s IH]; simpl; [done |].
  intros [Hc Hs]%andb_true_iff. unfold PyStr.replace_space in *. simpl.
  by rewrite underscore_hex, IH.
Qed.

(** A string that converts is its own identity. *)
Lemma ident_of_normal c k v :
  converts c -> dict_get k c = Some v -> ident_of (normal_value v) = ident_of v.
Proof.
  intros Hc Hk. destruct v as [|s|z|o]; try done. simpl.
  destruct (PyStr.re_match_oid s) eqn:Hm; [| done]. simpl.
  pose proof (Hc k s Hk Hm) as Ho. unfold ObjectId_of_str in Ho.
  destruct (_ && _) eqn:Hok; [| done].
  apply andb_true_iff in Hok as [_ Hall]. by rewrite replace_space_hex.
Qed.

Lemma init_pure_present k c n v :
  converts c -> dict_get k c = Some v ->
  exists c',
    init_pure [k] c n = (Ok (ident_of v), c', n)
    /\ dict_keys c' = dict_keys c
    /\ (forall key, dict_get key c' = normal_value <$> dict_get key c).
Proof.
  intros Hc Hk. destruct (normalize_all c Hc) as (c' & Hrun & Hkeys & Hget).
  exists c'. unfold init_pure, derive_pure. rewrite Hk, Hrun. done.
Qed.

Lemma init_pure_absent k c n :
  converts c -> dict_get k c = None ->
  exists c',
    init_pure [k] c n = (Ok (py_str (minted n)), c', (n + 1)%N)
    /\ (forall key, In key (dict_keys c') <-> In key (dict_keys c) \/ key = rid)
    /\ (forall key, dict_get key c'
                    = if String.eqb key rid then Some (minted n)
                      else normal_value <$> dict_get key c).
Proof.
  intros Hc Hk.
  destruct (normalize_all (dict_set rid (minted n) c)) as (c' & Hrun & Hkeys & Hget).
  { by apply converts_set. }
  exists c'. unfold init_pure, derive_pure. rewrite Hk, Hrun.
  split; [done |]. split.
  - intros key. rewrite Hkeys, dict_keys_set_In. tauto.
  - intros key. rewrite Hget, dict_get_set.
    by destruct (String.eqb key rid).
Qed.

(** X1.  [Document(record, [k])] on an allocated dict none of whose strings
    is accepted by the pattern only thanks to a trailing newline.  The
    call succeeds and writes no other dict.  Every value of the record
    is replaced by its normal form.  When the record has the field [k],
    the identity is the value of [k] with spaces replaced by underscores
    if it is a string and its [str] otherwise, which is also the
    identity of the normalized value; no key is added and the generator
    is not used.  When the record lacks [k], an identifier is minted,
    stored under [_id] (replacing any value there) and its [str] is the
    identity. *)
Theorem Document_init_one_key (w : world) (a : addr) (k : string) :
  a < length (heap w) -> exact_ids (deref (heap w) a) = true ->
  exists i c' n',
    Document_init (ODict a) [k] w
    = (Ok (mkDocument a i),
       World (<[a := c']> (heap w)) n' (stdout w) (not_in_json w))
    /\ match dict_get k (deref (heap w) a) with
       | Some v =>
           i = ident_of v /\ i = ident_of (normal_value v)
           /\ n' = oid_counter w
           /\ dict_keys c' = dict_keys (deref (heap w) a)
           /\ forall key, dict_get key c'
                          = normal_value <$> dict_get key (deref (heap w) a)
       | None =>
           i = py_str (minted (oid_counter w))
           /\ n' = (oid_counter w + 1)%N
           /\ forall key,
               dict_get key c'
               = if String.eqb key rid then Some (minted (oid_counter w))
                 else normal_value <$> dict_get key (deref (heap w) a)
       end.
Proof.
  intros Hlt Hc%exact_ids_converts. rewrite Document_init_trace by done.
  destruct (dict_get k (deref (heap w) a)) as [v|] eqn:Hk.
  - destruct (init_pure_present k _ (oid_counter w) v Hc Hk)
      as (c' & -> & Hkeys & Hget).
    exists (ident_of v), c', (oid_counter w). cbn [fst snd].
    split; [done |]. repeat split; try done.
    symmetry. by eapply ident_of_normal.
  - destruct (init_pure_absent k _ (oid_counter w) Hc Hk) as (c' & -> & _ & Hget).
    exists (py_str (minted (oid_counter w))), c', (oid_counter w + 1)%N.
    cbn [fst snd]. done.
Qed.

Lemma init_pure_default c n :
  converts c ->
  exists i c' n',
    init_pure default_ids c n = (Ok i, c', n')
    /\ (exists v, dict_get rid c' = Some v /\ i = ident_of v)
    /\ (forall key, In key (dict_keys c') <-> In key (dict_keys c) \/ key = rid).
Proof.
  intros Hc. unfold default_ids. destruct (dict_get rid c) as [v|] eqn:Hr.
  - destruct (init_pure_present rid c n v Hc Hr) as (c' & -> & Hkeys & Hget).
    eexists _, c', _. split; [done |]. split.
    + exists (normal_value v). rewrite Hget, Hr. split; [done |].
      symmetry. by eapply ident_of_normal.
    + intros key. rewrite Hkeys. split; [auto |]. intros [?| ->]; [done |].
      apply dict_get_keys. congruence.
  - destruct (init_pure_absent rid c n Hc Hr) as (c' & -> & Hkeys & Hget).
    eexists _, c', _. split; [done |]. split; [| done].
    exists (minted n). by rewrite Hget, String.eqb_refl.
Qed.

Lemma last_with_snoc key ds d found :
  id d = key -> last_with key (ds ++ [d]) found = Some d.
Proof.
  intros Hid. revert found. induction ds as [|d0 ds IH]; intros found; simpl.
  - by rewrite Hid, String.eqb_refl.
  - destruct (String.eqb (id d0) key); apply IH.
Qed.

Lemma docs_of_app n l1 l2 s :
  docs_of (mkCollection n (l1 ++ l2) s)
  = docs_of (mkCollection n l1 s) ++ docs_of (mkCollection n l2 s).
Proof. unfold docs_of; cbn [documents]. apply omap_app. Qed.

(** X17.  Adding a raw record and then looking its identity up.  On a
    collection of Documents, [add_document] of an allocated dict (no
    string of which is accepted only thanks to a trailing newline)
    appends one Document that refers to that dict; the dict then has an
    [_id] and the identity is derived from it.  Looking that identity up
    returns the appended record, also when an earlier record has the
    same identity. *)
Theorem add_document_lookup (w : world) (self : Collection) (a : addr) :
  only_documents self -> a < length (heap w) ->
  exact_ids (deref (heap w) a) = true ->
  exists d self' w',
    add_document self (ODict a) w = (Ok self', w')
    /\ name self' = name self /\ skip_values self' = skip_values self
    /\ documents self' = documents self ++ [ODoc d]
    /\ content d = a
    /\ (exists v, dict_get rid (deref (heap w') a) = Some v /\ id d = ident_of v)
    /\ Collection_getattr self' (id d) w' = (Ok (ODoc d), w').
Proof.
  intros Hdocs Hlt Hc%exact_ids_converts.
  destruct (init_pure_default (deref (heap w) a) (oid_counter w) Hc)
    as (i & c' & n' & Hinit & (v & Hv & Hi) & _).
  pose proof (Document_init_trace a default_ids w Hlt) as Hrun.
  rewrite Hinit in Hrun. cbn [fst snd] in Hrun.
  eexists (mkDocument a i), _, _. unfold add_document.
  rewrite (bind_Ok _ _ _ _ _ Hrun). unfold ret.
  split; [reflexivity |]. cbn [name skip_values documents content id heap].
  repeat split; try done.
  - exists v. by rewrite deref_insert_eq, decide_True.
  - rewrite Collection_getattr_trace.
    + rewrite (only_documents_map _ Hdocs) at 1.
      rewrite docs_of_app, docs_of_ODoc.
      change (docs_of (mkCollection (name self) [ODoc (mkDocument a i)] (skip_values self)))
        with [mkDocument a i].
      by rewrite last_with_snoc.
    + unfold only_documents in *. cbn [documents]. rewrite forallb_app, Hdocs. done.
Qed.

(** ** [set_ids] *)

Lemma settled_get c k v :
  settled c = true -> dict_get k c = Some v -> normal_value v = v.
Proof.
  unfold settled. induction c as [|[k0 v0] c IH]; simpl; [done |].
  intros [H0 Hc]%andb_true_iff.
  destruct (String.eqb k k0); [| by apply IH].
  intros [= ->]. destruct v as [|s|z|o]; try done. simpl.
  by destruct (PyStr.re_match_oid s).
Qed.

Lemma init_pure_keyed k c n :
  keyed k c = true -> init_pure [k] c n = (Ok (key_identity k c), c, n).
Proof.
  unfold keyed, dict_has, key_identity. intros [Hs Hk]%andb_true_iff.
  unfold init_pure, derive_pure. destruct (dict_get k c) as [v|]; [| done].
  rewrite normalize_keys_fixed; [done |].
  intros k' v' _. by apply settled_get.
Qed.

Lemma Document_init_keyed k a w :
  keyed k (deref (heap w) a) = true ->
  Document_init (ODict a) [k] w
  = (Ok (mkDocument a (key_identity k (deref (heap w) a))), w).
Proof.
  intros Hk.
  assert (Hlt : a < length (heap w)).
  { destruct (decide (a < length (heap w))); [done |].
    rewrite deref_dangling in Hk by done. discriminate. }
  rewrite Document_init_trace, init_pure_keyed by done. cbn [fst snd].
  rewrite insert_deref. by destruct w.
Qed.

Lemma set_ids_keyed_trace k (ds : list Document) w :
  Forall (fun d => keyed k (deref (heap w) (content d)) = true) ds ->
  mapM (fun doc => let! a := attr_content doc in Document_init (ODict a) [k])
       (map ODoc ds) w
  = (Ok (map (fun d => mkDocument (content d)
                                  (key_identity k (deref (heap w) (content d)))) ds), w).
Proof.
  induction ds as [|d ds IH]; intros Hall; [done |].
  apply Forall_cons in Hall as [Hd Hds]. cbn [map mapM].
  assert (Hone : (let! a := attr_content (ODoc d) in Document_init (ODict a) [k]) w
                 = (Ok (mkDocument (content d)
                                   (key_identity k (deref (heap w) (content d)))), w)).
  { unfold bind, attr_content, ret. cbn beta iota. by apply Document_init_keyed. }
  rewrite (bind_Ok _ _ _ _ _ Hone).
  rewrite (bind_Ok _ _ _ _ _ (IH Hds)). reflexivity.
Qed.

(** X7.  Re-keying on a field that every record has.  When the sequence
    holds Documents whose records are normalized and have the field
    [k], [set_ids([k])] changes no dict, mints nothing and prints
    nothing; the records keep their dicts and their order, and each
    identity becomes the one that the value of [k] gives.  If the
    identities already were those, the collection is unchanged. *)
Theorem set_ids_rekey (w : world) (self : Collection) (k : string) :
  only_documents self ->
  Forall (fun d => keyed k (deref (heap w) (content d)) = true) (docs_of self) ->
  set_ids self [k] w
  = (Ok (mkCollection (name self)
           (map (fun d => ODoc (mkDocument (content d)
                                 (key_identity k (deref (heap w) (content d)))))
                (docs_of self))
           (skip_values self)), w)
  /\ (Forall (fun d => id d = key_identity k (deref (heap w) (content d)))
             (docs_of self) ->
      set_ids self [k] w = (Ok self, w)).
Proof.
  intros Hdocs Hall. pose proof (only_documents_map _ Hdocs) as Hmap.
  assert (Hrun : set_ids self [k] w
    = (Ok (mkCollection (name self)
             (map (fun d => ODoc (mkDocument (content d)
                                   (key_identity k (deref (heap w) (content d)))))
                  (docs_of self))
             (skip_values self)), w)).
  { unfold set_ids. rewrite Hmap at 1.
    rewrite (bind_Ok _ _ _ _ _ (set_ids_keyed_trace k (docs_of self) w Hall)).
    unfold ret. by rewrite map_map. }
  split; [exact Hrun |]. intros Hid. rewrite Hrun. do 2 f_equal.
  destruct self as [n docs s]. cbn [name skip_values documents] in *. f_equal.
  rewrite Hmap at 2. apply map_ext_in. intros d Hd.
  rewrite Forall_forall in Hid. specialize (Hid d (proj2 (list_elem_of_In _ _) Hd)).
  destruct d as [a i]. cbn [id content] in *. by rewrite Hid.
Qed.

(** ** What the operations leave untouched *)

Lemma unchanged_below_refl n w : unchanged_below n w w.
Proof. by repeat split. Qed.

Lemma unchanged_below_trans n w1 w2 w3 :
  unchanged_below n w1 w2 -> unchanged_below n w2 w3 -> unchanged_below n w1 w3.
Proof.
  intros (L1 & H1 & F1) (L2 & H2 & F2). split; [lia |]. split.
  - intros a Ha. by rewrite H2, H1.
  - congruence.
Qed.

Section Keeps.
Variable n : nat.

Lemma keeps_ret {A} (Q : A -> Prop) (a : A) : Q a -> keeps n Q (ret a).
Proof.
  intros HQ w _. split; [apply unchanged_below_refl |]. by intros ? [= <-].
Qed.

Lemma keeps_raise {A} (Q : A -> Prop) e : keeps n Q (raise e).
Proof. intros w _. split; [apply unchanged_below_refl | done]. Qed.

Lemma keeps_lift {A} (r : result A) : keeps n anything (lift r).
Proof. intros w _. split; [apply unchanged_below_refl | done]. Qed.

Lemma keeps_read a : keeps n anything (read a).
Proof. intros w _. split; [apply unchanged_below_refl | done]. Qed.

Lemma keeps_print line : keeps n anything (print line).
Proof. intros w _. split; [by repeat split | done]. Qed.

Lemma keeps_mint : keeps n anything mint.
Proof. intros w _. split; [by repeat split | done]. Qed.

Lemma keeps_alloc d : keeps n (fun a => n <= a) (alloc d).
Proof.
  intros w Hn. split.
  - split; [| split; [| done]]; cbn.
    + rewrite length_app. lia.
    + intros a Ha. apply lookup_app_l. lia.
  - intros a [= <-]. done.
Qed.

Lemma keeps_write a d : n <= a -> keeps n anything (write a d).
Proof.
  intros Ha w _. split; [| done]. split; [| split; [| done]]; cbn.
  - by rewrite length_insert.
  - intros b Hb. apply list_lookup_insert_ne. lia.
Qed.

Lemma keeps_weaken {A} (Q R : A -> Prop) m :
  (forall a, Q a -> R a) -> keeps n Q m -> keeps n R m.
Proof. intros HQR Hm w Hn. destruct (Hm w Hn) as [Hu HQ]. split; auto. Qed.

Lemma keeps_bind {A B} (Q : A -> Prop) (R : B -> Prop) m (f : A -> M B) :
  keeps n Q m -> (forall a, Q a -> keeps n R (f a)) -> keeps n R (bind m f).
Proof.
  intros Hm Hf w Hn. destruct (Hm w Hn) as [Hu HQ]. unfold bind.
  destruct (m w) as [[a|e] w1] eqn:Hmw; cbn [fst snd] in *; [| done].
  destruct Hu as (L1 & H1 & F1).
  destruct (Hf a (HQ a eq_refl) w1 ltac:(lia)) as [Hu2 HR].
  split; [| done]. by apply unchanged_below_trans with w1.
Qed.

Lemma keeps_forM {A} (f : A -> M unit) l :
  (forall x, keeps n anything (f x)) -> keeps n anything (forM f l).
Proof.
  intros Hf. induction l as [|x l IH]; simpl.
  - by apply keeps_ret.
  - eapply keeps_bind; [apply Hf | intros; apply IH].
Qed.

Lemma keeps_mapM_each {A B} (Q : B -> Prop) (f : A -> M B) l :
  Forall (fun x => keeps n Q (f x)) l -> keeps n (Forall Q) (mapM f l).
Proof.
  induction l as [|x l IH]; intros Hf; simpl.
  - by apply keeps_ret.
  - apply Forall_cons in Hf as [Hx Hl].
    eapply keeps_bind; [apply Hx |]. intros y Hy.
    eapply keeps_bind; [by apply IH |]. intros ys Hys.
    apply keeps_ret. by constructor.
Qed.

Lemma keeps_mapM {A B} (Q : B -> Prop) (f : A -> M B) l :
  (forall x, keeps n Q (f x)) -> keeps n (Forall Q) (mapM f l).
Proof. intros Hf. apply keeps_mapM_each, Forall_forall. auto. Qed.

Lemma keeps_attr_content doc : keeps n anything (attr_content doc).
Proof. destruct doc; by (apply keeps_ret || apply keeps_raise). Qed.

Lemma keeps_attr_id doc : keeps n anything (attr_id doc).
Proof. destruct doc; by (apply keeps_ret || apply keeps_raise). Qed.

(** The constructor writes the dict it is given, and no other. *)
Lemma keeps_Document_init doc ids :
  (forall a, doc = ODict a -> n <= a) -> keeps n (fun d => is_doc (ODoc d) = true) (Document_init doc ids).
Proof.
  intros Hdoc. destruct doc as [d|a|]; try apply keeps_raise.
  specialize (Hdoc a eq_refl). unfold Document_init.
  eapply keeps_bind with (Q := anything).
  - unfold derive_id. destruct ids as [|k [|k' ids]].
    + eapply keeps_bind; [apply keeps_read |]. intros c _.
      eapply keeps_bind; [apply keeps_lift |]. intros s _. by apply keeps_ret.
    + eapply keeps_bind; [apply keeps_read |]. intros c _.
      destruct (dict_get k c) as [[|s|z|o]|]; try by apply keeps_ret.
      eapply keeps_bind; [apply keeps_mint |]. intros o _.
      eapply keeps_bind; [by apply keeps_write |]. intros _ _. by apply keeps_ret.
    + eapply keeps_bind; [apply keeps_read |]. intros c _.
      eapply keeps_bind; [apply keeps_lift |]. intros s _. by apply keeps_ret.
  - intros i _. eapply keeps_bind with (Q := anything).
    + unfold normalize. eapply keeps_bind; [apply keeps_read |]. intros c _.
      apply keeps_forM. intros key. unfold normalize_key.
      eapply keeps_bind; [apply keeps_read |]. intros c' _.
      destruct (dict_get key c') as [[|s|z|o]|]; try by apply keeps_ret.
      destruct (PyStr.re_match_oid s); [| by apply keeps_ret].
      eapply keeps_bind; [apply keeps_lift |]. intros o _. by apply keeps_write.
    + intros _ _. by apply keeps_ret.
Qed.

(** The constructor of [Collection] on a list of Documents or of new
    dicts. *)
Lemma keeps_Collection_init collection l ids skip :
  Forall (fun o => is_doc o = true \/ new_dict n o) l ->
  keeps n anything (Collection_init collection (SrcList l) ids skip).
Proof.
  intros Hl. unfold Collection_init. destruct l as [|[d|a|] l].
  - apply keeps_raise.
  - by apply keeps_ret.
  - eapply keeps_bind; [| intros; by apply keeps_ret].
    apply keeps_mapM_each. eapply Forall_impl; [exact Hl |].
    intros doc Hdoc. apply keeps_Document_init.
    intros b ->. by destruct Hdoc as [?|(b' & [= <-] & ?)].
  - apply keeps_raise.
Qed.

End Keeps.

Lemma keeps_transform_doc n new_name column func doc :
  keeps n (fun o => is_doc o = true \/ new_dict n o)
        (transform_doc new_name column func doc).
Proof.
  unfold transform_doc.
  eapply keeps_bind; [apply keeps_attr_content |]. intros a _.
  eapply keeps_bind; [apply keeps_read |]. intros c _.
  eapply keeps_bind; [apply keeps_alloc |]. intros new Hnew.
  eapply keeps_bind; [apply keeps_read |]. intros nc _.
  eapply keeps_bind with (Q := anything).
  { destruct (dict_get column nc); [by apply keeps_write |].
    eapply keeps_bind; [apply keeps_attr_id |]. intros i _.
    eapply keeps_bind; [apply keeps_print |]. intros _ _. by apply keeps_write. }
  intros _ _. eapply keeps_bind; [apply keeps_attr_id |]. intros i _.
  eapply keeps_bind; [apply keeps_Document_init; by intros ? [= <-] |].
  intros d _. apply keeps_ret. by left.
Qed.

Lemma keeps_resolve_keys n lookup new mapping :
  n <= new -> keeps n anything (resolve_keys lookup new mapping).
Proof.
  intros Hnew. induction mapping as [|[key_self key_other] rest IH]; simpl.
  - by apply keeps_ret.
  - eapply keeps_bind; [apply keeps_read |]. intros nc _.
    eapply keeps_bind with (Q := anything); [| intros; apply IH].
    destruct (dict_get key_self nc) as [lookup_id|]; [| by apply keeps_ret].
    destruct (lookup_get lookup_id lookup) as [oa|]; [| by apply keeps_ret].
    eapply keeps_bind; [apply keeps_read |]. intros oc _. by apply keeps_write.
Qed.

Lemma keeps_resolve_doc n lookup mapping doc :
  keeps n (fun o => is_doc o = true \/ new_dict n o) (resolve_doc lookup mapping doc).
Proof.
  unfold resolve_doc.
  eapply keeps_bind; [apply keeps_attr_content |]. intros a _.
  eapply keeps_bind; [apply keeps_read |]. intros c _.
  eapply keeps_bind; [apply keeps_alloc |]. intros new Hnew.
  eapply keeps_bind; [by apply keeps_resolve_keys |]. intros _ _.
  eapply keeps_bind; [apply keeps_attr_id |]. intros i _.
  eapply keeps_bind; [apply keeps_Document_init; by intros ? [= <-] |].
  intros d _. apply keeps_ret. by left.
Qed.

Lemma keeps_build_lookup n docs acc : keeps n anything (build_lookup docs acc).
Proof.
  revert acc. induction docs as [|doc docs IH]; intros acc; simpl.
  - by apply keeps_ret.
  - eapply keeps_bind; [apply keeps_attr_content |]. intros a _.
    eapply keeps_bind; [apply keeps_read |]. intros c _.
    destruct (dict_get rid c); [apply IH | apply keeps_raise].
Qed.

Lemma keeps_slice_doc n fields doc : keeps n (fun o => is_doc o = true \/ new_dict n o) (slice_doc fields doc).
Proof.
  unfold slice_doc. eapply keeps_bind with (Q := anything).
  - generalize (@nil (string * value)). induction fields as [|f fields IH]; intros acc; simpl.
    + by apply keeps_ret.
    + eapply keeps_bind; [apply keeps_attr_content |]. intros a _.
      eapply keeps_bind; [apply keeps_read |]. intros c _.
      destruct (dict_get f c); apply IH.
  - intros d _. eapply keeps_bind; [apply keeps_alloc |]. intros a Ha.
    apply keeps_ret. right. by exists a.
Qed.

(** A collection rebuilt from the results of a loop that keeps the
    dicts below [n]. *)
Lemma keeps_rebuilt n (self : Collection) (in_place : bool)
    (loop : M (list pyobj)) :
  keeps n (Forall (fun o => is_doc o = true \/ new_dict n o)) loop ->
  keeps n anything
    (let! new_documents := loop in
     if in_place
     then ret (mkCollection (name self) new_documents (skip_values self), None)
     else
       let! c := Collection_init (name self) (SrcList new_documents) default_ids [] in
       ret (self, Some c)).
Proof.
  intros Hloop. eapply keeps_bind; [exact Hloop |]. intros l Hl.
  destruct in_place; [by apply keeps_ret |].
  eapply keeps_bind; [by apply keeps_Collection_init |]. intros; by apply keeps_ret.
Qed.

Lemma keeps_run {A} n (Q : A -> Prop) (m : M A) w :
  keeps n Q m -> n <= length (heap w) -> unchanged_below n w (m w).2.
Proof. intros Hm Hn. by destruct (Hm w Hn). Qed.

Lemma unchanged_below_take w w' :
  unchanged_below (length (heap w)) w w' ->
  take (length (heap w)) (heap w') = heap w /\ not_in_json w' = not_in_json w.
Proof.
  intros (Hlen & Hlook & Hfile). split; [| done].
  apply list_eq. intros a. destruct (decide (a < length (heap w))) as [Ha|Ha].
  - rewrite lookup_take_lt by done. by apply Hlook.
  - rewrite lookup_take_ge by lia. symmetry. apply lookup_ge_None. lia.
Qed.

(** X15.  [transform] and [resolve] work on copies.  Whatever the collection,
    the arguments and the outcome (a result or an exception), the dicts
    that exist before the call are the same afterwards, and
    [not_in.json] is not written: the heap after the call is the heap
    before it, followed by the new dicts. *)
Theorem transform_resolve_copy (w : world) (self other : Collection)
    (new_name column : string) (func : value -> value)
    (mapping : list (string * string)) (in_place : bool) :
  (take (length (heap w))
        (heap (transform self new_name column func in_place w).2) = heap w
   /\ not_in_json (transform self new_name column func in_place w).2 = not_in_json w)
  /\ (take (length (heap w))
           (heap (resolve self other mapping in_place w).2) = heap w
      /\ not_in_json (resolve self other mapping in_place w).2 = not_in_json w).
Proof.
  split; apply unchanged_below_take; apply (keeps_run _ anything); try done.
  - apply (keeps_rebuilt (length (heap w)) self in_place
             (mapM (transform_doc new_name column func) (documents self))).
    apply keeps_mapM. intros doc. apply keeps_transform_doc.
  - unfold resolve.
    eapply keeps_bind; [apply keeps_build_lookup |].
    intros lookup _.
    apply (keeps_rebuilt (length (heap w)) self in_place
             (mapM (resolve_doc lookup mapping) (documents self))).
    apply keeps_mapM. intros doc. apply keeps_resolve_doc.
Qed.

(** X11.  [self[fields]] builds new dicts.  Whatever the collection, the
    fields and the outcome, the dicts that exist before the call are
    the same afterwards, and the call does not write [not_in.json]. *)
Theorem Collection_getitem_new_dicts (w : world) (self : Collection)
    (fields : fields_arg) :
  take (length (heap w)) (heap (Collection_getitem self fields w).2) = heap w
  /\ not_in_json (Collection_getitem self fields w).2 = not_in_json w.
Proof.
  apply unchanged_below_take. apply (keeps_run _ anything); [| done].
  unfold Collection_getitem. destruct fields as [fs|]; [| apply keeps_raise].
  eapply keeps_bind.
  - apply keeps_mapM. intros doc. apply keeps_slice_doc.
  - intros l Hl. by apply keeps_Collection_init.
Qed.

(** ** A collection audited against itself *)

Lemma contains_passes A B w :
  only_documents A -> only_documents B ->
  List.filter (fails (heap w) A B) (docs_of B) = [] ->
  Collection_contains A B w
  = (Ok true, emit (audit_trace (heap w) A B (docs_of B)).2 w).
Proof.
  intros HA HB Hnil. unfold Collection_contains.
  rewrite (only_documents_map _ HB) at 1.
  rewrite (bind_Ok _ _ _ _ _ (contains_loop_trace A B (docs_of B) [] w HA)).
  by rewrite audit_trace_failing, Hnil.
Qed.

Lemma contains_fails A B w :
  only_documents A -> only_documents B ->
  List.filter (fails (heap w) A B) (docs_of B) <> [] ->
  (Collection_contains A B w).1 = Ok false.
Proof.
  intros HA HB Hne. unfold Collection_contains.
  rewrite (only_documents_map _ HB) at 1.
  rewrite (bind_Ok _ _ _ _ _ (contains_loop_trace A B (docs_of B) [] w HA)).
  rewrite audit_trace_failing.
  destruct (List.filter (fails (heap w) A B) (docs_of B)) as [|d l]; [done |].
  cbn [app map].
  rewrite (bind_Ok _ _ _ _ _ (stringify_all_trace _ _)).
  rewrite (bind_Ok _ _ _ _ _ (read_all_trace _ _)).
  reflexivity.
Qed.

Lemma filter_id_unique (ds : list Document) d :
  NoDup (map id ds) -> In d ds ->
  List.filter (fun d2 => String.eqb (id d) (id d2)) ds = [d].
Proof.
  induction ds as [|d0 ds IH]; simpl; [done |].
  intros [Hnotin Hnd]%NoDup_cons [->|Hin].
  - rewrite String.eqb_refl. f_equal.
    clear IH Hnd. induction ds as [|d2 ds IH]; simpl; [done |].
    destruct (String.eqb_spec (id d) (id d2)) as [He|_].
    + destruct Hnotin. rewrite He. simpl. apply elem_of_cons. by left.
    + apply IH. intros Hin. apply Hnotin. simpl. apply elem_of_cons. by right.
  - destruct (String.eqb_spec (id d) (id d0)) as [He|_].
    + destruct Hnotin. rewrite <- He. by apply list_elem_of_In, in_map.
    + by apply IH.
Qed.

Lemma filter_id_dup (ds : list Document) :
  ~ NoDup (map id ds) ->
  exists d, In d ds
            /\ 2 <= length (List.filter (fun d2 => String.eqb (id d) (id d2)) ds).
Proof.
  induction ds as [|d0 ds IH]; simpl; [intros H; destruct H; constructor |].
  intros Hdup.
  destruct (in_dec string_dec (id d0) (map id ds)) as [Hin|Hnotin].
  - exists d0. split; [by left |]. rewrite String.eqb_refl. simpl.
    apply in_map_iff in Hin as (d1 & Hid & Hd1).
    assert (Hf : In d1 (List.filter (fun d2 => String.eqb (id d0) (id d2)) ds)).
    { apply filter_In. split; [done |]. rewrite Hid. apply String.eqb_refl. }
    destruct (List.filter _ ds); [destruct Hf | simpl; lia].
  - destruct IH as (d & Hd & Hlen).
    { intros Hnd. apply Hdup. apply NoDup_cons. split; [| done].
      by rewrite list_elem_of_In. }
    exists d. split; [by right |].
    destruct (String.eqb (id d) (id d0)); simpl; lia.
Qed.

(** X9.  A collection of Documents without skip rules contains itself
    exactly when the identities of its records are pairwise distinct.
    In that case the audit prints nothing and writes nothing. *)
Theorem contains_self (w : world) (A : Collection) :
  only_documents A -> skip_values A = [] ->
  (NoDup (map id (docs_of A)) -> Collection_contains A A w = (Ok true, w))
  /\ (~ NoDup (map id (docs_of A)) -> (Collection_contains A A w).1 = Ok false).
Proof.
  intros HA Hskip.
  assert (Hex : forall d, excluded (heap w) (skip_values A) d = false)
    by (intros d; by rewrite Hskip).
  split.
  - intros Hnd.
    assert (Hfound : forall d, In d (docs_of A) ->
                       found_trace (heap w) A d = (Ok true, [])).
    { intros d Hd. unfold found_trace, identity_equal.
      rewrite filter_id_unique by done.
      unfold doc_eq_trace. apply eq_trace_same, incl_refl. }
    assert (Hout : forall ds, incl ds (docs_of A) ->
                     audit_trace (heap w) A A ds = ([], [])).
    { induction ds as [|d ds IH]; intros Hin; simpl; [done |].
      rewrite Hex. unfold found.
      rewrite Hfound by (apply Hin; by left). cbn [fst snd].
      rewrite IH by (intros ? ?; apply Hin; by right). done. }
    rewrite contains_passes; try done.
    + by rewrite Hout, emit_nil by apply incl_refl.
    + by rewrite <- audit_trace_failing, Hout by apply incl_refl.
  - intros Hdup. apply contains_fails; try done.
    destruct (filter_id_dup _ Hdup) as (d & Hd & Hlen).
    intros Hnil.
    assert (Hf : In d (List.filter (fails (heap w) A A) (docs_of A))).
    { apply filter_In. split; [done |]. unfold fails. rewrite Hex. simpl.
      unfold found, found_trace, identity_equal.
      destruct (List.filter _ (docs_of A)) as [|d1 [|d2 l]];
        simpl in Hlen; try lia; done. }
    rewrite Hnil in Hf. destruct Hf.
Qed.

(** ** Fields that equality skips *)

Lemma eq_trace_skip si oi cs co keys :
  eq_trace si oi cs co keys
  = eq_trace si oi cs co (List.filter (fun k => negb (key_excluded k)) keys).
Proof.
  induction keys as [|k keys IH]; simpl; [done |].
  destruct (key_excluded k) eqn:Hex; simpl; [exact IH |].
  by rewrite Hex, IH.
Qed.

Lemma eq_trace_gets si oi cs co cs' co' keys :
  (forall k, In k keys ->
             dict_get k cs' = dict_get k cs /\ dict_get k co' = dict_get k co) ->
  eq_trace si oi cs' co' keys = eq_trace si oi cs co keys.
Proof.
  induction keys as [|k keys IH]; intros H; simpl; [done |].
  destruct (H k (or_introl eq_refl)) as [-> ->].
  by rewrite IH by (intros; apply H; by right).
Qed.

Lemma dict_get_strip k c :
  key_excluded k = false -> dict_get k (strip c) = dict_get k c.
Proof.
  intros Hk. induction c as [|[k0 v0] c IH]; simpl; [done |].
  destruct (key_excluded k0) eqn:H0; simpl.
  - destruct (String.eqb_spec k k0) as [->|]; [congruence | exact IH].
  - by rewrite IH.
Qed.

Lemma dict_keys_strip c :
  dict_keys (strip c) = List.filter (fun k => negb (key_excluded k)) (dict_keys c).
Proof.
  induction c as [|[k0 v0] c IH]; simpl; [done |].
  destruct (key_excluded k0); simpl; by rewrite IH.
Qed.

Lemma eq_trace_strip si oi cs co :
  eq_trace si oi cs co (dict_keys cs)
  = eq_trace si oi (strip cs) (strip co) (dict_keys (strip cs)).
Proof.
  rewrite eq_trace_skip, dict_keys_strip. symmetry. apply eq_trace_gets.
  intros k [_ Hk]%filter_In. apply negb_true_iff in Hk.
  by rewrite !dict_get_strip.
Qed.

(** X5.  The fields [created_at], [updated_at], [createdAt], [updatedAt] and
    [_id] have no part in [==]: replacing either record by one with the
    same identity that differs only in those fields (their values,
    their presence, their position) gives the same result and prints
    the same lines. *)
Theorem Document_eq_skips_fields (w : world) (L L' R R' : Document) :
  id L' = id L -> id R' = id R ->
  strip (deref (heap w) (content L')) = strip (deref (heap w) (content L)) ->
  strip (deref (heap w) (content R')) = strip (deref (heap w) (content R)) ->
  Document_eq L' (ODoc R') w = Document_eq L (ODoc R) w.
Proof.
  intros HL HR HsL HsR. rewrite !Document_eq_trace. unfold doc_eq_trace.
  rewrite (eq_trace_strip _ _ (deref (heap w) (content L'))).
  rewrite (eq_trace_strip _ _ (deref (heap w) (content L))).
  by rewrite HL, HR, HsL, HsR.
Qed.

(** ** [resolve] and records without [_id] *)

Lemma build_lookup_trace (ds : list Document) acc w :
  build_lookup (map ODoc ds) acc w
  = (match lookup_of (heap w) ds acc with
     | Some l => Ok l
     | None => Raise (KeyError rid)
     end, w).
Proof.
  revert acc. induction ds as [|d ds IH]; intros acc; simpl; [done |].
  unfold bind, attr_content, read, ret; cbn [fst snd].
  destruct (dict_get rid (deref (heap w) (content d))); [apply IH | done].
Qed.

Lemma lookup_of_None h ds acc :
  lookup_of h ds acc = None
  <-> exists d, In d ds /\ dict_get rid (deref h (content d)) = None.
Proof.
  revert acc. induction ds as [|d ds IH]; intros acc; simpl.
  - split; [done | by intros (? & [] & _)].
  - destruct (dict_get rid (deref h (content d))) eqn:Hd.
    + rewrite IH. split.
      * intros (d' & ? & ?). exists d'. auto.
      * intros (d' & [<-|?] & Hn); [congruence |]. by exists d'.
    + split; [| done]. intros _. exists d. auto.
Qed.

(** X18.  [resolve] reads [_id] from every record of [other] before it does
    anything else: when a record of [other] has no [_id], the call
    raises [KeyError('_id')] and nothing has changed, whatever [self]
    and the mapping are (an empty collection and an empty mapping
    included). *)
Theorem resolve_needs_ids (w : world) (self other : Collection)
    (mapping : list (string * string)) (in_place : bool) :
  only_documents other ->
  (exists d, In d (docs_of other)
             /\ dict_get rid (deref (heap w) (content d)) = None) ->
  resolve self other mapping in_place w = (Raise (KeyError rid), w).
Proof.
  intros Hother Hmiss%(lookup_of_None _ _ []).
  unfold resolve. rewrite (only_documents_map _ Hother) at 1.
  apply bind_Raise. by rewrite build_lookup_trace, Hmiss.
Qed.

(** ** The registry of a database *)

Lemma name_in_spec key names : name_in key names = true <-> In key names.
Proof.
  unfold name_in. rewrite existsb_exists. split.
  - intros (x & Hx & ->%String.eqb_eq). done.
  - intros Hin. exists key. by rewrite String.eqb_refl.
Qed.

Lemma name_in_false key names : name_in key names = false <-> ~ In key names.
Proof. rewrite <- name_in_spec. by destruct (name_in key names). Qed.

Lemma attr_content_not_documents l w :
  forallb is_doc l = false -> mapM attr_content l w = (Raise AttributeError, w).
Proof.
  induction l as [|o l IH]; simpl; [done |].
  destruct o as [d| |]; simpl; try done.
  intros Hl. unfold bind, ret in *; cbn [fst snd]. by rewrite (IH Hl).
Qed.

Section Registry.
Context {db : Type} `{Storage db}.

Lemma collection_map_snoc key cs c found :
  collection_map key (cs ++ [c]) found
  = if String.eqb (name c) key then Some c else collection_map key cs found.
Proof.
  revert found. induction cs as [|c0 cs IH]; intros found; simpl.
  - done.
  - destruct (String.eqb (name c0) key); apply IH.
Qed.

Lemma make_live_collections (self : Database db) c overwrite w :
  collections (make_live self c overwrite w).1.2 = collections self.
Proof.
  unfold make_live. destruct (documents c); [done |].
  destruct (list_collection_names _) as [names|e]; [| done].
  destruct (_ && negb overwrite); [done |].
  destruct (if _ && overwrite then _ else _) as [[[]|e] live1]; [| done].
  destruct (create_collection _ _) as [[[]|e] live2]; [| done].
  destruct (mapM attr_content _ w) as [[contents|e] w']; [| done].
  by destruct (insert_many _ _ _ _) as [[r live3] w''].
Qed.

(** X23.  [add_collection] and the names of the registry.  A collection whose
    name is registered is refused with nothing changed.  Otherwise it is
    appended, so that distinct names stay distinct and looking its name
    up returns it.  This holds with [make_live=True] as well, and also
    when [make_live] then fails: a collection without records is
    registered, the storage is not touched, and the call raises. *)
Theorem add_collection_registry (self : Database db) (c : Collection)
    (and_make_live : bool) (w : world) :
  NoDup (map name (collections self)) ->
  NoDup (map name (collections (add_collection self c and_make_live w).1.2))
  /\ (In (name c) (map name (collections self)) ->
      add_collection self c and_make_live w = (Failed NameTaken, self, w))
  /\ (~ In (name c) (map name (collections self)) ->
      collections (add_collection self c and_make_live w).1.2
      = collections self ++ [c]
      /\ Database_getattr (add_collection self c and_make_live w).1.2 (name c)
         = Done c
      /\ (and_make_live = false ->
          add_collection self c and_make_live w
          = (Done tt, mkDatabase (live self) (collections self ++ [c]), w))
      /\ (and_make_live = true -> documents c = [] ->
          add_collection self c and_make_live w
          = (Failed NoDocuments,
             mkDatabase (live self) (collections self ++ [c]), w))).
Proof.
  intros Hnd. unfold add_collection.
  destruct (name_in (name c) (map name (collections self))) eqn:Hin.
  - apply name_in_spec in Hin. split; [done |]. split; [done |]. done.
  - apply name_in_false in Hin.
    assert (Hcs : collections
                    (if and_make_live
                     then make_live (mkDatabase (live self) (collections self ++ [c]))
                                    c false w
                     else (Done tt, mkDatabase (live self) (collections self ++ [c]), w)).1.2
                  = collections self ++ [c]).
    { destruct and_make_live; [by rewrite make_live_collections | done]. }
    split; [| split; [done |]].
    + rewrite Hcs, map_app. apply NoDup_app. split; [done |]. split.
      * intros x Hx ->%list_elem_of_singleton. by apply Hin, list_elem_of_In.
      * apply NoDup_singleton.
    + intros _. split; [done |]. split.
      * unfold Database_getattr. rewrite Hcs, collection_map_snoc.
        by rewrite String.eqb_refl.
      * split; [by intros -> |]. intros -> Hempty.
        unfold make_live. by rewrite Hempty.
Qed.

(** X24.  [new_collection] and the names of the registry.  A registered name
    is refused with nothing changed.  Otherwise the call returns an
    empty collection of that name, without skip rules, and appends it:
    distinct names stay distinct, looking the name up returns the new
    collection, and looking another name up gives what it gave before.
    Neither the storage nor the world changes. *)
Theorem new_collection_registry (self : Database db) (new_name : string)
    (w : world) :
  NoDup (map name (collections self)) ->
  (In new_name (map name (collections self)) ->
   new_collection self new_name w = (Failed NameTaken, self, w))
  /\ (~ In new_name (map name (collections self)) ->
      new_collection self new_name w
      = (Done (mkCollection new_name [] []),
         mkDatabase (live self) (collections self ++ [mkCollection new_name [] []]),
         w)
      /\ NoDup (map name (collections (new_collection self new_name w).1.2))
      /\ Database_getattr (new_collection self new_name w).1.2 new_name
         = Done (mkCollection new_name [] [])
      /\ forall key, key <> new_name ->
           Database_getattr (new_collection self new_name w).1.2 key
           = Database_getattr self key).
Proof.
  intros Hnd. unfold new_collection.
  destruct (name_in new_name (map name (collections self))) eqn:Hin.
  - apply name_in_spec in Hin. done.
  - apply name_in_false in Hin. split; [done |]. intros _.
    cbn. split; [done |]. split; [| split].
    + rewrite map_app. apply NoDup_app. split; [done |]. split.
      * intros x Hx ->%list_elem_of_singleton. by apply Hin, list_elem_of_In.
      * apply NoDup_singleton.
    + unfold Database_getattr. cbn [collections].
      rewrite collection_map_snoc. cbn [name]. by rewrite String.eqb_refl.
    + intros key Hkey. unfold Database_getattr. cbn [collections].
      rewrite collection_map_snoc. cbn [name].
      destruct (String.eqb_spec new_name key); [congruence | done].
Qed.

(** X22.  [make_live].  A collection without records is refused before the
    storage is asked anything, and so is, without [overwrite], a
    collection whose name is live; in both cases nothing has changed.
    With [overwrite], a collection whose name is live and whose
    sequence holds an element that is not a Document (the state that
    [remove_ids(in_place=True)] leaves) makes the call fail with
    [AttributeError] only after the live collection has been dropped
    and created again: the records that were live are gone and nothing
    has been inserted. *)
Theorem make_live_refusals (self : Database db) (c : Collection) (w : world) :
  (documents c = [] ->
   forall overwrite, make_live self c overwrite w = (Failed NoDocuments, self, w))
  /\ (forall names,
        documents c <> [] ->
        list_collection_names (live self) = Done names -> In (name c) names ->
        make_live self c false w = (Failed AlreadyLive, self, w))
  /\ (forall names live1 live2,
        documents c <> [] -> ~ only_documents c ->
        list_collection_names (live self) = Done names -> In (name c) names ->
        drop_collection (name c) (live self) = (Done tt, live1) ->
        create_collection (name c) live1 = (Done tt, live2) ->
        make_live self c true w
        = (Failed (Raised AttributeError), mkDatabase live2 (collections self), w)).
Proof.
  unfold make_live. split; [| split].
  - by intros ->.
  - intros names Hne Hnames Hlive%name_in_spec. destruct (documents c); [done |].
    by rewrite Hnames, Hlive.
  - intros names live1 live2 Hne Hbad Hnames Hlive%name_in_spec Hdrop Hcreate.
    destruct (documents c) as [|o l] eqn:Hdocs; [done |].
    rewrite Hnames, Hlive. cbn [andb negb]. rewrite Hdrop, Hcreate.
    rewrite attr_content_not_documents; [done |].
    unfold only_documents in Hbad. rewrite Hdocs in Hbad.
    by destruct (forallb is_doc (o :: l)).
Qed.

End Registry.

(** ** The constructor over a list of dicts *)

Section EachDict.
Variable ids : list string.
(** What is assumed of a dict, and what the constructor then guarantees:
    [Q c n i c' n'] relates the dict and the generator before to the
    identity, the dict and the generator after. *)
Variable P : dict -> Prop.
Variable Q : dict -> N -> string -> dict -> N -> Prop.
Hypothesis step :
  forall c n, P c ->
    exists i c' n', init_pure ids c n = (Ok i, c', n') /\ (n <= n')%N /\ Q c n i c' n'.

Lemma Document_init_each (addrs : list addr) w :
  NoDup addrs ->
  Forall (fun a => a < length (heap w) /\ P (deref (heap w) a)) addrs ->
  exists ds' w',
    mapM (fun doc => Document_init doc ids) (map ODict addrs) w = (Ok ds', w')
    /\ map content ds' = addrs
    /\ length (heap w') = length (heap w)
    /\ stdout w' = stdout w /\ not_in_json w' = not_in_json w
    /\ (oid_counter w <= oid_counter w')%N
    /\ (forall a, ~ In a addrs -> deref (heap w') a = deref (heap w) a)
    /\ Forall (fun d => exists n0 n1,
                 (oid_counter w <= n0)%N
                 /\ Q (deref (heap w) (content d)) n0 (id d)
                      (deref (heap w') (content d)) n1) ds'.
Proof.
  revert w. induction addrs as [|a0 addrs IH]; intros w Hnd Hall.
  - exists [], w. simpl. repeat split; try done; try lia.
  - apply NoDup_cons in Hnd as [Hnotin Hnd].
    apply Forall_cons in Hall as [[Hlt HP] Hall].
    destruct (step _ (oid_counter w) HP) as (i & c0 & n' & Hinit & Hmono & HQ).
    pose proof (Document_init_trace a0 ids w Hlt) as Hrun.
    rewrite Hinit in Hrun. cbn [fst snd] in Hrun.
    set (w1 := World (<[a0 := c0]> (heap w)) n' (stdout w) (not_in_json w)) in *.
    assert (Hother : forall a, a <> a0 -> deref (heap w1) a = deref (heap w) a).
    { intros a Hne. unfold w1; cbn [heap]. by apply deref_insert_ne. }
    destruct (IH w1 Hnd)
      as (ds' & w' & Hrest & Hcont & Hlen & Hout1 & Hfile & Hcnt & Hout & HQs).
    { rewrite Forall_forall in Hall |- *. intros a Ha.
      destruct (Hall a Ha) as [Hlta HPa].
      assert (a <> a0) by (intros ->; done).
      unfold w1 at 1; cbn [heap]. rewrite length_insert.
      split; [done |]. by rewrite Hother. }
    exists (mkDocument a0 i :: ds'), w'.
    split; [| split; [| split; [| split; [| split; [| split; [| split]]]]]].
    + cbn [map mapM]. rewrite (bind_Ok _ _ _ _ _ Hrun).
      by rewrite (bind_Ok _ _ _ _ _ Hrest).
    + simpl. by rewrite Hcont.
    + rewrite Hlen. unfold w1; cbn [heap]. apply length_insert.
    + by rewrite Hout1.
    + by rewrite Hfile.
    + unfold w1 in Hcnt; cbn [oid_counter] in Hcnt. lia.
    + intros a Ha. rewrite Hout by (intros ?; apply Ha; by right).
      apply Hother. intros ->. apply Ha. by left.
    + constructor.
      * exists (oid_counter w), n'. split; [lia |]. cbn [content id].
        rewrite Hout by (by rewrite <- list_elem_of_In).
        unfold w1; cbn [heap]. by rewrite deref_insert_eq, decide_True.
      * rewrite Forall_forall in HQs |- *. intros d Hd.
        destruct (HQs d Hd) as (n0 & n1 & Hn0 & HQd).
        exists n0, n1. split; [unfold w1 in Hn0; cbn [oid_counter] in Hn0; lia |].
        rewrite <- Hother; [done |].
        intros Heq. apply Hnotin. rewrite <- Heq, <- Hcont.
        apply list_elem_of_In, in_map. by apply list_elem_of_In.
Qed.

End EachDict.

Lemma init_pure_built c n :
  converts c ->
  exists i c' n',
    init_pure default_ids c n = (Ok i, c', n') /\ (n <= n')%N /\ built c i c'.
Proof.
  intros Hc. unfold default_ids. destruct (dict_get rid c) as [v|] eqn:Hr.
  - destruct (init_pure_present rid c n v Hc Hr) as (c' & -> & Hkeys & Hget).
    eexists _, c', _. split; [done |]. split; [lia |]. repeat split.
    + exists (normal_value v). rewrite Hget, Hr. split; [done |].
      symmetry. by eapply ident_of_normal.
    + rewrite Hkeys. auto.
    + rewrite Hkeys. intros [?| ->]; [done |]. apply dict_get_keys. congruence.
    + intros key v'. rewrite Hget. destruct (dict_get key c); [| done].
      intros [= <-]. apply normal_value_idem.
    + intros key _. apply Hget.
  - destruct (init_pure_absent rid c n Hc Hr) as (c' & -> & Hkeys & Hget).
    eexists _, c', _. split; [done |]. split; [lia |]. repeat split.
    + exists (minted n). by rewrite Hget, String.eqb_refl.
    + apply Hkeys.
    + apply Hkeys.
    + intros key v'. rewrite Hget. destruct (String.eqb key rid).
      * by intros [= <-].
      * destruct (dict_get key c); [| done]. intros [= <-]. apply normal_value_idem.
    + intros key Hne. rewrite Hget.
      destruct (String.eqb_spec key rid); [done | done].
Qed.

(** X6.  A collection from raw records, with the default key field.  Given a
    non-empty list of distinct allocated dicts, none holding a string
    that the pattern accepts only thanks to a trailing newline, the
    constructor returns one Document for each dict, in order, each
    referring to the dict it was given (not to a copy).  Afterwards each
    of these dicts has an [_id], the identity of its Document is
    derived from it, its values are in normal form and its fields are
    those it had, and [_id].  No other dict changes and nothing is
    printed. *)
Theorem Collection_init_raw (w : world) (collection : string)
    (addrs : list addr) (skip : list (string * list value)) :
  addrs <> [] -> NoDup addrs ->
  Forall (fun a => a < length (heap w) /\ exact_ids (deref (heap w) a) = true) addrs ->
  exists ds' w',
    Collection_init collection (SrcList (map ODict addrs)) default_ids skip w
    = (Ok (mkCollection collection (map ODoc ds') skip), w')
    /\ map content ds' = addrs
    /\ Forall (fun d => built (deref (heap w) (content d)) (id d)
                              (deref (heap w') (content d))) ds'
    /\ (forall a, ~ In a addrs -> deref (heap w') a = deref (heap w) a)
    /\ length (heap w') = length (heap w)
    /\ stdout w' = stdout w /\ not_in_json w' = not_in_json w.
Proof.
  intros Hne Hnd Hall.
  destruct (Document_init_each default_ids converts
              (fun c _ i c' _ => built c i c')
              (fun c n Hc => init_pure_built c n Hc) addrs w Hnd)
    as (ds' & w' & Hrun & Hcont & Hlen & Hout & Hfile & _ & Hother & HQ).
  { eapply Forall_impl; [exact Hall |]. intros a [? ?%exact_ids_converts]. done. }
  exists ds', w'. split.
  - destruct addrs as [|a0 addrs]; [done |]. cbn [map Collection_init].
    cbn [map] in Hrun. by rewrite (bind_Ok _ _ _ _ _ Hrun).
  - repeat split; try done.
    eapply Forall_impl; [exact HQ |]. by intros d (n0 & n1 & _ & Hb).
Qed.

(** ** [remove_ids]: the records of the copy are the records of the original *)

Lemma dict_get_pop k k' c :
  NoDup (dict_keys c) ->
  dict_get k (dict_pop k' c) = if String.eqb k k' then None else dict_get k c.
Proof.
  induction c as [|[k0 v0] c IH]; simpl.
  - by destruct (String.eqb k k').
  - intros [Hnotin Hnd]%NoDup_cons.
    destruct (String.eqb_spec k' k0) as [->|Hne].
    + destruct (String.eqb_spec k k0) as [->|]; [| done].
      destruct (dict_get k0 c) eqn:Hg; [| done].
      destruct Hnotin. apply list_elem_of_In, dict_get_keys. congruence.
    + simpl. rewrite IH by done.
      destruct (String.eqb_spec k k0) as [->|]; [| done].
      destruct (String.eqb_spec k0 k'); [congruence | done].
Qed.

Lemma remove_id_pops (ds : list Document) w :
  NoDup (map content ds) ->
  exists w',
    mapM remove_id (map ODoc ds) w = (Ok (map (fun d => ODict (content d)) ds), w')
    /\ length (heap w') = length (heap w)
    /\ oid_counter w' = oid_counter w /\ stdout w' = stdout w
    /\ not_in_json w' = not_in_json w
    /\ (forall a, ~ In a (map content ds) -> deref (heap w') a = deref (heap w) a)
    /\ (forall a, In a (map content ds) -> a < length (heap w) ->
                  deref (heap w') a = dict_pop rid (deref (heap w) a)).
Proof.
  revert w. induction ds as [|d ds IH]; intros w Hnd.
  - exists w. simpl. repeat split; try done.
  - cbn [map] in Hnd. apply NoDup_cons in Hnd as [Hnotin Hnd].
    set (w1 := World (<[content d := dict_pop rid (deref (heap w) (content d))]> (heap w))
                     (oid_counter w) (stdout w) (not_in_json w)).
    assert (Hone : remove_id (ODoc d) w = (Ok (ODict (content d)), w1)) by reflexivity.
    destruct (IH w1 Hnd) as (w' & Hrest & Hlen & Hcnt & Hout & Hfile & Hother & Hin).
    exists w'. cbn [map mapM].
    rewrite (bind_Ok _ _ _ _ _ Hone), (bind_Ok _ _ _ _ _ Hrest).
    split; [done |]. split; [rewrite Hlen; unfold w1; cbn [heap]; apply length_insert |].
    repeat split; try done.
    + intros a Ha. rewrite Hother by (intros ?; apply Ha; by right).
      unfold w1; cbn [heap]. apply deref_insert_ne.
      intros Heq. apply Ha. by left.
    + intros a [<-|Ha] Hlt.
      * rewrite Hother by (by rewrite <- list_elem_of_In).
        unfold w1; cbn [heap]. by rewrite deref_insert_eq, decide_True.
      * rewrite Hin; [| done | by unfold w1; cbn [heap]; rewrite length_insert].
        unfold w1; cbn [heap]. rewrite deref_insert_ne; [done |].
        intros Heq. apply Hnotin. rewrite Heq. by apply list_elem_of_In.
Qed.

Lemma init_pure_minted c n :
  converts c /\ dict_get rid c = None ->
  exists i c' n',
    init_pure default_ids c n = (Ok i, c', n') /\ (n <= n')%N
    /\ (i = py_str (minted n) /\ dict_get rid c' = Some (minted n)
        /\ forall key, key <> rid -> dict_get key c' = normal_value <$> dict_get key c).
Proof.
  intros [Hc Hr].
  destruct (init_pure_absent rid c n Hc Hr) as (c' & Hrun & _ & Hget).
  eexists _, c', _. split; [exact Hrun |]. split; [lia |]. split; [done |]. split.
  - by rewrite Hget, String.eqb_refl.
  - intros key Hne. rewrite Hget. by destruct (String.eqb_spec key rid).
Qed.

Lemma converts_pop c :
  NoDup (dict_keys c) -> converts c -> converts (dict_pop rid c).
Proof.
  intros Hnd Hc k s. rewrite dict_get_pop by done.
  destruct (String.eqb k rid); [done | apply Hc].
Qed.

(** X13.  [remove_ids(in_place=False)] on a non-empty collection of Documents
    that do not share dicts (each dict allocated, with distinct keys and
    no string accepted by the pattern only thanks to a trailing
    newline).  The call succeeds and returns [self] and a new collection
    of the same name whose Documents refer, in order, to the dicts of
    the records of [self].  In each of these dicts [_id] now holds an
    identifier minted during the call, the identity of the new Document
    is its [str], and every other field has the normal form of its
    former value: the records of [self] have lost their [_id] values. *)
Theorem remove_ids_copy_shares (w : world) (self : Collection) :
  only_documents self -> documents self <> [] ->
  NoDup (map content (docs_of self)) ->
  Forall (fun d => content d < length (heap w)
                   /\ exact_ids (deref (heap w) (content d)) = true
                   /\ NoDup (dict_keys (deref (heap w) (content d))))
         (docs_of self) ->
  exists c' w',
    remove_ids self false w = (Ok (self, Some c'), w')
    /\ name c' = name self /\ only_documents c'
    /\ map content (docs_of c') = map content (docs_of self)
    /\ Forall (fun d' =>
                 exists n0,
                   (oid_counter w <= n0)%N
                   /\ id d' = py_str (minted n0)
                   /\ dict_get rid (deref (heap w') (content d')) = Some (minted n0)
                   /\ forall key, key <> rid ->
                        dict_get key (deref (heap w') (content d'))
                        = normal_value <$> dict_get key (deref (heap w) (content d')))
              (docs_of c').
Proof.
  intros Hdocs Hne Hnd Hall. pose proof (only_documents_map _ Hdocs) as Hmap.
  destruct (remove_id_pops (docs_of self) w Hnd)
    as (w1 & Hpop & Hlen1 & Hcnt1 & Hout1 & Hfile1 & Hother1 & Hin1).
  rewrite Forall_forall in Hall.
  destruct (Document_init_each default_ids
              (fun c => converts c /\ dict_get rid c = None)
              (fun c n i c' _ =>
                 i = py_str (minted n) /\ dict_get rid c' = Some (minted n)
                 /\ forall key, key <> rid ->
                      dict_get key c' = normal_value <$> dict_get key c)
              init_pure_minted (map content (docs_of self)) w1 Hnd)
    as (ds' & w' & Hrun & Hcont & Hlen & Hout & Hfile & Hcnt & Hother & HQ).
  { apply Forall_forall. intros a Ha.
    pose proof Ha as Ha'. apply list_elem_of_In, in_map_iff in Ha' as (d & <- & Hd).
    destruct (Hall d (proj2 (list_elem_of_In _ _) Hd)) as (Hlt & Hex & Hkeys).
    rewrite Hlen1. split; [done |].
    rewrite Hin1 by (done || by apply list_elem_of_In).
    split; [by apply converts_pop, exact_ids_converts |].
    by rewrite dict_get_pop, String.eqb_refl. }
  exists (mkCollection (name self) (map ODoc ds') []), w'.
  split; [| split; [done | split; [| split]]].
  - unfold remove_ids. rewrite Hmap at 1.
    rewrite (bind_Ok _ _ _ _ _ Hpop).
    rewrite map_map in Hrun.
    assert (Hinit : Collection_init (name self)
                      (SrcList (map (fun d => ODict (content d)) (docs_of self)))
                      default_ids [] w1
                    = (Ok (mkCollection (name self) (map ODoc ds') []), w')).
    { destruct (docs_of self) as [|d0 ds0]; [by rewrite Hmap in Hne |].
      cbn [map Collection_init]. cbn [map] in Hrun.
      by rewrite (bind_Ok _ _ _ _ _ Hrun). }
    by rewrite (bind_Ok _ _ _ _ _ Hinit).
  - unfold only_documents; cbn [documents]. apply forallb_is_doc_map.
  - by rewrite docs_of_ODoc.
  - rewrite docs_of_ODoc. rewrite Forall_forall in HQ |- *. intros d' Hd'.
    destruct (HQ d' Hd') as (n0 & n1 & Hn0 & Hi & Hr & Hget).
    exists n0. split; [lia |]. split; [done |]. split; [done |].
    intros key Hkey. rewrite (Hget key Hkey).
    assert (Hc : In (content d') (map content (docs_of self))).
    { rewrite <- Hcont. apply in_map. by apply list_elem_of_In. }
    pose proof Hc as Hc'. apply in_map_iff in Hc' as (d & Hcd & Hd).
    destruct (Hall d (proj2 (list_elem_of_In _ _) Hd)) as (Hlt & Hex & Hkeys).
    rewrite Hin1 by (done || by rewrite <- Hcd).
    rewrite dict_get_pop by (by rewrite <- Hcd).
    by destruct (String.eqb_spec key rid).
Qed.

(** ** [remove_ids] in place: what is left is not a collection of Documents *)

Lemma raw_first_raises (w : world) (self other : Collection) (a : addr)
    (rest : list pyobj) :
  documents self = ODict a :: rest ->
  (forall ids, set_ids self ids w = (Raise AttributeError, w))
  /\ (forall key, Collection_getattr self key w = (Raise AttributeError, w))
  /\ (forall in_place, remove_ids self in_place w = (Raise AttributeError, w))
  /\ (forall new_name column func in_place,
        transform self new_name column func in_place w = (Raise AttributeError, w))
  /\ (forall mapping in_place,
        resolve other self mapping in_place w = (Raise AttributeError, w))
  /\ Collection_add self (IsCollection other) w = (Raise AttributeError, w)
  /\ Collection_contains other self w = (Raise AttributeError, w)
  /\ (forall field fields,
        Collection_getitem self (FList (field :: fields)) w
        = (Raise AttributeError, w))
  /\ (forall cond conditions in_place,
        filter_by self (cond :: conditions) in_place w = (Raise AttributeError, w)).
Proof.
  intros Hdocs.
  split; [| split; [| split; [| split; [| split; [| split; [| split; [| split]]]]]]].
  - intros ids. unfold set_ids. by rewrite Hdocs.
  - intros key. unfold Collection_getattr. by rewrite Hdocs.
  - intros in_place. unfold remove_ids. by rewrite Hdocs.
  - intros new_name column func in_place. unfold transform. by rewrite Hdocs.
  - intros mapping in_place. unfold resolve. by rewrite Hdocs.
  - unfold Collection_add. by rewrite Hdocs.
  - unfold Collection_contains. rewrite Hdocs. cbn [contains_loop].
    destruct (skip_values self) as [|[key values] items]; [| done].
    by destruct (documents other).
  - intros field fields. unfold Collection_getitem. by rewrite Hdocs.
  - intros [key cond] conditions in_place. unfold filter_by. by rewrite Hdocs.
Qed.

(** X14.  [remove_ids(in_place=True)] on a non-empty collection of Documents
    that do not share dicts, all allocated.  The call returns [None];
    each record has lost its [_id] and no other dict has changed.  The
    sequence of the collection then holds the dicts themselves, so that
    from then on, in whatever world, the collection cannot be re-keyed,
    looked up by identity, stripped of ids again, transformed, added to
    another, audited against another, used as the source of [resolve],
    sliced by a non-empty field list or filtered by a non-empty set of
    conditions: each of these raises [AttributeError] and changes
    nothing. *)
Theorem remove_ids_in_place_then_raises (w : world) (self : Collection) :
  only_documents self -> documents self <> [] ->
  NoDup (map content (docs_of self)) -> allocated (heap w) self ->
  exists self' w',
    remove_ids self true w = (Ok (self', None), w')
    /\ name self' = name self /\ skip_values self' = skip_values self
    /\ documents self' = map (fun d => ODict (content d)) (docs_of self)
    /\ Forall (fun d => deref (heap w') (content d)
                        = dict_pop rid (deref (heap w) (content d)))
              (docs_of self)
    /\ (forall a, ~ In a (map content (docs_of self)) ->
                  deref (heap w') a = deref (heap w) a)
    /\ forall (w2 : world) (other : Collection),
         (forall ids, set_ids self' ids w2 = (Raise AttributeError, w2))
         /\ (forall key, Collection_getattr self' key w2 = (Raise AttributeError, w2))
         /\ (forall in_place, remove_ids self' in_place w2 = (Raise AttributeError, w2))
         /\ (forall new_name column func in_place,
               transform self' new_name column func in_place w2
               = (Raise AttributeError, w2))
         /\ (forall mapping in_place,
               resolve other self' mapping in_place w2 = (Raise AttributeError, w2))
         /\ Collection_add self' (IsCollection other) w2 = (Raise AttributeError, w2)
         /\ Collection_contains other self' w2 = (Raise AttributeError, w2)
         /\ (forall field fields,
               Collection_getitem self' (FList (field :: fields)) w2
               = (Raise AttributeError, w2))
         /\ (forall cond conditions in_place,
               filter_by self' (cond :: conditions) in_place w2
               = (Raise AttributeError, w2)).
Proof.
  intros Hdocs Hne Hnd Halloc. pose proof (only_documents_map _ Hdocs) as Hmap.
  destruct (remove_id_pops (docs_of self) w Hnd)
    as (w' & Hpop & _ & _ & _ & _ & Hother & Hin).
  exists (mkCollection (name self)
            (map (fun d => ODict (content d)) (docs_of self)) (skip_values self)), w'.
  split; [| split; [done | split; [done | split; [done | split; [| split; [done |]]]]]].
  - unfold remove_ids. rewrite Hmap at 1. by rewrite (bind_Ok _ _ _ _ _ Hpop).
  - unfold allocated in Halloc. rewrite Forall_forall in Halloc |- *.
    intros d Hd. apply Hin; [| by apply Halloc].
    by apply in_map, list_elem_of_In.
  - intros w2 other.
    destruct (docs_of self) as [|d0 ds0] eqn:Hds; [by rewrite Hmap in Hne |].
    by apply (raw_first_raises w2 _ other (content d0)
                (map (fun d => ODict (content d)) ds0)).
Qed.

(** ** The characters of a string *)

Lemma chars_cons c c' s' :
  PyStr.chars (String c (String c' s'))
  = if PyStr.is_continuation c'
    then match PyStr.chars (String c' s') with
         | first :: rest => String c first :: rest
         | [] => [String c EmptyString]
         end
    else String c EmptyString :: PyStr.chars (String c' s').
Proof. reflexivity. Qed.

(** The characters of a string, put together again, are the string. *)
Lemma chars_concat s : String.concat "" (PyStr.chars s) = s.
Proof.
  induction s as [|c s IH]; [done |].
  destruct s as [|c' s']; [done |].
  rewrite chars_cons.
  remember (PyStr.chars (String c' s')) as l eqn:Hl. clear Hl.
  destruct l as [|first rest]; [discriminate IH |].
  destruct (PyStr.is_continuation c').
  - destruct rest as [|r rs].
    + simpl in *. by rewrite IH.
    + change (String c (String.concat "" (first :: r :: rs)) = String c (String c' s')).
      by rewrite IH.
  - change (String c (String.concat "" (first :: rest)) = String c (String c' s')).
    by rewrite IH.
Qed.

(** On ASCII text the characters are the bytes. *)
Lemma chars_ascii s :
  ascii_text s = true ->
  PyStr.chars s = map (fun c => String c EmptyString) (list_ascii_of_string s).
Proof.
  induction s as [|c s IH]; [done |].
  intros [_ Hs]%andb_true_iff.
  destruct s as [|c' s']; [done |].
  rewrite chars_cons, (IH Hs).
  apply andb_true_iff in Hs as [Hc' _]. unfold ascii_char in Hc'.
  apply Nat.ltb_lt in Hc'. unfold PyStr.is_continuation.
  by rewrite (proj2 (Nat.leb_gt 128 (nat_of_ascii c'))) by lia.
Qed.

(** A character outside ASCII is one character, whatever the number of
    its bytes; a record with such an identity is rebuilt by [transform]
    with a generated identifier, as with any identity of one
    character. *)
Example chars_code_points :
  PyStr.chars "o-1" = ["o"; "-"; "1"]
  /\ PyStr.chars e_acute = [e_acute]
  /\ PyStr.chars ("a" ++ e_acute ++ "b") = ["a"; e_acute; "b"]
  /\ names_no_field e_acute (deref (heap accent_world) 0) = false
  /\ transform accent_record "copy" "name" (fun v => v) true accent_world
     = (Ok (mkCollection "c"
              [ODoc (mkDocument 1 "000000000000000000000000")] [], None),
        World (heap accent_world
               ++ [[("_id", VOid "000000000000000000000000"); ("name", VStr "x");
                    ("copy", VStr "x")]])
              1 [] None).
Proof. repeat split; reflexivity. Qed.

(** ** [transform]: the records of the result *)

Lemma exact_value_converts c k v :
  converts c -> exact_value v = true -> converts (dict_set k v c).
Proof.
  intros Hc Hv k' s. rewrite dict_get_set.
  destruct (String.eqb k' k); [| apply Hc].
  intros [= ->] Hm. simpl in Hv. rewrite Hm in Hv. simpl in Hv.
  apply ObjectId_of_match; [done | by apply Nat.eqb_eq].
Qed.

Lemma present_no_field ids c :
  forallb (fun ch => negb (dict_has ch c)) ids = true -> present ids c = [].
Proof.
  induction ids as [|k ids IH]; simpl; [done |].
  intros [Hk Hrest]%andb_true_iff. unfold dict_has in Hk.
  destruct (dict_get k c); [done | by apply IH].
Qed.

(** The constructor with a key-field list that names no field. *)
Lemma init_pure_no_field i c n :
  names_no_field i c = true -> converts c ->
  exists c',
    init_pure (PyStr.chars i) c n = (Ok "", c', n)
    /\ dict_keys c' = dict_keys c
    /\ forall key, dict_get key c' = normal_value <$> dict_get key c.
Proof.
  intros [Hlen Hno]%andb_true_iff Hc.
  destruct (normalize_all c Hc) as (c' & Hrun & Hkeys & Hget).
  exists c'. split; [| done]. unfold init_pure, derive_pure.
  rewrite (present_no_field _ _ Hno).
  destruct (PyStr.chars i) as [|k [|k' ids]]; simpl in *; try done;
    by rewrite Hrun.
Qed.

Lemma insert_last (h : list dict) (c x : dict) :
  <[length h := x]> (h ++ [c]) = h ++ [x].
Proof.
  rewrite insert_app_r_alt by lia.
  by replace (length h - length h) with 0 by lia.
Qed.

Lemma deref_last (h : list dict) (c : dict) : deref (h ++ [c]) (length h) = c.
Proof.
  pose proof (deref_app_r h [c] 0) as H. by rewrite Nat.add_0_r in H.
Qed.

(** One iteration of [transform] on a Document whose identity names no
    field of the copy. *)
Lemma transform_doc_no_field new_name column func (d : Document) w :
  names_no_field (id d)
    (with_field new_name column func (deref (heap w) (content d))) = true ->
  converts (with_field new_name column func (deref (heap w) (content d))) ->
  exists c',
    transform_doc new_name column func (ODoc d) w
    = (Ok (ODoc (mkDocument (length (heap w)) "")),
       World (heap w ++ [c']) (oid_counter w)
             (stdout w ++ missing_columns (heap w) column [d]) (not_in_json w))
    /\ dict_keys c'
       = dict_keys (with_field new_name column func (deref (heap w) (content d)))
    /\ forall key,
         dict_get key c'
         = normal_value
             <$> dict_get key (with_field new_name column func
                                 (deref (heap w) (content d))).
Proof.
  intros Hno Hc.
  set (c := deref (heap w) (content d)) in *.
  set (nc := with_field new_name column func c) in *.
  set (out := missing_columns (heap w) column [d]).
  set (w2 := World (heap w ++ [nc]) (oid_counter w) (stdout w ++ out) (not_in_json w)).
  destruct (init_pure_no_field (id d) nc (oid_counter w) Hno Hc)
    as (c' & Hinit & Hkeys & Hget).
  assert (Hdoc : Document_init (ODict (length (heap w))) (PyStr.chars (id d)) w2
                 = (Ok (mkDocument (length (heap w)) ""),
                    World (heap w ++ [c']) (oid_counter w) (stdout w ++ out)
                          (not_in_json w))).
  { rewrite Document_init_trace
      by (unfold w2; cbn [heap]; rewrite length_app; simpl; lia).
    unfold w2; cbn [heap oid_counter stdout not_in_json].
    rewrite deref_last, Hinit. cbn [fst snd]. by rewrite insert_last. }
  exists c'. split; [| done].
  assert (Hout : out = match dict_get column c with
                       | Some _ => []
                       | None => [ColumnNotFound column (id d)]
                       end).
  { unfold out, missing_columns. cbn [flat_map]. fold c. by rewrite app_nil_r. }
  unfold w2 in Hdoc. clearbody out. subst out.
  unfold transform_doc.
  unfold bind at 1, attr_content, ret. cbn [content].
  unfold bind at 1, read. fold c.
  unfold bind at 1, alloc.
  unfold bind at 1, read. cbn [heap]. rewrite deref_last.
  unfold nc, with_field, transformed_value in Hdoc.
  destruct (dict_get column c) as [v|].
  - rewrite app_nil_r in Hdoc |- *.
    unfold bind at 1, write. cbn [heap oid_counter stdout not_in_json].
    rewrite insert_last. unfold bind at 1, attr_id, ret. cbn [id].
    by rewrite (bind_Ok _ _ _ _ _ Hdoc).
  - unfold bind at 1. unfold bind at 1, attr_id, ret. cbn [id].
    unfold bind at 1, print. unfold write.
    cbn [heap oid_counter stdout not_in_json].
    rewrite insert_last. unfold bind at 1.
    by rewrite (bind_Ok _ _ _ _ _ Hdoc).
Qed.

Lemma missing_columns_app (h extra : list dict) column (ds : list Document) :
  Forall (fun d => content d < length h) ds ->
  missing_columns (h ++ extra) column ds = missing_columns h column ds.
Proof.
  induction 1 as [|d ds Hd _ IH]; [done |].
  unfold missing_columns in *. cbn [flat_map].
  by rewrite IH, deref_app_l.
Qed.

Lemma transform_all_no_field new_name column func (ds : list Document) w :
  Forall (fun d =>
            content d < length (heap w)
            /\ names_no_field (id d)
                 (with_field new_name column func (deref (heap w) (content d))) = true
            /\ converts (with_field new_name column func (deref (heap w) (content d))))
         ds ->
  exists news,
    mapM (transform_doc new_name column func) (map ODoc ds) w
    = (Ok (rebuilt_at (length (heap w)) (length ds)),
       World (heap w ++ news) (oid_counter w)
             (stdout w ++ missing_columns (heap w) column ds) (not_in_json w))
    /\ Forall2 (fun d c' =>
                  dict_keys c'
                  = dict_keys (with_field new_name column func
                                 (deref (heap w) (content d)))
                  /\ forall key,
                       dict_get key c'
                       = normal_value
                           <$> dict_get key (with_field new_name column func
                                               (deref (heap w) (content d))))
               ds news.
Proof.
  revert w. induction ds as [|d ds IH]; intros w Hall.
  - exists []. split; [| constructor]. simpl. unfold ret.
    rewrite !app_nil_r. by destruct w.
  - apply Forall_cons in Hall as [(Hlt & Hno & Hc) Hall].
    destruct (transform_doc_no_field new_name column func d w Hno Hc)
      as (c0 & Hone & Hkeys & Hget).
    set (w1 := World (heap w ++ [c0]) (oid_counter w)
                     (stdout w ++ missing_columns (heap w) column [d])
                     (not_in_json w)) in *.
    assert (Hsame : forall d', In d' ds ->
                      deref (heap w1) (content d') = deref (heap w) (content d')).
    { intros d' Hd'. unfold w1; cbn [heap]. apply deref_app_l.
      rewrite Forall_forall in Hall. by apply Hall, list_elem_of_In. }
    destruct (IH w1) as (news & Hrest & Hnews).
    { rewrite Forall_forall in Hall |- *. intros d' Hd'.
      destruct (Hall d' Hd') as (Hlt' & Hno' & Hc').
      rewrite Hsame by (by apply list_elem_of_In).
      split; [| done]. unfold w1; cbn [heap]. rewrite length_app. lia. }
    exists (c0 :: news). split.
    + cbn [map mapM]. rewrite (bind_Ok _ _ _ _ _ Hone), (bind_Ok _ _ _ _ _ Hrest).
      unfold ret, w1; cbn [heap oid_counter stdout not_in_json].
      rewrite length_app. cbn [length].
      rewrite missing_columns_app
        by (eapply Forall_impl; [exact Hall |]; by intros ? (? & _)).
      f_equal.
      * f_equal. unfold rebuilt_at. cbn [seq map]. do 3 f_equal. lia.
      * f_equal.
        -- by rewrite <- app_assoc.
        -- rewrite <- app_assoc. f_equal. unfold missing_columns. cbn [flat_map].
           by rewrite app_nil_r.
    + constructor; [done |].
      apply Forall2_same_length_lookup in Hnews as [Hlen Hnews].
      apply Forall2_same_length_lookup. split; [done |].
      intros k d' c' Hd' Hc'. rewrite <- Hsame.
      * by apply (Hnews k).
      * apply list_elem_of_lookup_2 in Hd'. by apply list_elem_of_In.
Qed.

(** X16.  [transform] on a collection of allocated Documents, when no string
    involved is accepted by the pattern only thanks to a trailing
    newline and no identity, read as a sequence of one-character field
    names, is a single name or names a field of the copy.  The call
    succeeds (except that, not in place, it raises [IndexError] on a
    collection without records).  It allocates one dict for each
    record, in order, after the existing ones, and the records of the
    result refer to these.  Each new dict has the fields of the
    original and [new_name]; [new_name] holds the normal form of
    [func] applied to the value of [column], or of ["UNAVAILABLE"] when
    the record has no such field, and every other field holds the
    normal form of its value.  One line is printed for each record
    without the column.  Every identity of the result is the empty
    string. *)
Theorem transform_adds_field (w : world) (self : Collection)
    (new_name column : string) (func : value -> value) :
  only_documents self -> allocated (heap w) self ->
  Forall (fun d =>
            exact_ids (deref (heap w) (content d)) = true
            /\ exact_value (transformed_value column func
                              (deref (heap w) (content d))) = true
            /\ names_no_field (id d)
                 (with_field new_name column func (deref (heap w) (content d)))
               = true)
         (docs_of self) ->
  exists news,
    transform self new_name column func true w
    = (Ok (mkCollection (name self)
                        (rebuilt_at (length (heap w)) (length (docs_of self)))
                        (skip_values self), None),
       World (heap w ++ news) (oid_counter w)
             (stdout w ++ missing_columns (heap w) column (docs_of self))
             (not_in_json w))
    /\ transform self new_name column func false w
       = (match docs_of self with
          | [] => Raise IndexError
          | _ :: _ =>
              Ok (self,
                  Some (mkCollection (name self)
                          (rebuilt_at (length (heap w)) (length (docs_of self))) []))
          end,
          World (heap w ++ news) (oid_counter w)
                (stdout w ++ missing_columns (heap w) column (docs_of self))
                (not_in_json w))
    /\ Forall2 (fun d c' =>
                  dict_get new_name c'
                  = Some (normal_value (transformed_value column func
                                          (deref (heap w) (content d))))
                  /\ (forall key, key <> new_name ->
                        dict_get key c'
                        = normal_value <$> dict_get key (deref (heap w) (content d)))
                  /\ (forall key, In key (dict_keys c')
                                  <-> In key (dict_keys (deref (heap w) (content d)))
                                      \/ key = new_name))
               (docs_of self) news.
Proof.
  intros Hdocs Halloc Hall. pose proof (only_documents_map _ Hdocs) as Hmap.
  destruct (transform_all_no_field new_name column func (docs_of self) w)
    as (news & Hrun & Hnews).
  { unfold allocated in Halloc. rewrite Forall_forall in Halloc, Hall |- *.
    intros d Hd. destruct (Hall d Hd) as (Hex & Hv & Hno).
    split; [by apply Halloc |]. split; [done |].
    by apply exact_value_converts; [apply exact_ids_converts |]. }
  exists news. split; [| split].
  - unfold transform. rewrite Hmap at 1. by rewrite (bind_Ok _ _ _ _ _ Hrun).
  - unfold transform. rewrite Hmap at 1. rewrite (bind_Ok _ _ _ _ _ Hrun).
    by destruct (docs_of self).
  - eapply Forall2_impl; [exact Hnews |]. intros d c' [Hkeys Hget].
    unfold with_field in *. split; [| split].
    + by rewrite Hget, dict_get_set, String.eqb_refl.
    + intros key Hne. rewrite Hget, dict_get_set.
      by destruct (String.eqb_spec key new_name).
    + intros key. rewrite Hkeys, dict_keys_set_In. tauto.
Qed.

(** ** [resolve]: the records of the result *)

Lemma lookup_get_set v v' a acc :
  lookup_get v (lookup_set v' a acc)
  = if bool_decide (v = v') then Some a else lookup_get v acc.
Proof.
  induction acc as [|[k0 a0] acc IH]; simpl.
  - by destruct (bool_decide (v = v')).
  - destruct (bool_decide_reflect (v' = k0)) as [->|Hne]; simpl.
    + by destruct (bool_decide (v = k0)).
    + rewrite IH. destruct (bool_decide_reflect (v = k0)) as [->|]; [| done].
      by rewrite bool_decide_false by done.
Qed.

Lemma lookup_of_source h (ds : list Document) acc l v :
  lookup_of h ds acc = Some l ->
  lookup_get v l = source_of h ds v (lookup_get v acc).
Proof.
  revert acc. induction ds as [|d ds IH]; intros acc; simpl.
  - by intros [= ->].
  - destruct (dict_get rid (deref h (content d))) as [v'|] eqn:Hd; [| done].
    intros Hl. rewrite (IH _ Hl), lookup_get_set.
    destruct (bool_decide_reflect (v = v')) as [->|Hne].
    + by rewrite bool_decide_true.
    + rewrite bool_decide_false; [done | congruence].
Qed.

Lemma source_of_allocated h (ds : list Document) v found oa :
  Forall (fun d => content d < length h) ds ->
  source_of h ds v found = Some oa ->
  oa < length h \/ found = Some oa.
Proof.
  intros Hall. revert found. induction Hall as [|d ds Hd _ IH]; intros found; simpl.
  - auto.
  - destruct (bool_decide _).
    + intros [?|[= <-]]%IH; auto.
    + apply IH.
Qed.

Lemma resolve_keys_trace h lookup mapping nc cnt out file :
  (forall v oa, lookup_get v lookup = Some oa -> oa < length h) ->
  resolve_keys lookup (length h) mapping (World (h ++ [nc]) cnt out file)
  = (Ok tt, World (h ++ [resolve_pure h lookup mapping nc]) cnt out file).
Proof.
  intros Hlt. revert nc.
  induction mapping as [|[key_self key_other] rest IH]; intros nc; [done |].
  cbn [resolve_keys resolve_pure].
  unfold bind at 1, read. cbn [heap]. rewrite deref_last.
  destruct (dict_get key_self nc) as [lookup_id|].
  - destruct (lookup_get lookup_id lookup) as [oa|] eqn:Hoa.
    + unfold bind at 1. unfold bind at 1, read, write.
      cbn [heap oid_counter stdout not_in_json].
      rewrite insert_last, deref_app_l by (by eapply Hlt). apply IH.
    + unfold bind at 1, ret. apply IH.
  - unfold bind at 1, ret. apply IH.
Qed.

Lemma mapped_cons key_self key_other rest key :
  mapped ((key_self, key_other) :: rest) key
  = if String.eqb key_self key then Some key_other else mapped rest key.
Proof. unfold mapped. simpl. by destruct (String.eqb key_self key). Qed.

Lemma mapped_absent mapping key :
  ~ In key (map fst mapping) -> mapped mapping key = None.
Proof.
  induction mapping as [|[ks ko] rest IH]; [done |].
  intros Hnot. rewrite mapped_cons.
  destruct (String.eqb_spec ks key) as [->|Hne].
  - destruct Hnot. by left.
  - apply IH. intros ?. apply Hnot. by right.
Qed.

(** With distinct keys in the mapping, each field of the copy is
    replaced at most once, from its original value. *)
Lemma resolve_pure_get h lookup mapping nc key :
  NoDup (map fst mapping) ->
  dict_get key (resolve_pure h lookup mapping nc)
  = match mapped mapping key with
    | Some key_other =>
        (fun v => match lookup_get v lookup with
                  | Some oa => default VNone (dict_get key_other (deref h oa))
                  | None => v
                  end) <$> dict_get key nc
    | None => dict_get key nc
    end.
Proof.
  revert nc. induction mapping as [|[ks ko] rest IH]; intros nc Hnd; [done |].
  cbn [map fst] in Hnd. apply NoDup_cons in Hnd as [Hnotin Hnd].
  cbn [resolve_pure]. rewrite IH by done. rewrite mapped_cons.
  destruct (String.eqb_spec ks key) as [->|Hne].
  - rewrite mapped_absent by (by rewrite <- list_elem_of_In).
    destruct (dict_get key nc) as [v|] eqn:Hv;
      cbn [fmap option_fmap option_map]; [| by rewrite ?Hv].
    destruct (lookup_get v lookup) as [oa|].
    + by rewrite dict_get_set, String.eqb_refl.
    + by rewrite ?Hv.
  - assert (Hsame : dict_get key
                      (match dict_get ks nc with
                       | Some lookup_id =>
                           match lookup_get lookup_id lookup with
                           | Some oa =>
                               dict_set ks (default VNone (dict_get ko (deref h oa))) nc
                           | None => nc
                           end
                       | None => nc
                       end) = dict_get key nc).
    { destruct (dict_get ks nc) as [v|]; [| done].
      destruct (lookup_get v lookup); [| done].
      rewrite dict_get_set. by destruct (String.eqb_spec key ks); [congruence |]. }
    by rewrite Hsame.
Qed.

Lemma resolve_pure_keys h lookup mapping nc :
  dict_keys (resolve_pure h lookup mapping nc) = dict_keys nc.
Proof.
  revert nc. induction mapping as [|[ks ko] rest IH]; intros nc; [done |].
  cbn [resolve_pure]. rewrite IH.
  destruct (dict_get ks nc) as [v|] eqn:Hv; [| done].
  destruct (lookup_get v lookup); [| done].
  apply dict_keys_set. congruence.
Qed.

Lemma resolve_pure_converts h lookup mapping nc :
  (forall v oa, lookup_get v lookup = Some oa -> converts (deref h oa)) ->
  converts nc -> converts (resolve_pure h lookup mapping nc).
Proof.
  intros Hl. revert nc.
  induction mapping as [|[ks ko] rest IH]; intros nc Hc; [done |].
  cbn [resolve_pure]. apply IH.
  destruct (dict_get ks nc) as [v|]; [| done].
  destruct (lookup_get v lookup) as [oa|] eqn:Hoa; [| done].
  intros k s. rewrite dict_get_set. destruct (String.eqb k ks); [| apply Hc].
  destruct (dict_get ko (deref h oa)) as [v'|] eqn:Hv'; simpl; [| done].
  intros [= ->]. by apply (Hl _ _ Hoa ko).
Qed.

Lemma resolve_pure_app h extra lookup mapping nc :
  (forall v oa, lookup_get v lookup = Some oa -> oa < length h) ->
  resolve_pure (h ++ extra) lookup mapping nc = resolve_pure h lookup mapping nc.
Proof.
  intros Hl. revert nc.
  induction mapping as [|[ks ko] rest IH]; intros nc; [done |].
  cbn [resolve_pure]. rewrite IH.
  destruct (dict_get ks nc) as [v|]; [| done].
  destruct (lookup_get v lookup) as [oa|] eqn:Hoa; [| done].
  by rewrite deref_app_l by (by eapply Hl).
Qed.

Lemma dict_has_keys k c1 c2 :
  dict_keys c1 = dict_keys c2 -> dict_has k c1 = dict_has k c2.
Proof.
  intros Hkeys. unfold dict_has.
  pose proof (dict_get_keys k c1) as H1. pose proof (dict_get_keys k c2) as H2.
  rewrite Hkeys in H1.
  destruct (dict_get k c1), (dict_get k c2); try done.
  - exfalso. apply (proj1 H2); [by apply (proj2 H1) | done].
  - exfalso. apply (proj1 H1); [by apply (proj2 H2) | done].
Qed.

Lemma names_no_field_keys i c1 c2 :
  dict_keys c1 = dict_keys c2 -> names_no_field i c1 = names_no_field i c2.
Proof.
  intros Hkeys. unfold names_no_field. f_equal.
  induction (PyStr.chars i) as [|ch l IH]; [done |].
  simpl. by rewrite IH, (dict_has_keys ch c1 c2).
Qed.

(** One iteration of [resolve] on a Document whose identity names no
    field of the record. *)
Lemma resolve_doc_no_field lookup mapping (d : Document) w :
  (forall v oa, lookup_get v lookup = Some oa ->
                oa < length (heap w) /\ converts (deref (heap w) oa)) ->
  names_no_field (id d) (deref (heap w) (content d)) = true ->
  converts (deref (heap w) (content d)) ->
  exists c',
    resolve_doc lookup mapping (ODoc d) w
    = (Ok (ODoc (mkDocument (length (heap w)) "")),
       World (heap w ++ [c']) (oid_counter w) (stdout w) (not_in_json w))
    /\ dict_keys c' = dict_keys (deref (heap w) (content d))
    /\ forall key,
         dict_get key c'
         = normal_value
             <$> dict_get key (resolve_pure (heap w) lookup mapping
                                 (deref (heap w) (content d))).
Proof.
  intros Hl Hno Hc.
  set (c := deref (heap w) (content d)) in *.
  set (nc := resolve_pure (heap w) lookup mapping c).
  assert (Hno' : names_no_field (id d) nc = true).
  { unfold nc. by rewrite (names_no_field_keys _ _ c (resolve_pure_keys _ _ _ _)). }
  assert (Hc' : converts nc).
  { apply resolve_pure_converts; [| done]. intros v oa Hoa. by apply (Hl v). }
  destruct (init_pure_no_field (id d) nc (oid_counter w) Hno' Hc')
    as (c' & Hinit & Hkeys & Hget).
  set (w2 := World (heap w ++ [nc]) (oid_counter w) (stdout w) (not_in_json w)).
  assert (Hdoc : Document_init (ODict (length (heap w))) (PyStr.chars (id d)) w2
                 = (Ok (mkDocument (length (heap w)) ""),
                    World (heap w ++ [c']) (oid_counter w) (stdout w)
                          (not_in_json w))).
  { rewrite Document_init_trace
      by (unfold w2; cbn [heap]; rewrite length_app; simpl; lia).
    unfold w2; cbn [heap oid_counter stdout not_in_json].
    rewrite deref_last, Hinit. cbn [fst snd]. by rewrite insert_last. }
  exists c'. split; [| split; [| done]].
  - unfold resolve_doc.
    unfold bind at 1, attr_content, ret. cbn [content].
    unfold bind at 1, read. fold c.
    unfold bind at 1, alloc.
    unfold bind at 1.
    rewrite resolve_keys_trace by (intros v oa Hoa; by apply (Hl v)).
    fold nc. unfold bind at 1, attr_id, ret. cbn [id].
    unfold w2 in Hdoc. by rewrite (bind_Ok _ _ _ _ _ Hdoc).
  - rewrite Hkeys. apply resolve_pure_keys.
Qed.

Lemma resolve_all_no_field lookup mapping (ds : list Document) w :
  (forall v oa, lookup_get v lookup = Some oa ->
                oa < length (heap w) /\ converts (deref (heap w) oa)) ->
  Forall (fun d =>
            content d < length (heap w)
            /\ names_no_field (id d) (deref (heap w) (content d)) = true
            /\ converts (deref (heap w) (content d)))
         ds ->
  exists news,
    mapM (resolve_doc lookup mapping) (map ODoc ds) w
    = (Ok (rebuilt_at (length (heap w)) (length ds)),
       World (heap w ++ news) (oid_counter w) (stdout w) (not_in_json w))
    /\ Forall2 (fun d c' =>
                  dict_keys c' = dict_keys (deref (heap w) (content d))
                  /\ forall key,
                       dict_get key c'
                       = normal_value
                           <$> dict_get key (resolve_pure (heap w) lookup mapping
                                               (deref (heap w) (content d))))
               ds news.
Proof.
  revert w. induction ds as [|d ds IH]; intros w Hl Hall.
  - exists []. split; [| constructor]. simpl. unfold ret.
    rewrite !app_nil_r. by destruct w.
  - apply Forall_cons in Hall as [(Hlt & Hno & Hc) Hall].
    destruct (resolve_doc_no_field lookup mapping d w Hl Hno Hc)
      as (c0 & Hone & Hkeys & Hget).
    set (w1 := World (heap w ++ [c0]) (oid_counter w) (stdout w) (not_in_json w))
      in *.
    assert (Hsame : forall a, a < length (heap w) ->
                      deref (heap w1) a = deref (heap w) a).
    { intros a Ha. unfold w1; cbn [heap]. by apply deref_app_l. }
    assert (Hlen : length (heap w1) = length (heap w) + 1).
    { unfold w1; cbn [heap]. by rewrite length_app. }
    destruct (IH w1) as (news & Hrest & Hnews).
    { intros v oa Hoa. destruct (Hl v oa Hoa) as [Ha Hca].
      rewrite Hsame by done. split; [lia | done]. }
    { rewrite Forall_forall in Hall |- *. intros d' Hd'.
      destruct (Hall d' Hd') as (Hlt' & Hno' & Hc').
      rewrite Hsame by done. split; [lia | done]. }
    exists (c0 :: news). split.
    + cbn [map mapM]. rewrite (bind_Ok _ _ _ _ _ Hone), (bind_Ok _ _ _ _ _ Hrest).
      unfold ret. rewrite Hlen. unfold w1; cbn [heap oid_counter stdout not_in_json].
      cbn [length]. f_equal.
      * f_equal. unfold rebuilt_at. cbn [seq map]. do 3 f_equal. lia.
      * f_equal. by rewrite <- app_assoc.
    + constructor; [done |].
      apply Forall2_same_length_lookup in Hnews as [Hlens Hnews].
      apply Forall2_same_length_lookup. split; [done |].
      intros k d' c' Hd' Hc'.
      assert (Hlt' : content d' < length (heap w)).
      { rewrite Forall_forall in Hall.
        apply list_elem_of_lookup_2 in Hd'. by destruct (Hall d' Hd'). }
      rewrite <- (Hsame _ Hlt').
      replace (resolve_pure (heap w) lookup mapping (deref (heap w1) (content d')))
        with (resolve_pure (heap w1) lookup mapping (deref (heap w1) (content d'))).
      * by apply (Hnews k).
      * unfold w1 at 1; cbn [heap]. apply resolve_pure_app.
        intros v oa Hoa. by apply (Hl v).
Qed.

Lemma source_of_In h (ds : list Document) v found oa :
  source_of h ds v found = Some oa ->
  (exists d, In d ds /\ content d = oa) \/ found = Some oa.
Proof.
  revert found. induction ds as [|d ds IH]; intros found; simpl; [auto |].
  destruct (bool_decide _).
  - intros [(d' & ? & ?)|[= <-]]%IH; left; [exists d' | exists d]; auto.
  - intros [(d' & ? & ?)|?]%IH; [left; exists d' | right]; auto.
Qed.

(** X19.  [resolve] on collections of allocated Documents, when every record
    of [other] has an [_id], the keys of the mapping are distinct, no
    string involved is accepted by the pattern only thanks to a
    trailing newline and no identity of [self], read as a sequence of
    one-character field names, is a single name or names a field of
    its record.  The call succeeds (except that, not in place, it
    raises [IndexError] when [self] has no records), prints nothing and
    allocates one dict for each record of [self], in order, after the
    existing ones; the records of the result refer to these.  Each new
    dict has the fields of the original.  A field that the mapping
    sends to [key_other] and whose value is the [_id] of a record of
    [other] holds the normal form of that record's [key_other] (of the
    last such record, and [None] when it lacks the field); every other
    field holds the normal form of its value.  Every identity of the
    result is the empty string. *)
Theorem resolve_replaces_fields (w : world) (self other : Collection)
    (mapping : list (string * string)) :
  only_documents self -> only_documents other ->
  allocated (heap w) self -> allocated (heap w) other ->
  NoDup (map fst mapping) ->
  Forall (fun o => dict_has rid (deref (heap w) (content o)) = true
                   /\ exact_ids (deref (heap w) (content o)) = true)
         (docs_of other) ->
  Forall (fun d => exact_ids (deref (heap w) (content d)) = true
                   /\ names_no_field (id d) (deref (heap w) (content d)) = true)
         (docs_of self) ->
  exists news,
    resolve self other mapping true w
    = (Ok (mkCollection (name self)
                        (rebuilt_at (length (heap w)) (length (docs_of self)))
                        (skip_values self), None),
       World (heap w ++ news) (oid_counter w) (stdout w) (not_in_json w))
    /\ resolve self other mapping false w
       = (match docs_of self with
          | [] => Raise IndexError
          | _ :: _ =>
              Ok (self,
                  Some (mkCollection (name self)
                          (rebuilt_at (length (heap w)) (length (docs_of self))) []))
          end,
          World (heap w ++ news) (oid_counter w) (stdout w) (not_in_json w))
    /\ Forall2 (fun d c' =>
                  dict_keys c' = dict_keys (deref (heap w) (content d))
                  /\ forall key,
                       dict_get key c'
                       = normal_value
                           <$> resolved_field (heap w) (docs_of other) mapping
                                 (deref (heap w) (content d)) key)
               (docs_of self) news.
Proof.
  intros Hself Hother Hallocs Halloco Hnd Ho Hs.
  pose proof (only_documents_map _ Hself) as Hmaps.
  pose proof (only_documents_map _ Hother) as Hmapo.
  unfold allocated in *.
  destruct (lookup_of (heap w) (docs_of other) []) as [lookup|] eqn:Hlookup.
  2: { apply lookup_of_None in Hlookup as (o & Hin & Hnone).
       rewrite Forall_forall in Ho.
       destruct (Ho o (proj2 (list_elem_of_In _ _) Hin)) as [Hhas _].
       unfold dict_has in Hhas. by rewrite Hnone in Hhas. }
  assert (Hget : forall v, lookup_get v lookup
                           = source_of (heap w) (docs_of other) v None).
  { intros v. by rewrite (lookup_of_source _ _ _ _ v Hlookup). }
  assert (Hl : forall v oa, lookup_get v lookup = Some oa ->
                 oa < length (heap w) /\ converts (deref (heap w) oa)).
  { intros v oa. rewrite Hget.
    intros [(o & Hin & <-)|[=]]%source_of_In.
    rewrite Forall_forall in Halloco, Ho.
    apply list_elem_of_In in Hin.
    split; [by apply Halloco |]. by apply exact_ids_converts, Ho. }
  destruct (resolve_all_no_field lookup mapping (docs_of self) w Hl)
    as (news & Hrun & Hnews).
  { rewrite Forall_forall in Hallocs, Hs |- *. intros d Hd.
    destruct (Hs d Hd) as [Hex Hno].
    split; [by apply Hallocs |]. split; [done | by apply exact_ids_converts]. }
  assert (Hbuild : build_lookup (documents other) [] w = (Ok lookup, w)).
  { rewrite Hmapo, build_lookup_trace. by rewrite Hlookup. }
  exists news. split; [| split].
  - unfold resolve. rewrite (bind_Ok _ _ _ _ _ Hbuild). rewrite Hmaps at 1.
    by rewrite (bind_Ok _ _ _ _ _ Hrun).
  - unfold resolve. rewrite (bind_Ok _ _ _ _ _ Hbuild). rewrite Hmaps at 1.
    rewrite (bind_Ok _ _ _ _ _ Hrun). by destruct (docs_of self).
  - eapply Forall2_impl; [exact Hnews |]. intros d c' [Hkeys Hval].
    split; [done |]. intros key. rewrite Hval, resolve_pure_get by done.
    unfold resolved_field, resolved_value.
    destruct (mapped mapping key) as [key_other|]; [| done].
    destruct (dict_get key (deref (heap w) (content d))) as [v|]; [| done].
    cbn [fmap option_fmap option_map]. by rewrite Hget.
Qed.

(** The order of [orders_world] resolved against its customer. *)
Example resolve_orders :
  resolve orders customers [("customer", "city")] true orders_world
  = (Ok (mkCollection "orders" [ODoc (mkDocument 2 "")] [], None),
     World (heap orders_world ++ [[("_id", VStr "o-1"); ("customer", VStr "Oslo")]])
           0 [] None).
Proof. reflexivity. Qed.

(** ** The theorems at concrete inputs *)

(** X20, witness: [status_records] filtered by [status]. *)
Lemma filter_by_kept_witness :
  only_documents status_records
  /\ filter_by status_records [("status", CLiteral (VStr "active"))] true status_world
     = (Ok (mkCollection "tasks" [ODoc (mkDocument 0 "1")] [], None), status_world)
  /\ filter_by status_records [("status", CLiteral (VStr "none"))] false status_world
     = (Raise IndexError, status_world).
Proof.
  split; [reflexivity |]. split.
  - exact (proj1 (filter_by_kept status_world status_records
                    [("status", CLiteral (VStr "active"))] eq_refl)).
  - exact (proj2 (filter_by_kept status_world status_records
                    [("status", CLiteral (VStr "none"))] eq_refl)).
Defined.

(** X21, witness: [status_records] filtered by [status] and by [name]. *)
Lemma filter_by_twice_witness :
  only_documents status_records
  /\ NoDup (map fst [("status", CLiteral (VStr "active"))])
  /\ NoDup (map fst [("name", CCallable (fun v => bool_decide (v = VStr "x")))])
  /\ NoDup (map fst ([("status", CLiteral (VStr "active"))]
                     ++ [("name", CCallable (fun v => bool_decide (v = VStr "x")))]))
  /\ exists s1 s2,
       filter_by status_records [("status", CLiteral (VStr "active"))] true status_world
       = (Ok (s1, None), status_world)
       /\ filter_by status_records [("name", CCallable (fun v => bool_decide (v = VStr "x")))]
                    true status_world
          = (Ok (s2, None), status_world)
       /\ filter_by s2 [("status", CLiteral (VStr "active"))] true status_world
          = filter_by s1 [("name", CCallable (fun v => bool_decide (v = VStr "x")))]
                      true status_world
       /\ filter_by s1 [("name", CCallable (fun v => bool_decide (v = VStr "x")))]
                    true status_world
          = filter_by status_records
              [("status", CLiteral (VStr "active"));
               ("name", CCallable (fun v => bool_decide (v = VStr "x")))]
              true status_world.
Proof.
  assert (H1 : NoDup (map fst [("status", CLiteral (VStr "active"))]))
    by (apply (bool_decide_unpack _); reflexivity).
  assert (H2 : NoDup (map fst [("name", CCallable (fun v => bool_decide (v = VStr "x")))]))
    by (apply (bool_decide_unpack _); reflexivity).
  assert (H12 : NoDup (map fst ([("status", CLiteral (VStr "active"))]
                                ++ [("name", CCallable (fun v => bool_decide (v = VStr "x")))])))
    by (apply (bool_decide_unpack _); reflexivity).
  split; [reflexivity |]. split; [exact H1 |]. split; [exact H2 |].
  split; [exact H12 |].
  destruct (filter_by_twice status_world status_records
              [("status", CLiteral (VStr "active"))]
              [("name", CCallable (fun v => bool_decide (v = VStr "x")))] eq_refl H1 H2)
    as (s1 & s2 & Hs1 & Hs2 & _ & Hcomm & Hone).
  exists s1, s2. split; [exact Hs1 |]. split; [exact Hs2 |].
  split; [exact Hcomm | exact (Hone H12)].
Defined.

(** X8, witness: [audit_A], two records of which have the identity [1]. *)
Lemma Collection_getattr_last_witness :
  only_documents audit_A /\ In "1" (map id (docs_of audit_A))
  /\ exists pre d post,
       docs_of audit_A = pre ++ d :: post /\ id d = "1"
       /\ ~ In "1" (map id post)
       /\ Collection_getattr audit_A "1" audit_world = (Ok (ODoc d), audit_world).
Proof.
  split; [reflexivity |]. split; [left; reflexivity |].
  apply (Collection_getattr_last audit_world audit_A "1" eq_refl).
  left; reflexivity.
Defined.

(** X1, witness: the record of [one_world] keyed by [name]. *)
Lemma Document_init_one_key_witness :
  0 < length (heap one_world) /\ exact_ids (deref (heap one_world) 0) = true
  /\ exists i c' n',
       Document_init (ODict 0) ["name"] one_world
       = (Ok (mkDocument 0 i),
          World (<[0 := c']> (heap one_world)) n' (stdout one_world)
                (not_in_json one_world))
       /\ i = "x".
Proof.
  split; [simpl; lia |]. split; [reflexivity |].
  destruct (Document_init_one_key one_world 0 "name" ltac:(simpl; lia) eq_refl)
    as (i & c' & n' & Hrun & Hi & _).
  exists i, c', n'. split; [exact Hrun | exact Hi].
Defined.

(** X17, witness: the third dict of [status_world] added to [status_records]. *)
Lemma add_document_lookup_witness :
  only_documents status_records /\ 2 < length (heap status_world)
  /\ exact_ids (deref (heap status_world) 2) = true
  /\ exists d self' w',
       add_document status_records (ODict 2) status_world = (Ok self', w')
       /\ documents self' = documents status_records ++ [ODoc d]
       /\ content d = 2
       /\ Collection_getattr self' (id d) w' = (Ok (ODoc d), w').
Proof.
  split; [reflexivity |]. split; [simpl; lia |]. split; [reflexivity |].
  destruct (add_document_lookup status_world status_records 2 eq_refl
              ltac:(simpl; lia) eq_refl)
    as (d & self' & w' & Hrun & _ & _ & Hdocs & Hc & _ & Hget).
  exists d, self', w'. split; [exact Hrun |]. split; [exact Hdocs |].
  split; [exact Hc | exact Hget].
Defined.

(** X7, witness: [status_records] keyed by [name]. *)
Lemma set_ids_rekey_witness :
  only_documents status_records
  /\ Forall (fun d => keyed "name" (deref (heap status_world) (content d)) = true)
            (docs_of status_records)
  /\ set_ids status_records ["name"] status_world
     = (Ok (mkCollection "tasks" [ODoc (mkDocument 0 "x"); ODoc (mkDocument 1 "y")] []),
        status_world).
Proof.
  assert (H : Forall (fun d => keyed "name" (deref (heap status_world) (content d)) = true)
                     (docs_of status_records))
    by (repeat constructor).
  split; [reflexivity |]. split; [exact H |].
  exact (proj1 (set_ids_rekey status_world status_records "name" eq_refl H)).
Defined.

(** X9, witness: [status_records]. *)
Lemma contains_self_witness :
  only_documents status_records /\ skip_values status_records = []
  /\ NoDup (map id (docs_of status_records))
  /\ Collection_contains status_records status_records status_world
     = (Ok true, status_world).
Proof.
  assert (H : NoDup (map id (docs_of status_records))).
  { apply (bool_decide_unpack _). reflexivity. }
  split; [reflexivity |]. split; [reflexivity |]. split; [exact H |].
  exact (proj1 (contains_self status_world status_records eq_refl eq_refl) H).
Defined.

(** X5, witness: the two records of [stamped_world]. *)
Lemma Document_eq_skips_fields_witness :
  id unstamped = id stamped
  /\ strip (deref (heap stamped_world) (content unstamped))
     = strip (deref (heap stamped_world) (content stamped))
  /\ Document_eq unstamped (ODoc unstamped) stamped_world
     = Document_eq stamped (ODoc stamped) stamped_world.
Proof.
  split; [reflexivity |]. split; [reflexivity |].
  exact (Document_eq_skips_fields stamped_world stamped unstamped stamped unstamped
           eq_refl eq_refl eq_refl eq_refl).
Defined.

(** X18, witness: [named_y], whose record has no [_id]. *)
Lemma resolve_needs_ids_witness :
  only_documents named_y
  /\ (exists d, In d (docs_of named_y)
                /\ dict_get rid (deref (heap named_world) (content d)) = None)
  /\ resolve named_x named_y [("name", "name")] false named_world
     = (Raise (KeyError rid), named_world).
Proof.
  assert (H : exists d, In d (docs_of named_y)
                        /\ dict_get rid (deref (heap named_world) (content d)) = None).
  { exists (mkDocument 1 "y"). split; [left; reflexivity | reflexivity]. }
  split; [reflexivity |]. split; [exact H |].
  exact (resolve_needs_ids named_world named_x named_y [("name", "name")] false
           eq_refl H).
Defined.

(** X6, witness: the first two dicts of [status_world]. *)
Lemma Collection_init_raw_witness :
  [0; 1] <> [] /\ NoDup [0; 1]
  /\ exists ds' w',
       Collection_init "tasks" (SrcList (map ODict [0; 1])) default_ids [] status_world
       = (Ok (mkCollection "tasks" (map ODoc ds') []), w')
       /\ map content ds' = [0; 1]
       /\ length (heap w') = length (heap status_world).
Proof.
  assert (Hnd : NoDup [0; 1]) by (apply (bool_decide_unpack _); reflexivity).
  split; [discriminate |]. split; [exact Hnd |].
  destruct (Collection_init_raw status_world "tasks" [0; 1] []
              ltac:(discriminate) Hnd)
    as (ds' & w' & Hrun & Hcont & _ & _ & Hlen & _).
  { repeat constructor; simpl; lia. }
  exists ds', w'. split; [exact Hrun |]. split; [exact Hcont | exact Hlen].
Defined.

(** X13, witness: [one_record]. *)
Lemma remove_ids_copy_shares_witness :
  only_documents one_record /\ documents one_record <> []
  /\ NoDup (map content (docs_of one_record))
  /\ exists c' w',
       remove_ids one_record false one_world = (Ok (one_record, Some c'), w')
       /\ map content (docs_of c') = map content (docs_of one_record).
Proof.
  assert (Hnd : NoDup (map content (docs_of one_record)))
    by (apply (bool_decide_unpack _); reflexivity).
  split; [reflexivity |]. split; [discriminate |]. split; [exact Hnd |].
  destruct (remove_ids_copy_shares one_world one_record eq_refl
              ltac:(discriminate) Hnd)
    as (c' & w' & Hrun & _ & _ & Hcont & _).
  { constructor; [| constructor].
    split; [simpl; lia |]. split; [reflexivity |].
    apply (bool_decide_unpack _). reflexivity. }
  exists c', w'. split; [exact Hrun | exact Hcont].
Defined.

(** X14, witness: [one_record]. *)
Lemma remove_ids_in_place_then_raises_witness :
  only_documents one_record /\ documents one_record <> []
  /\ NoDup (map content (docs_of one_record)) /\ allocated (heap one_world) one_record
  /\ exists self' w',
       remove_ids one_record true one_world = (Ok (self', None), w')
       /\ documents self' = [ODict 0]
       /\ forall w2 key, Collection_getattr self' key w2 = (Raise AttributeError, w2).
Proof.
  assert (Hnd : NoDup (map content (docs_of one_record)))
    by (apply (bool_decide_unpack _); reflexivity).
  assert (Ha : allocated (heap one_world) one_record)
    by (repeat constructor).
  split; [reflexivity |]. split; [discriminate |]. split; [exact Hnd |].
  split; [exact Ha |].
  destruct (remove_ids_in_place_then_raises one_world one_record eq_refl
              ltac:(discriminate) Hnd Ha)
    as (self' & w' & Hrun & _ & _ & Hdocs & _ & _ & Hlater).
  exists self', w'. split; [exact Hrun |]. split; [exact Hdocs |].
  intros w2 key. exact (proj1 (proj2 (Hlater w2 one_record)) key).
Defined.

(** X12, witness: [named_x] and [named_y]. *)
Lemma Collection_add_spec_witness :
  only_documents named_x /\ only_documents named_y
  /\ documents named_x ++ documents named_y <> []
  /\ exists conflicting,
       (forall v, In v conflicting
                  <-> In v (rid_values (heap named_world) named_x)
                      /\ In v (rid_values (heap named_world) named_y))
       /\ Collection_add named_x (IsCollection named_y) named_world
          = match conflicting with
            | [] => (Ok (mkCollection (name named_x ++ "_and_" ++ name named_y)%string
                                      (documents named_x ++ documents named_y) []),
                     named_world)
            | _ :: _ => (Raise (ValueError (ConflictingIds conflicting)), named_world)
            end.
Proof.
  split; [reflexivity |]. split; [reflexivity |]. split; [discriminate |].
  exact (Collection_add_spec named_world named_x named_y eq_refl eq_refl
           ltac:(discriminate)).
Defined.

(** X2, witness: a record whose [_id] is a string of 24 hexadecimal
    digits, which the loop replaces by the identifier it spells. *)
Lemma normalize_replaces_and_idempotent_witness :
  exact_ids (deref (heap hex_world) 0) = true
  /\ PyStr.re_match_oid hex24 = true
  /\ exists c',
       normalize 0 hex_world = (Ok tt, with_heap (<[0 := c']> (heap hex_world)) hex_world)
       /\ dict_get "_id" (deref (heap hex_world) 0) = Some (VStr hex24)
       /\ dict_get "_id" c' = Some (VOid hex24)
       /\ dict_get "name" c' = Some (VStr "x")
       /\ normalize 0 (with_heap (<[0 := c']> (heap hex_world)) hex_world)
          = (Ok tt, with_heap (<[0 := c']> (heap hex_world)) hex_world).
Proof.
  split; [reflexivity |]. split; [reflexivity |].
  destruct (normalize_replaces_and_idempotent hex_world 0 eq_refl)
    as (c' & Hrun & _ & Hget & Hagain).
  exists c'. split; [exact Hrun |]. split; [reflexivity |].
  split; [exact (Hget "_id") |]. split; [exact (Hget "name") | exact Hagain].
Defined.

(** X3, witness: a record of [named_world] keyed by [name] and [city]. *)
Lemma derive_id_multi_key_witness :
  length ["name"; "city"] <> 1
  /\ derive_id 0 ["name"; "city"] named_world = (Ok "x", named_world).
Proof.
  split; [discriminate |].
  exact (derive_id_multi_key named_world 0 ["name"; "city"] ltac:(discriminate)).
Defined.

(** X10, witness: [one_record] sliced by [name]. *)
Lemma Collection_getitem_fields_witness :
  only_documents one_record /\ documents one_record <> []
  /\ allocated (heap one_world) one_record
  /\ exists c' w',
       Collection_getitem one_record (FList ["name"]) one_world = (Ok c', w')
       /\ name c' = name one_record /\ only_documents c'.
Proof.
  assert (Ha : allocated (heap one_world) one_record) by (repeat constructor).
  split; [reflexivity |]. split; [discriminate |]. split; [exact Ha |].
  destruct (Collection_getitem_fields one_world one_record ["name"] eq_refl
              ltac:(discriminate) Ha)
    as (c' & w' & Hrun & Hname & Hdocs & _).
  { repeat constructor. }
  exists c', w'. split; [exact Hrun |]. split; [exact Hname | exact Hdocs].
Defined.

(** X23, witness: [status_records] added to [small_db]. *)
Lemma add_collection_registry_witness :
  NoDup (map name (collections small_db))
  /\ ~ In (name status_records) (map name (collections small_db))
  /\ collections (add_collection small_db status_records true status_world).1.2
     = [one_record; status_records]
  /\ Database_getattr (add_collection small_db status_records true status_world).1.2
                      "tasks"
     = Done status_records.
Proof.
  assert (Hnd : NoDup (map name (collections small_db)))
    by (apply (bool_decide_unpack _); reflexivity).
  assert (Hnew : ~ In (name status_records) (map name (collections small_db))).
  { intros [H | []]. discriminate H. }
  split; [exact Hnd |]. split; [exact Hnew |].
  destruct (add_collection_registry small_db status_records true status_world Hnd)
    as (_ & _ & Hfresh).
  destruct (Hfresh Hnew) as (Hcs & Hget & _).
  split; [exact Hcs | exact Hget].
Defined.

(** X24, witness: [small_db], a registered and a new name. *)
Lemma new_collection_registry_witness :
  NoDup (map name (collections small_db))
  /\ new_collection small_db "c" one_world = (Failed NameTaken, small_db, one_world)
  /\ new_collection small_db "d" one_world
     = (Done (mkCollection "d" [] []),
        mkDatabase (live small_db) (collections small_db ++ [mkCollection "d" [] []]),
        one_world).
Proof.
  assert (Hnd : NoDup (map name (collections small_db)))
    by (apply (bool_decide_unpack _); reflexivity).
  split; [exact Hnd |].
  destruct (new_collection_registry small_db "c" one_world Hnd) as (Htaken & _).
  destruct (new_collection_registry small_db "d" one_world Hnd) as (_ & Hfresh).
  split.
  - apply Htaken. left; reflexivity.
  - apply Hfresh. intros [H | []]. discriminate H.
Defined.

(** X16, witness: [one_record], the field [name] copied to [copy]. *)
Lemma transform_adds_field_witness :
  only_documents one_record /\ allocated (heap one_world) one_record
  /\ exists news,
       transform one_record "copy" "name" (fun v => v) true one_world
       = (Ok (mkCollection "c" [ODoc (mkDocument 1 "")] [], None),
          World (heap one_world ++ news) 0 [] None)
       /\ Forall2 (fun d c' =>
                     dict_get "copy" c'
                     = Some (normal_value
                               (transformed_value "name" (fun v => v)
                                  (deref (heap one_world) (content d)))))
                  (docs_of one_record) news.
Proof.
  assert (Ha : allocated (heap one_world) one_record) by (repeat constructor).
  split; [reflexivity |]. split; [exact Ha |].
  destruct (transform_adds_field one_world one_record "copy" "name" (fun v => v)
              eq_refl Ha)
    as (news & Hrun & _ & Hnews).
  { constructor; [| constructor]. split; [reflexivity |]. split; reflexivity. }
  exists news. split; [exact Hrun |].
  eapply Forall2_impl; [exact Hnews |]. intros d c' [H _]. exact H.
Defined.

(** X19, witness: [orders] resolved against [customers]. *)
Lemma resolve_replaces_fields_witness :
  only_documents orders /\ only_documents customers
  /\ allocated (heap orders_world) orders /\ allocated (heap orders_world) customers
  /\ NoDup (map fst [("customer", "city")])
  /\ exists news,
       resolve orders customers [("customer", "city")] true orders_world
       = (Ok (mkCollection "orders" [ODoc (mkDocument 2 "")] [], None),
          World (heap orders_world ++ news) 0 [] None)
       /\ Forall2 (fun d c' =>
                     dict_get "customer" c'
                     = normal_value
                         <$> resolved_field (heap orders_world) (docs_of customers)
                               [("customer", "city")]
                               (deref (heap orders_world) (content d)) "customer")
                  (docs_of orders) news.
Proof.
  assert (Ha : allocated (heap orders_world) orders)
    by (repeat constructor).
  assert (Hb : allocated (heap orders_world) customers)
    by (constructor; [simpl; lia | constructor]).
  assert (Hnd : NoDup (map fst [("customer", "city")]))
    by (apply (bool_decide_unpack _); reflexivity).
  split; [reflexivity |]. split; [reflexivity |]. split; [exact Ha |].
  split; [exact Hb |]. split; [exact Hnd |].
  destruct (resolve_replaces_fields orders_world orders customers
              [("customer", "city")] eq_refl eq_refl Ha Hb Hnd)
    as (news & Hrun & _ & Hnews).
  { constructor; [| constructor]. split; reflexivity. }
  { constructor; [| constructor]. split; reflexivity. }
  exists news. split; [exact Hrun |].
  eapply Forall2_impl; [exact Hnews |]. intros d c' [_ H]. exact (H "customer").
Defined.

(** X22, witness: [raw_tasks] made live over the live collection of
    [small_db], which is emptied. *)
Lemma make_live_refusals_witness :
  documents raw_tasks <> [] /\ ~ only_documents raw_tasks
  /\ list_collection_names (live small_db) = Done ["tasks"]
  /\ make_live small_db raw_tasks false one_world
     = (Failed AlreadyLive, small_db, one_world)
  /\ make_live small_db raw_tasks true one_world
     = (Failed (Raised AttributeError),
        mkDatabase [("tasks", [])] (collections small_db), one_world).
Proof.
  assert (Hne : documents raw_tasks <> []) by discriminate.
  assert (Hraw : ~ only_documents raw_tasks) by discriminate.
  split; [exact Hne |]. split; [exact Hraw |]. split; [reflexivity |].
  destruct (make_live_refusals small_db raw_tasks one_world) as (_ & Hlive & Hdrop).
  split.
  - exact (Hlive ["tasks"] Hne eq_refl ltac:(left; reflexivity)).
  - exact (Hdrop ["tasks"] [] [("tasks", [])] Hne Hraw eq_refl
             ltac:(left; reflexivity) eq_refl eq_refl).
Defined.
